(** * Microsoft Outlook node: a shallow embedding of [execute]

    Source: packages/nodes-base/nodes/Microsoft/Outlook/MicrosoftOutlook.node.ts

    The node's [execute] method is a cascade of [if (operation === ...)]
    blocks, each holding one [for] loop over the input items whose body is a
    [try { ... } catch (error) { ... }].  The embedding keeps that shape:

    - JavaScript values are [JsonValue]s, objects used as maps are [gmap]s;
    - the mutable variables of [execute] ([items], [returnData], [qs]) and the
      trace of calls made to the external collaborators form the [State];
    - [items] is an array of references: the [State] records which positions
      were given an object of their own, the [Env] which positions of the
      input share one object, so that an assignment to a property of
      [items[i]] reaches every position that refers to that object;
    - statements live in a state-and-exception monad [M], with [try_catch],
      [for_loop] and early [Return];
    - what the node cannot know (resolved parameters, the continue-on-fail
      flag, the answers of the HTTP layer) is gathered in an [Env]. *)

From Stdlib Require Import ZArith Lia Ascii String.
From stdpp Require Import gmap strings list fin_maps pretty sorting.

#[local] Set Warnings "-register-all".
#[local] Open Scope Z_scope.

(** ** JavaScript values *)

Inductive JsonValue :=
| JUndefined
| JNull
| JBool (b : bool)
| JNum (z : Z)
| JStr (s : string)
| JBuffer (bytes : list Byte.byte)
| JArr (elements : list JsonValue)
| JObj (fields : gmap string JsonValue).

(** The double-quote character, used inside two of the node's error messages. *)
Definition dquote : string := String "034"%char EmptyString.

(** [if (v)], [!!v], [!v]: JavaScript truthiness. *)
Definition truthy (v : JsonValue) : bool :=
  match v with
  | JUndefined | JNull => false
  | JBool b => b
  | JNum z => negb (z =? 0)
  | JStr s => negb (bool_decide (s = EmptyString))
  | JBuffer _ | JArr _ | JObj _ => true
  end.

(** Template-literal conversion [`${v}`].  The parameters spliced into
    endpoints are declared as strings by the node description; for the other
    primitive shapes the usual conversion is given, containers print as
    objects do. *)
Definition toString (v : JsonValue) : string :=
  match v with
  | JUndefined => "undefined"
  | JNull => "null"
  | JBool true => "true"
  | JBool false => "false"
  | JNum z => pretty z
  | JStr s => s
  | JBuffer _ | JArr _ | JObj _ => "[object Object]"
  end.

(** [v.k] on a value known to be an object (resolved parameter collections):
    a missing key reads as [undefined]. *)
Definition field (v : JsonValue) (k : string) : JsonValue :=
  match v with
  | JObj o => default JUndefined (o !! k)
  | _ => JUndefined
  end.

(** The object behind a parameter collection such as [additionalFields]. *)
Definition asObject (v : JsonValue) : gmap string JsonValue :=
  match v with
  | JObj o => o
  | _ => ∅
  end.

(** [v === 's'] against a string literal. *)
Definition strict_eq (v : JsonValue) (s : string) : bool :=
  match v with
  | JStr s' => bool_decide (s' = s)
  | _ => false
  end.

(** [[...].includes(v)] for an array of string literals. *)
Definition includes (l : list string) (v : JsonValue) : bool :=
  existsb (strict_eq v) l.

(** [a || b]. *)
Definition or_else (a b : JsonValue) : JsonValue :=
  if truthy a then a else b.

(** [s.split(',')]. *)
Fixpoint split_comma_go (acc : string) (s : string) : list string :=
  match s with
  | EmptyString => [String.rev acc]
  | String c s' =>
      if Ascii.eqb c ","%char
      then String.rev acc :: split_comma_go EmptyString s'
      else split_comma_go (String c acc) s'
  end.

Definition split_comma (s : string) : list string :=
  split_comma_go EmptyString s.

(** ** Items *)

(** One named binary payload of an item ([IBinaryData]). *)
Record IBinaryData := mkBinary {
  data : list Byte.byte;
  mimeType : option string;
  fileName : option string;
}.

(** One unit of workflow data ([INodeExecutionData]); [pairedItem] is the
    origin index written by [constructExecutionMetaData]. *)
Record INodeExecutionData := mkItem {
  json : JsonValue;
  binary : option (gmap string IBinaryData);
  pairedItem : option nat;
}.

Definition set_json (j : JsonValue) (d : INodeExecutionData) : INodeExecutionData :=
  {| json := j; binary := binary d; pairedItem := pairedItem d |}.

Definition set_binary (b : gmap string IBinaryData) (d : INodeExecutionData)
  : INodeExecutionData :=
  {| json := json d; binary := Some b; pairedItem := pairedItem d |}.

(** ** Errors *)

Inductive Error :=
| NodeOperationError (message : string) (itemIndex : option nat)
| NodeApiError (response : JsonValue) (message : string)
| TypeError (message : string)
| ExternalError (message : string).

(** [error.message]. *)
Definition error_message (e : Error) : string :=
  match e with
  | NodeOperationError m _ => m
  | NodeApiError _ m => m
  | TypeError m => m
  | ExternalError m => m
  end.

(** ** Calls to the external collaborators *)

(** Every awaited call that leaves the node, with its arguments as passed
    (an omitted or [undefined] argument is [JUndefined]).  The [uri] and
    [headers] arguments of [microsoftApiRequest] are only ever passed as
    [undefined] and [{}] and are not recorded. *)
Inductive Call :=
| ApiRequest (method resource : string) (body qs option : JsonValue)
| ApiRequestAllItems (propertyName method endpoint : string) (body query : JsonValue)
| HelpersRequest (uri : JsonValue) (options : JsonValue)
| DownloadAttachments (messages : JsonValue) (prefix : string).

(** The result of [execute]: [INodeExecutionData[][]]. *)
Definition Output : Type := list (list INodeExecutionData).

(** ** Environment *)

Record Env := mkEnv {
  (** [this.getNodeParameter(name, itemIndex)], already resolved. *)
  getNodeParameter : string -> nat -> JsonValue;
  (** [this.continueOnFail()]. *)
  continueOnFail : bool;
  (** The HTTP layer: the answer to a call, given the calls made so far. *)
  server : list Call -> Call -> Error + JsonValue;
  (** [downloadAttachments] of GenericFunctions: one item per message. *)
  downloadAttachments_result :
    list Call -> JsonValue -> string -> Error + list INodeExecutionData;
  (** [binaryToAttachments] of GenericFunctions. *)
  binaryToAttachments :
    JsonValue -> list INodeExecutionData -> nat -> Error + list JsonValue;
  (** [createMessage] and [makeRecipient] of GenericFunctions. *)
  createMessage : gmap string JsonValue -> gmap string JsonValue;
  makeRecipient : string -> JsonValue;
  (** The binary store behind [prepareBinaryData] may refuse a payload. *)
  binaryStore_error : list Byte.byte -> option Error;
  (** MIME type guessed by [prepareBinaryData] when none is declared. *)
  guessMimeType : list Byte.byte -> option string -> option string;
  (** [buffer.toString('base64')]. *)
  toBase64 : list Byte.byte -> string;
  (** The objects behind [this.getInputData()]: positions [i] and [j] of the
      input hold the same item object when [inputObject i = inputObject j]. *)
  inputObject : nat -> nat;
}.

(** ** State and the statement monad *)

Record State := mkState {
  items : list INodeExecutionData;
  returnData : list INodeExecutionData;
  qs : gmap string JsonValue;
  calls : list Call;
  (** The positions of [items] that were assigned a new item (lines 456 and
      801).  Such a position refers to an object of its own; every other
      position [j] still refers to the input object [inputObject j]. *)
  replaced : gset nat;
}.

Inductive Completion (A : Type) :=
| Normal (a : A)
| Throw (e : Error).
Arguments Normal {A} a.
Arguments Throw {A} e.

Definition M (A : Type) : Type := State -> Completion A * State.

Definition ret {A} (a : A) : M A := fun s => (Normal a, s).

Definition throw {A} (e : Error) : M A := fun s => (Throw e, s).

Definition bind {A B} (m : M A) (f : A -> M B) : M B :=
  fun s =>
    match m s with
    | (Normal a, s') => f a s'
    | (Throw e, s') => (Throw e, s')
    end.

(** [try { m } catch (error) { h error }]: the handler runs in the state the
    failing statement left behind. *)
Definition try_catch {A} (m : M A) (h : Error -> M A) : M A :=
  fun s =>
    match m s with
    | (Normal a, s') => (Normal a, s')
    | (Throw e, s') => h e s'
    end.

Declare Scope stmt_scope.
Delimit Scope stmt_scope with stmt.
Notation "'let!' x ':=' m 'in' k" := (bind m (fun x => k))
  (at level 10, x name, m at level 100, k at level 200) : stmt_scope.
Notation "m ';;' k" := (bind m (fun _ => k))
  (at level 100, k at level 200, right associativity) : stmt_scope.
#[local] Open Scope stmt_scope.

(** How a statement leaves a loop body or the method body. *)
Inductive Signal :=
| Continue
| Return (out : Output).

(** [for (let i = start; i < start + n; i++) body(i)], stopping at a
    [return]; an exception leaves the loop through [bind]. *)
Fixpoint for_loop (body : nat -> M Signal) (i n : nat) : M Signal :=
  match n with
  | O => ret Continue
  | S n' =>
      let! r := body i in
      match r with
      | Return out => ret (Return out)
      | Continue => for_loop body (S i) n'
      end
  end.

(** Statement sequencing at the top level of [execute]. *)
Definition and_then (a b : M Signal) : M Signal :=
  let! r := a in
  match r with
  | Return out => ret (Return out)
  | Continue => b
  end.
Notation "a ';;;' b" := (and_then a b)
  (at level 100, b at level 200, right associativity) : stmt_scope.

(** [if (c) { m }] for statements without a value. *)
Definition when_ (c : bool) (m : M unit) : M unit :=
  if c then m else ret tt.

(** [if (c) { m }] for blocks that may return. *)
Definition if_block (c : bool) (m : M Signal) : M Signal :=
  if c then m else ret Continue.

(** [for (const x of l) f(x)]. *)
Fixpoint for_of {A} (l : list A) (f : A -> M unit) : M unit :=
  match l with
  | [] => ret tt
  | x :: l' => f x ;; for_of l' f
  end.

Definition lift_result {A} (r : Error + A) : M A :=
  match r with
  | inl e => throw e
  | inr a => ret a
  end.

Definition get_items : M (list INodeExecutionData) := fun s => (Normal (items s), s).
Definition get_returnData : M (list INodeExecutionData) :=
  fun s => (Normal (returnData s), s).
Definition get_qs : M (gmap string JsonValue) := fun s => (Normal (qs s), s).

(** [qs.k = v]. *)
Definition set_qs (k : string) (v : JsonValue) : M unit :=
  fun s =>
    (Normal tt,
     {| items := items s; returnData := returnData s;
        qs := <[k := v]> (qs s); calls := calls s; replaced := replaced s |}).

(** [returnData.push(...executionData)]. *)
Definition push (executionData : list INodeExecutionData) : M unit :=
  fun s =>
    (Normal tt,
     {| items := items s; returnData := returnData s ++ executionData;
        qs := qs s; calls := calls s; replaced := replaced s |}).

(** [items[i] = d] for a newly built object [d] and [i < items.length]:
    position [i] now refers to an object no other position refers to. *)
Definition set_item (i : nat) (d : INodeExecutionData) : M unit :=
  fun s =>
    (Normal tt,
     {| items := <[i := d]> (items s); returnData := returnData s;
        qs := qs s; calls := calls s; replaced := {[i]} ∪ replaced s |}).

(** [items[i]]; reading a field of a missing element is a [TypeError]. *)
Definition get_item (i : nat) : M INodeExecutionData :=
  fun s =>
    match items s !! i with
    | Some d => (Normal d, s)
    | None => (Throw (TypeError "Cannot read properties of undefined"), s)
    end.

(** [v.k] on a value received from outside: reading a property of
    [undefined] or [null] throws. *)
Definition prop (v : JsonValue) (k : string) : M JsonValue :=
  match v with
  | JUndefined | JNull => throw (TypeError "Cannot read properties of undefined")
  | _ => ret (field v k)
  end.

(** ** Helpers of the workflow engine

    [returnJsonArray], [constructExecutionMetaData], [prepareBinaryData],
    [getBinaryDataBuffer] and [prepareOutputData] belong to the engine, not to
    this file. *)

(** Modelled from the spec: the engine helper [returnJsonArray] is missing;
    it turns a payload into success or error records, one record for a single
    object and one per element for a bulk result. *)
Definition returnJsonArray (jsonData : JsonValue) : list INodeExecutionData :=
  match jsonData with
  | JArr l => (fun d => mkItem d None None) <$> l
  | d => [mkItem d None None]
  end.

(** Modelled from the spec: [returnJsonArray] on the items produced by
    [downloadAttachments], which already are records (JSON plus binary). *)
Definition returnJsonArray_items (data : list INodeExecutionData)
  : list INodeExecutionData := data.

(** Modelled from the spec: the engine helper [constructExecutionMetaData]
    is missing; it tags every record with the originating item index. *)
Definition constructExecutionMetaData (inputData : list INodeExecutionData)
    (item : nat) : list INodeExecutionData :=
  (fun d => mkItem (json d) (binary d) (Some item)) <$> inputData.

(** Modelled from the spec: [prepareOutputData] is missing; the node has one
    output, which receives the whole sequence. *)
Definition prepareOutputData (outputData : list INodeExecutionData) : Output :=
  [outputData].

(** [{ success: true }] and [{ error: error.message }]. *)
Definition success_json : JsonValue := JObj {[ "success" := JBool true ]}.
Definition error_json (error : Error) : JsonValue :=
  JObj {[ "error" := JStr (error_message error) ]}.

(** An object literal. *)
Definition obj (l : list (string * JsonValue)) : JsonValue :=
  JObj (list_to_map l).

(** A string or [undefined] as a value. *)
Definition of_option_string (o : option string) : JsonValue :=
  match o with
  | Some s => JStr s
  | None => JUndefined
  end.

(** [Math.min] on integers. *)
Definition Math_min (a b : Z) : Z := Z.min a b.

(** [buffer.subarray(start, end)] for [0 <= start <= end]. *)
Definition subarray (buffer : list Byte.byte) (start end_ : Z) : list Byte.byte :=
  take (Z.to_nat (end_ - start)) (drop (Z.to_nat start) buffer).

(** [buffer.length]. *)
Definition buffer_length (buffer : list Byte.byte) : Z := Z.of_nat (length buffer).

Section Execute.

Variable env : Env.

(** [await microsoftApiRequest.call(this, method, resource, body, qs, uri,
    headers, option)]: the call is recorded, then answered by the server. *)
Definition perform (c : Call) : M JsonValue :=
  fun s =>
    let s' := {| items := items s; returnData := returnData s; qs := qs s;
                 calls := calls s ++ [c]; replaced := replaced s |} in
    match server env (calls s) c with
    | inl e => (Throw e, s')
    | inr v => (Normal v, s')
    end.

Definition microsoftApiRequest (method resource : string)
    (body qs option : JsonValue) : M JsonValue :=
  perform (ApiRequest method resource body qs option).

Definition microsoftApiRequestAllItems (propertyName method endpoint : string)
    (body query : JsonValue) : M JsonValue :=
  perform (ApiRequestAllItems propertyName method endpoint body query).

(** [await this.helpers.request(uri, options)]. *)
Definition helpers_request (uri options : JsonValue) : M JsonValue :=
  perform (HelpersRequest uri options).

(** [await downloadAttachments.call(this, messages, prefix)]. *)
Definition downloadAttachments (messages : JsonValue) (prefix : string)
  : M (list INodeExecutionData) :=
  fun s =>
    let s' := {| items := items s; returnData := returnData s; qs := qs s;
                 calls := calls s ++ [DownloadAttachments messages prefix];
                 replaced := replaced s |} in
    match downloadAttachments_result env (calls s) messages prefix with
    | inl e => (Throw e, s')
    | inr v => (Normal v, s')
    end.

(** Modelled from the spec: [this.helpers.prepareBinaryData] is missing; it
    builds the binary payload (raw bytes, file name, declared MIME type, the
    type being guessed when none is declared), unless the store fails. *)
Definition prepareBinaryData (binaryData : list Byte.byte)
    (filePath : option string) (mime : option string) : M IBinaryData :=
  match binaryStore_error env binaryData with
  | Some e => throw e
  | None =>
      ret {| data := binaryData;
             mimeType := match mime with
                         | Some m => Some m
                         | None => guessMimeType env binaryData filePath
                         end;
             fileName := filePath |}
  end.

(** Modelled from the spec: [this.helpers.getBinaryDataBuffer(i, name)] is
    missing; it yields the raw bytes of the named binary payload of input
    item [i]. *)
Definition getBinaryDataBuffer (itemIndex : nat) (propertyName : string)
  : M (list Byte.byte) :=
  let! item := get_item itemIndex in
  match binary item with
  | Some b =>
      match b !! propertyName with
      | Some bd => ret (data bd)
      | None => throw (ExternalError "No binary data exists on item")
      end
  | None => throw (ExternalError "No binary data exists on item")
  end.

(** The [catch] block of the result-accumulation operations (lines 154-164
    and its copies). *)
Definition catch_push (i : nat) (error : Error) : M Signal :=
  if continueOnFail env then
    let executionData := constructExecutionMetaData (returnJsonArray (error_json error)) i in
    push executionData ;;
    ret Continue
  else throw error.

(** Positions [i] and [j] of [items] refer to the same object: a position
    that was assigned a new item shares it with no other position, two
    positions that were not share what the input shares. *)
Definition same_object (s : State) (i j : nat) : bool :=
  if decide (i ∈ replaced s) then bool_decide (j = i)
  else bool_decide (j ∉ replaced s)
       && bool_decide (inputObject env j = inputObject env i).

(** An assignment to a property of [items[i]], such as
    [items[i].json = ...]: it changes the object [items[i]] refers to, and
    so what is seen at every position that refers to that object. *)
Definition update_object (i : nat)
    (f : INodeExecutionData -> INodeExecutionData) : M unit :=
  fun s =>
    (Normal tt,
     {| items := imap (fun j d => if same_object s i j then f d else d) (items s);
        returnData := returnData s; qs := qs s; calls := calls s;
        replaced := replaced s |}).

(** The [catch] block of [getMime] and [download] (lines 465-471, 808-814):
    [items[i].json = { error: error.message }] is an assignment to the item
    object itself. *)
Definition catch_overwrite (i : nat) (error : Error) : M Signal :=
  if continueOnFail env then
    let! item := get_item i in
    update_object i (set_json (error_json error)) ;;
    ret Continue
  else throw error.

(** [value === undefined]. *)
Definition is_undefined (v : JsonValue) : bool :=
  match v with
  | JUndefined => true
  | _ => false
  end.

(** [Buffer.from(body, 'utf8')] on a response body. *)
Definition Buffer_from (body : JsonValue) : M (list Byte.byte) :=
  match body with
  | JBuffer b => ret b
  | JStr s => ret (list_byte_of_string s)
  | _ => throw (TypeError "The first argument must be of type string or an instance of Buffer")
  end.

(** The [returnAll] fork shared by the list operations: pagination until
    exhaustion, or one request bounded by [$top]. *)
Definition list_request (i : nat) (returnAll : JsonValue)
    (all_items : gmap string JsonValue -> M JsonValue)
    (one_page : gmap string JsonValue -> M JsonValue) : M JsonValue :=
  if truthy returnAll then
    let! qs := get_qs in
    all_items qs
  else
    set_qs "$top" (getNodeParameter env "limit" i) ;;
    let! qs := get_qs in
    let! responseData := one_page qs in
    prop responseData "value".

(** *** Resources draft and message *)

(** Lines 147-153. *)
Definition message_delete_try (i : nat) : M Signal :=
  let messageId := getNodeParameter env "messageId" i in
  let! responseData :=
    microsoftApiRequest "DELETE" ("/messages/" +:+ toString messageId)
      JUndefined JUndefined JUndefined in
  let executionData := constructExecutionMetaData (returnJsonArray success_json) i in
  push executionData ;;
  ret Continue.

(** Lines 171-212; the [return] of lines 210-212 is inside the loop. *)
Definition message_get_try (i : nat) : M Signal :=
  let messageId := getNodeParameter env "messageId" i in
  let additionalFields := getNodeParameter env "additionalFields" i in
  when_ (truthy (field additionalFields "fields"))
    (set_qs "$select" (field additionalFields "fields")) ;;
  when_ (truthy (field additionalFields "filter"))
    (set_qs "$filter" (field additionalFields "filter")) ;;
  let! qs := get_qs in
  let! responseData :=
    microsoftApiRequest "GET" ("/messages/" +:+ toString messageId)
      JUndefined (JObj qs) JUndefined in
  (if truthy (field additionalFields "dataPropertyAttachmentsPrefixName") then
     let prefix := toString (field additionalFields "dataPropertyAttachmentsPrefixName") in
     let! data := downloadAttachments responseData prefix in
     let executionData := constructExecutionMetaData (returnJsonArray_items data) i in
     push executionData
   else
     let executionData := constructExecutionMetaData (returnJsonArray responseData) i in
     push executionData) ;;
  if truthy (field additionalFields "dataPropertyAttachmentsPrefixName") then
    let! returnData := get_returnData in
    ret (Return [returnData])
  else ret Continue.

(** Lines 230-248. *)
Definition message_update_try (i : nat) : M Signal :=
  let messageId := getNodeParameter env "messageId" i in
  let updateFields := getNodeParameter env "updateFields" i in
  let body := createMessage env (asObject updateFields) in
  let! responseData :=
    microsoftApiRequest "PATCH" ("/messages/" +:+ toString messageId)
      (JObj body) (JObj ∅) JUndefined in
  let executionData := constructExecutionMetaData (returnJsonArray responseData) i in
  push executionData ;;
  ret Continue.

(** Lines 268-295. *)
Definition draft_create_try (i : nat) : M Signal :=
  let additionalFields := asObject (getNodeParameter env "additionalFields" i) in
  let subject := getNodeParameter env "subject" i in
  let bodyContent := getNodeParameter env "bodyContent" i in
  let additionalFields := <["subject" := subject]> additionalFields in
  let additionalFields :=
    <["bodyContent" := or_else bodyContent (JStr " ")]> additionalFields in
  let body := createMessage env additionalFields in
  let! body :=
    if truthy (field (JObj additionalFields) "attachments") then
      let attachments := field (field (JObj additionalFields) "attachments") "attachments" in
      let! items := get_items in
      let! converted := lift_result (binaryToAttachments env attachments items i) in
      ret (<["attachments" := JArr converted]> body)
    else ret body in
  let! responseData :=
    microsoftApiRequest "POST" "/messages" (JObj body) (JObj ∅) JUndefined in
  let executionData := constructExecutionMetaData (returnJsonArray responseData) i in
  push executionData ;;
  ret Continue.

(** Lines 313-336. *)
Definition draft_send_try (i : nat) : M Signal :=
  let messageId := getNodeParameter env "messageId" i in
  let additionalFields := getNodeParameter env "additionalFields" i in
  when_ (truthy (field additionalFields "recipients"))
    (let recipients :=
       filter (fun email => email <> EmptyString)
         (split_comma (toString (field additionalFields "recipients"))) in
     when_ (negb (Nat.eqb (length recipients) 0))
       (microsoftApiRequest "PATCH" ("/messages/" +:+ toString messageId)
          (obj [("toRecipients", JArr (makeRecipient env <$> recipients))])
          JUndefined JUndefined ;;
        ret tt)) ;;
  let! responseData :=
    microsoftApiRequest "POST" ("/messages/" +:+ toString messageId +:+ "/send")
      JUndefined JUndefined JUndefined in
  let executionData := constructExecutionMetaData (returnJsonArray success_json) i in
  push executionData ;;
  ret Continue.

(** Lines 356-408. *)
Definition message_reply_try (i : nat) : M Signal :=
  let messageId := getNodeParameter env "messageId" i in
  let replyType := getNodeParameter env "replyType" i in
  let comment := getNodeParameter env "comment" i in
  let send := getNodeParameter env "send" i in
  let additionalFields := getNodeParameter env "additionalFields" i in
  let '(body, action) :=
    if strict_eq replyType "replyAll" then
      (obj [("comment", comment)], "createReplyAll")
    else
      (obj [("comment", comment);
            ("message",
             JObj (delete "attachments" (createMessage env (asObject additionalFields))))],
       "createReply") in
  let! responseData :=
    microsoftApiRequest "POST"
      ("/messages/" +:+ toString messageId +:+ "/" +:+ action)
      body JUndefined JUndefined in
  when_ (truthy (field additionalFields "attachments"))
    (let attachments := field (field additionalFields "attachments") "attachments" in
     let! items := get_items in
     let! data := lift_result (binaryToAttachments env attachments items i) in
     for_of data (fun attachment =>
       let! id := prop responseData "id" in
       microsoftApiRequest "POST" ("/messages/" +:+ toString id +:+ "/attachments")
         attachment (JObj ∅) JUndefined ;;
       ret tt)) ;;
  when_ (truthy send)
    (let! id := prop responseData "id" in
     microsoftApiRequest "POST" ("/messages/" +:+ toString id +:+ "/send")
       JUndefined JUndefined JUndefined ;;
     ret tt) ;;
  let executionData := constructExecutionMetaData (returnJsonArray responseData) i in
  push executionData ;;
  ret Continue.

(** The shallow copy of lines 444-456 and 789-801: a new item with the old
    JSON and a fresh binary map holding the old entries. *)
Definition copy_item (item : INodeExecutionData) : INodeExecutionData :=
  {| json := json item;
     binary := Some (match binary item with
                     | Some b => b ∪ ∅
                     | None => ∅
                     end);
     pairedItem := None |}.

(** [items[i].binary![name] = value], after [items[i] = newItem]: an
    assignment to the binary map of the object [items[i]] refers to. *)
Definition set_binary_property (i : nat) (name : string) (value : IBinaryData)
  : M unit :=
  let! item := get_item i in
  match binary item with
  | Some b => update_object i (set_binary (<[name := value]> b))
  | None => throw (TypeError "Cannot set properties of undefined")
  end.

(** The options of the two raw downloads. *)
Definition raw_response_option : JsonValue :=
  obj [("encoding", JNull); ("resolveWithFullResponse", JBool true)].

(** Lines 426-464. *)
Definition message_getMime_try (i : nat) : M Signal :=
  let messageId := getNodeParameter env "messageId" i in
  let dataPropertyNameDownload := getNodeParameter env "binaryPropertyName" i in
  let! response :=
    microsoftApiRequest "GET" ("/messages/" +:+ toString messageId +:+ "/$value")
      JUndefined (JObj ∅) raw_response_option in
  let! headers := prop response "headers" in
  let! contentType := prop headers "content-type" in
  let mimeType := if truthy contentType then Some (toString contentType) else None in
  let! item := get_item i in
  let newItem := copy_item item in
  set_item i newItem ;;
  let fileName := toString messageId +:+ ".eml" in
  let! body := prop response "body" in
  let! data := Buffer_from body in
  let! prepared := prepareBinaryData data (Some fileName) mimeType in
  set_binary_property i (toString dataPropertyNameDownload) prepared ;;
  ret Continue.

(** Lines 479-525; [additionalFields] is declared outside the loop and read
    again after it (line 539). *)
Definition message_getAll_try (i : nat) : M Signal :=
  let returnAll := getNodeParameter env "returnAll" i in
  let additionalFields := getNodeParameter env "additionalFields" i in
  when_ (truthy (field additionalFields "fields"))
    (set_qs "$select" (field additionalFields "fields")) ;;
  when_ (truthy (field additionalFields "filter"))
    (set_qs "$filter" (field additionalFields "filter")) ;;
  let endpoint := "/messages" in
  let! responseData :=
    list_request i returnAll
      (fun qs => microsoftApiRequestAllItems "value" "GET" endpoint JUndefined (JObj qs))
      (fun qs => microsoftApiRequest "GET" endpoint JUndefined (JObj qs) JUndefined) in
  (if truthy (field additionalFields "dataPropertyAttachmentsPrefixName") then
     let prefix := toString (field additionalFields "dataPropertyAttachmentsPrefixName") in
     let! data := downloadAttachments responseData prefix in
     let executionData := constructExecutionMetaData (returnJsonArray_items data) i in
     push executionData
   else
     let executionData := constructExecutionMetaData (returnJsonArray responseData) i in
     push executionData) ;;
  ret Continue.

(** Lines 547-563. *)
Definition message_move_try (i : nat) : M Signal :=
  let messageId := getNodeParameter env "messageId" i in
  let destinationId := getNodeParameter env "folderId" i in
  let body := obj [("destinationId", destinationId)] in
  let! responseData :=
    microsoftApiRequest "POST" ("/messages/" +:+ toString messageId +:+ "/move")
      body JUndefined JUndefined in
  let executionData := constructExecutionMetaData (returnJsonArray success_json) i in
  push executionData ;;
  ret Continue.

(** Lines 581-622. *)
Definition message_send_try (i : nat) : M Signal :=
  let additionalFields := asObject (getNodeParameter env "additionalFields" i) in
  let toRecipients := getNodeParameter env "toRecipients" i in
  let subject := getNodeParameter env "subject" i in
  let bodyContent := getNodeParameter env "bodyContent" i in
  let additionalFields := <["subject" := subject]> additionalFields in
  let additionalFields :=
    <["bodyContent" := or_else bodyContent (JStr " ")]> additionalFields in
  let additionalFields := <["toRecipients" := toRecipients]> additionalFields in
  let saveToSentItems :=
    if is_undefined (field (JObj additionalFields) "saveToSentItems")
    then JBool true
    else field (JObj additionalFields) "saveToSentItems" in
  let additionalFields := delete "saveToSentItems" additionalFields in
  let message := createMessage env additionalFields in
  let! message :=
    if truthy (field (JObj additionalFields) "attachments") then
      let attachments := field (field (JObj additionalFields) "attachments") "attachments" in
      let! items := get_items in
      let! converted := lift_result (binaryToAttachments env attachments items i) in
      ret (<["attachments" := JArr converted]> message)
    else ret message in
  let body := obj [("message", JObj message); ("saveToSentItems", saveToSentItems)] in
  let! responseData :=
    microsoftApiRequest "POST" "/sendMail" body (JObj ∅) JUndefined in
  let executionData := constructExecutionMetaData (returnJsonArray success_json) i in
  push executionData ;;
  ret Continue.

(** *** Resource messageAttachment *)

(** The chunk loop of lines 701-721:
    [for (let bytesUploaded = 0; bytesUploaded < dataBuffer.length;
          bytesUploaded += chunkSize)].
    [fuel] bounds the number of iterations; [upload_fuel] below is always
    enough (see [upload_chunks_fuel_irrelevant]). *)
Fixpoint upload_chunks (fuel : nat) (uploadUrl : JsonValue)
    (dataBuffer : list Byte.byte) (chunkSize bytesUploaded : Z) : M unit :=
  match fuel with
  | O => ret tt
  | S fuel' =>
      if bytesUploaded <? buffer_length dataBuffer then
        let nextChunk :=
          Math_min (bytesUploaded + chunkSize) (buffer_length dataBuffer) in
        let contentRange :=
          "bytes " +:+ pretty bytesUploaded +:+ "-" +:+ pretty (nextChunk - 1)
          +:+ "/" +:+ pretty (buffer_length dataBuffer) in
        let data := subarray dataBuffer bytesUploaded nextChunk in
        let! responseData :=
          helpers_request uploadUrl
            (obj [("method", JStr "PUT");
                  ("headers",
                   obj [("Content-Type", JStr "application/octet-stream");
                        ("Content-Length", JNum (buffer_length data));
                        ("Content-Range", JStr contentRange)]);
                  ("body", JBuffer data)]) in
        upload_chunks fuel' uploadUrl dataBuffer chunkSize (bytesUploaded + chunkSize)
      else ret tt
  end.

Definition upload_fuel (dataBuffer : list Byte.byte) (chunkSize : Z) : nat :=
  S (Z.to_nat (buffer_length dataBuffer / chunkSize)).

(** Lines 642-741.  The binary property name is read at item index 0
    (line 643). *)
Definition messageAttachment_add_try (i : nat) : M Signal :=
  let messageId := getNodeParameter env "messageId" i in
  let binaryPropertyName := toString (getNodeParameter env "binaryPropertyName" 0) in
  let additionalFields := getNodeParameter env "additionalFields" i in
  let! item := get_item i in
  match binary item with
  | None => throw (NodeOperationError "No binary data exists on item!" None)
  | Some item_binary =>
      match item_binary !! binaryPropertyName with
      | None =>
          throw (NodeOperationError
                   ("Item has no binary property called " +:+ dquote
                    +:+ binaryPropertyName +:+ dquote)
                   (Some i))
      | Some binaryData =>
          let! dataBuffer := getBinaryDataBuffer i binaryPropertyName in
          let fileName :=
            if is_undefined (field additionalFields "fileName")
            then of_option_string (fileName binaryData)
            else field additionalFields "fileName" in
          if negb (truthy fileName) then
            throw (NodeOperationError
                     ("File name is not set. It has either to be set via " +:+ dquote
                      +:+ "Additional Fields" +:+ dquote
                      +:+ " or has to be set on the binary property!")
                     (Some i))
          else
            (if 3000000 <? buffer_length dataBuffer then
               let chunkSize := 4000000 in
               let body :=
                 obj [("AttachmentItem",
                       obj [("attachmentType", JStr "file");
                            ("name", fileName);
                            ("size", JNum (buffer_length dataBuffer))])] in
               let! responseData :=
                 microsoftApiRequest "POST"
                   ("/messages/" +:+ toString messageId
                    +:+ "/attachments/createUploadSession")
                   body JUndefined JUndefined in
               let! uploadUrl := prop responseData "uploadUrl" in
               if is_undefined uploadUrl then
                 throw (NodeApiError responseData "Failed to get upload session")
               else
                 upload_chunks (upload_fuel dataBuffer chunkSize) uploadUrl
                   dataBuffer chunkSize 0
             else
               let body :=
                 obj [("@odata.type", JStr "#microsoft.graph.fileAttachment");
                      ("name", fileName);
                      ("contentBytes", JStr (toBase64 env dataBuffer))] in
               microsoftApiRequest "POST"
                 ("/messages/" +:+ toString messageId +:+ "/attachments")
                 body (JObj ∅) JUndefined ;;
               ret tt) ;;
            let executionData :=
              constructExecutionMetaData (returnJsonArray success_json) i in
            push executionData ;;
            ret Continue
      end
  end.

(** Lines 759-807. *)
Definition messageAttachment_download_try (i : nat) : M Signal :=
  let messageId := getNodeParameter env "messageId" i in
  let attachmentId := getNodeParameter env "attachmentId" i in
  let dataPropertyNameDownload := getNodeParameter env "binaryPropertyName" i in
  let! attachmentDetails :=
    microsoftApiRequest "GET"
      ("/messages/" +:+ toString messageId +:+ "/attachments/" +:+ toString attachmentId)
      JUndefined (obj [("$select", JStr "id,name,contentType")]) JUndefined in
  let! contentType := prop attachmentDetails "contentType" in
  let mimeType := if truthy contentType then Some (toString contentType) else None in
  let! fileName := prop attachmentDetails "name" in
  let! response :=
    microsoftApiRequest "GET"
      ("/messages/" +:+ toString messageId +:+ "/attachments/"
       +:+ toString attachmentId +:+ "/$value")
      JUndefined (JObj ∅) raw_response_option in
  let! item := get_item i in
  let newItem := copy_item item in
  set_item i newItem ;;
  let! body := prop response "body" in
  let! data := Buffer_from body in
  let! prepared :=
    prepareBinaryData data
      (if is_undefined fileName then None else Some (toString fileName))
      mimeType in
  set_binary_property i (toString dataPropertyNameDownload) prepared ;;
  ret Continue.

Definition default_attachment_select : JsonValue :=
  JStr "id,lastModifiedDateTime,name,contentType,size,isInline".

(** Lines 821-842. *)
Definition messageAttachment_get_try (i : nat) : M Signal :=
  let messageId := getNodeParameter env "messageId" i in
  let attachmentId := getNodeParameter env "attachmentId" i in
  let additionalFields := getNodeParameter env "additionalFields" i in
  set_qs "$select" default_attachment_select ;;
  when_ (truthy (field additionalFields "fields"))
    (set_qs "$select" (field additionalFields "fields")) ;;
  let! qs := get_qs in
  let! responseData :=
    microsoftApiRequest "GET"
      ("/messages/" +:+ toString messageId +:+ "/attachments/" +:+ toString attachmentId)
      JUndefined (JObj qs) JUndefined in
  let executionData := constructExecutionMetaData (returnJsonArray responseData) i in
  push executionData ;;
  ret Continue.

(** Lines 860-893. *)
Definition messageAttachment_getAll_try (i : nat) : M Signal :=
  let messageId := getNodeParameter env "messageId" i in
  let returnAll := getNodeParameter env "returnAll" i in
  let additionalFields := getNodeParameter env "additionalFields" i in
  set_qs "$select" default_attachment_select ;;
  when_ (truthy (field additionalFields "fields"))
    (set_qs "$select" (field additionalFields "fields")) ;;
  when_ (truthy (field additionalFields "filter"))
    (set_qs "$filter" (field additionalFields "filter")) ;;
  let endpoint := "/messages/" +:+ toString messageId +:+ "/attachments" in
  let! responseData :=
    list_request i returnAll
      (fun qs => microsoftApiRequestAllItems "value" "GET" endpoint JUndefined (JObj qs))
      (fun qs => microsoftApiRequest "GET" endpoint JUndefined (JObj qs) JUndefined) in
  let executionData := constructExecutionMetaData (returnJsonArray responseData) i in
  push executionData ;;
  ret Continue.

(** *** Resource folder *)

(** Lines 913-939. *)
Definition folder_create_try (i : nat) : M Signal :=
  let displayName := getNodeParameter env "displayName" i in
  let folderType := getNodeParameter env "folderType" i in
  let body : gmap string JsonValue := {[ "displayName" := displayName ]} in
  let '(endpoint, body) :=
    if strict_eq folderType "searchFolder" then
      let includeNestedFolders := getNodeParameter env "includeNestedFolders" i in
      let sourceFolderIds := getNodeParameter env "sourceFolderIds" i in
      let filterQuery := getNodeParameter env "filterQuery" i in
      ("/mailFolders/searchfolders/childFolders",
       list_to_map
         [("@odata.type", JStr "microsoft.graph.mailSearchFolder");
          ("includeNestedFolders", includeNestedFolders);
          ("sourceFolderIds", sourceFolderIds);
          ("filterQuery", filterQuery)] ∪ body)
    else ("/mailFolders", body) in
  let! responseData :=
    microsoftApiRequest "POST" endpoint (JObj body) JUndefined JUndefined in
  let executionData := constructExecutionMetaData (returnJsonArray responseData) i in
  push executionData ;;
  ret Continue.

(** Lines 957-967. *)
Definition folder_delete_try (i : nat) : M Signal :=
  let folderId := getNodeParameter env "folderId" i in
  let! responseData :=
    microsoftApiRequest "DELETE" ("/mailFolders/" +:+ toString folderId)
      JUndefined JUndefined JUndefined in
  let executionData := constructExecutionMetaData (returnJsonArray success_json) i in
  push executionData ;;
  ret Continue.

(** Lines 985-1006. *)
Definition folder_get_try (i : nat) : M Signal :=
  let folderId := getNodeParameter env "folderId" i in
  let additionalFields := getNodeParameter env "additionalFields" i in
  when_ (truthy (field additionalFields "fields"))
    (set_qs "$select" (field additionalFields "fields")) ;;
  when_ (truthy (field additionalFields "filter"))
    (set_qs "$filter" (field additionalFields "filter")) ;;
  let! qs := get_qs in
  let! responseData :=
    microsoftApiRequest "GET" ("/mailFolders/" +:+ toString folderId)
      (JObj ∅) (JObj qs) JUndefined in
  let executionData := constructExecutionMetaData (returnJsonArray responseData) i in
  push executionData ;;
  ret Continue.

(** Lines 1024-1053. *)
Definition folder_getAll_try (i : nat) : M Signal :=
  let returnAll := getNodeParameter env "returnAll" i in
  let additionalFields := getNodeParameter env "additionalFields" i in
  when_ (truthy (field additionalFields "fields"))
    (set_qs "$select" (field additionalFields "fields")) ;;
  when_ (truthy (field additionalFields "filter"))
    (set_qs "$filter" (field additionalFields "filter")) ;;
  let! responseData :=
    list_request i returnAll
      (fun qs => microsoftApiRequestAllItems "value" "GET" "/mailFolders" (JObj ∅) (JObj qs))
      (fun qs => microsoftApiRequest "GET" "/mailFolders" (JObj ∅) (JObj qs) JUndefined) in
  let executionData := constructExecutionMetaData (returnJsonArray responseData) i in
  push executionData ;;
  ret Continue.

(** Lines 1071-1106; with [returnAll] the query object is passed in the
    body position (line 1089). *)
Definition folder_getChildren_try (i : nat) : M Signal :=
  let folderId := getNodeParameter env "folderId" i in
  let returnAll := getNodeParameter env "returnAll" i in
  let additionalFields := getNodeParameter env "additionalFields" i in
  when_ (truthy (field additionalFields "fields"))
    (set_qs "$select" (field additionalFields "fields")) ;;
  when_ (truthy (field additionalFields "filter"))
    (set_qs "$filter" (field additionalFields "filter")) ;;
  let endpoint := "/mailFolders/" +:+ toString folderId +:+ "/childFolders" in
  let! responseData :=
    list_request i returnAll
      (fun qs => microsoftApiRequestAllItems "value" "GET" endpoint (JObj qs) JUndefined)
      (fun qs => microsoftApiRequest "GET" endpoint JUndefined (JObj qs) JUndefined) in
  let executionData := constructExecutionMetaData (returnJsonArray responseData) i in
  push executionData ;;
  ret Continue.

(** Lines 1124-1141. *)
Definition folder_update_try (i : nat) : M Signal :=
  let folderId := getNodeParameter env "folderId" i in
  let updateFields := getNodeParameter env "updateFields" i in
  let body := asObject updateFields in
  let! responseData :=
    microsoftApiRequest "PATCH" ("/mailFolders/" +:+ toString folderId)
      (JObj body) JUndefined JUndefined in
  let executionData := constructExecutionMetaData (returnJsonArray responseData) i in
  push executionData ;;
  ret Continue.

(** *** Resource folderMessage *)

(** Lines 1160-1192: here the test on [operation] is inside the [try]. *)
Definition folderMessage_try (operation : JsonValue) (i : nat) : M Signal :=
  if strict_eq operation "getAll" then
    let folderId := getNodeParameter env "folderId" i in
    let returnAll := getNodeParameter env "returnAll" i in
    let additionalFields := getNodeParameter env "additionalFields" i in
    when_ (truthy (field additionalFields "fields"))
      (set_qs "$select" (field additionalFields "fields")) ;;
    when_ (truthy (field additionalFields "filter"))
      (set_qs "$filter" (field additionalFields "filter")) ;;
    let endpoint := "/mailFolders/" +:+ toString folderId +:+ "/messages" in
    let! responseData :=
      list_request i returnAll
        (fun qs => microsoftApiRequestAllItems "value" "GET" endpoint (JObj qs) JUndefined)
        (fun qs => microsoftApiRequest "GET" endpoint JUndefined (JObj qs) JUndefined) in
    let executionData := constructExecutionMetaData (returnJsonArray responseData) i in
    push executionData ;;
    ret Continue
  else ret Continue.

(** *** The dispatcher *)

(** The value of [additionalFields] after the loop of [message.getAll]: the
    variable starts as [{}] (line 476) and every iteration assigns it before
    anything can throw (line 480). *)
Definition getAll_additionalFields (length : nat) : JsonValue :=
  match length with
  | O => JObj ∅
  | S last => getNodeParameter env "additionalFields" last
  end.

(** Lines 140-1205: the cascade of [if] blocks.  [Return] is one of the two
    [return [returnData]] statements. *)
Definition execute_blocks (length : nat) : M Signal :=
  let resource := getNodeParameter env "resource" 0 in
  let operation := getNodeParameter env "operation" 0 in
  if_block (includes ["draft"; "message"] resource)
    (if_block (strict_eq operation "delete")
       (for_loop (fun i => try_catch (message_delete_try i) (catch_push i)) 0 length) ;;;
     if_block (strict_eq operation "get")
       (for_loop (fun i => try_catch (message_get_try i) (catch_push i)) 0 length) ;;;
     if_block (strict_eq operation "update")
       (for_loop (fun i => try_catch (message_update_try i) (catch_push i)) 0 length)) ;;;
  if_block (strict_eq resource "draft")
    (if_block (strict_eq operation "create")
       (for_loop (fun i => try_catch (draft_create_try i) (catch_push i)) 0 length) ;;;
     if_block (strict_eq operation "send")
       (for_loop (fun i => try_catch (draft_send_try i) (catch_push i)) 0 length)) ;;;
  if_block (strict_eq resource "message")
    (if_block (strict_eq operation "reply")
       (for_loop (fun i => try_catch (message_reply_try i) (catch_push i)) 0 length) ;;;
     if_block (strict_eq operation "getMime")
       (for_loop (fun i => try_catch (message_getMime_try i) (catch_overwrite i)) 0 length) ;;;
     if_block (strict_eq operation "getAll")
       (for_loop (fun i => try_catch (message_getAll_try i) (catch_push i)) 0 length ;;;
        if truthy (field (getAll_additionalFields length)
                     "dataPropertyAttachmentsPrefixName")
        then
          let! returnData := get_returnData in
          ret (Return [returnData])
        else ret Continue) ;;;
     if_block (strict_eq operation "move")
       (for_loop (fun i => try_catch (message_move_try i) (catch_push i)) 0 length) ;;;
     if_block (strict_eq operation "send")
       (for_loop (fun i => try_catch (message_send_try i) (catch_push i)) 0 length)) ;;;
  if_block (strict_eq resource "messageAttachment")
    (if_block (strict_eq operation "add")
       (for_loop (fun i => try_catch (messageAttachment_add_try i) (catch_push i)) 0 length) ;;;
     if_block (strict_eq operation "download")
       (for_loop (fun i => try_catch (messageAttachment_download_try i) (catch_overwrite i))
          0 length) ;;;
     if_block (strict_eq operation "get")
       (for_loop (fun i => try_catch (messageAttachment_get_try i) (catch_push i)) 0 length) ;;;
     if_block (strict_eq operation "getAll")
       (for_loop (fun i => try_catch (messageAttachment_getAll_try i) (catch_push i))
          0 length)) ;;;
  if_block (strict_eq resource "folder")
    (if_block (strict_eq operation "create")
       (for_loop (fun i => try_catch (folder_create_try i) (catch_push i)) 0 length) ;;;
     if_block (strict_eq operation "delete")
       (for_loop (fun i => try_catch (folder_delete_try i) (catch_push i)) 0 length) ;;;
     if_block (strict_eq operation "get")
       (for_loop (fun i => try_catch (folder_get_try i) (catch_push i)) 0 length) ;;;
     if_block (strict_eq operation "getAll")
       (for_loop (fun i => try_catch (folder_getAll_try i) (catch_push i)) 0 length) ;;;
     if_block (strict_eq operation "getChildren")
       (for_loop (fun i => try_catch (folder_getChildren_try i) (catch_push i)) 0 length) ;;;
     if_block (strict_eq operation "update")
       (for_loop (fun i => try_catch (folder_update_try i) (catch_push i)) 0 length)) ;;;
  if_block (strict_eq resource "folderMessage")
    (for_loop (fun i => try_catch (folderMessage_try operation i) (catch_push i)) 0 length).

(** Lines 1207-1214: which sequence is handed back. *)
Definition returns_items (resource operation : JsonValue) : bool :=
  (strict_eq resource "message" && strict_eq operation "getMime")
  || (strict_eq resource "messageAttachment" && strict_eq operation "download").

Definition execute_statements (length : nat) : M Output :=
  let resource := getNodeParameter env "resource" 0 in
  let operation := getNodeParameter env "operation" 0 in
  let! r := execute_blocks length in
  match r with
  | Return out => ret out
  | Continue =>
      if returns_items resource operation then
        let! items := get_items in
        ret (prepareOutputData items)
      else
        let! returnData := get_returnData in
        ret (prepareOutputData returnData)
  end.

(** [execute]: lines 133-1215, from the input items ([this.getInputData()]),
    an empty [returnData] and an empty [qs]. *)
Definition initial_state (input : list INodeExecutionData) : State :=
  {| items := input; returnData := []; qs := ∅; calls := []; replaced := ∅ |}.

Definition execute (input : list INodeExecutionData) : Completion Output * State :=
  execute_statements (length input) (initial_state input).

End Execute.

(** * Vocabulary of the properties *)

(** The record made by the [catch] block of an accumulating operation, and
    the one made for [{ success: true }]. *)
Definition error_record (i : nat) (e : Error) : INodeExecutionData :=
  {| json := error_json e; binary := None; pairedItem := Some i |}.

Definition success_record (i : nat) : INodeExecutionData :=
  {| json := success_json; binary := None; pairedItem := Some i |}.

Definition push_state (b : list INodeExecutionData) (s : State) : State :=
  {| items := items s; returnData := returnData s ++ b; qs := qs s; calls := calls s;
     replaced := replaced s |}.

Definition call_state (c : list Call) (s : State) : State :=
  {| items := items s; returnData := returnData s; qs := qs s; calls := calls s ++ c;
     replaced := replaced s |}.

(** The name under which every item's attachment is looked up (line 643). *)
Definition attachment_property (env : Env) : string :=
  toString (getNodeParameter env "binaryPropertyName" 0).

(** The file name of lines 661-664. *)
Definition attachment_fileName (env : Env) (i : nat) (binaryData : IBinaryData)
  : JsonValue :=
  let additionalFields := getNodeParameter env "additionalFields" i in
  if is_undefined (field additionalFields "fileName")
  then of_option_string (fileName binaryData)
  else field additionalFields "fileName".

(** The three calls of the transfer paths, as the code builds them. *)
Definition session_call (env : Env) (i : nat) (fileName : JsonValue) (size : Z) : Call :=
  ApiRequest "POST"
    ("/messages/" +:+ toString (getNodeParameter env "messageId" i)
     +:+ "/attachments/createUploadSession")
    (obj [("AttachmentItem",
           obj [("attachmentType", JStr "file");
                ("name", fileName);
                ("size", JNum size)])])
    JUndefined JUndefined.

Definition small_call (env : Env) (i : nat) (fileName : JsonValue)
    (dataBuffer : list Byte.byte) : Call :=
  ApiRequest "POST"
    ("/messages/" +:+ toString (getNodeParameter env "messageId" i) +:+ "/attachments")
    (obj [("@odata.type", JStr "#microsoft.graph.fileAttachment");
          ("name", fileName);
          ("contentBytes", JStr (toBase64 env dataBuffer))])
    (JObj ∅) JUndefined.

(** The [Content-Range] header of the chunk [start .. end_ - 1]. *)
Definition content_range (start end_ total : Z) : string :=
  "bytes " +:+ pretty start +:+ "-" +:+ pretty (end_ - 1) +:+ "/" +:+ pretty total.

Definition put_call (uploadUrl : JsonValue) (dataBuffer : list Byte.byte)
    (start end_ : Z) : Call :=
  HelpersRequest uploadUrl
    (obj [("method", JStr "PUT");
          ("headers",
           obj [("Content-Type", JStr "application/octet-stream");
                ("Content-Length", JNum (buffer_length (subarray dataBuffer start end_)));
                ("Content-Range",
                 JStr (content_range start end_ (buffer_length dataBuffer)))]);
          ("body", JBuffer (subarray dataBuffer start end_))]).

(** Lines 674-736, for an item that passed validation. *)
Definition attachment_transfer (env : Env) (i : nat) (fileName : JsonValue)
    (dataBuffer : list Byte.byte) : M unit :=
  if 3000000 <? buffer_length dataBuffer then
    let! responseData := perform env (session_call env i fileName (buffer_length dataBuffer)) in
    let! uploadUrl := prop responseData "uploadUrl" in
    if is_undefined uploadUrl then
      throw (NodeApiError responseData "Failed to get upload session")
    else upload_chunks env (upload_fuel dataBuffer 4000000) uploadUrl dataBuffer 4000000 0
  else
    perform env (small_call env i fileName dataBuffer) ;;
    ret tt.

(** Why an item is refused before any transfer (lines 646-672). *)
Inductive invalid_attachment (env : Env) (i : nat) (x : INodeExecutionData) : Prop :=
| no_binary_data :
    binary x = None -> invalid_attachment env i x
| no_binary_property b :
    binary x = Some b -> b !! attachment_property env = None ->
    invalid_attachment env i x
| no_file_name b bd :
    binary x = Some b -> b !! attachment_property env = Some bd ->
    truthy (attachment_fileName env i bd) = false ->
    invalid_attachment env i x.

(** An item that passes validation: its bytes and file name. *)
Definition valid_attachment (env : Env) (i : nat) (x : INodeExecutionData)
    (bd : IBinaryData) : Prop :=
  exists b, binary x = Some b /\ b !! attachment_property env = Some bd /\
            truthy (attachment_fileName env i bd) = true.

(** Chunk [k] of a buffer cut every [chunkSize] bytes covers the bytes
    [chunk_start k .. chunk_end total k - 1]. *)
Definition chunk_start (chunkSize : Z) (k : nat) : Z := chunkSize * Z.of_nat k.

Definition chunk_end (chunkSize total : Z) (k : nat) : Z :=
  Z.min (chunkSize * (Z.of_nat k + 1)) total.

(** The number of chunks: [total / chunkSize], rounded up. *)
Definition chunk_count (chunkSize total : Z) : nat :=
  Z.to_nat ((total + chunkSize - 1) / chunkSize).

Definition chunk_bytes (chunkSize : Z) (dataBuffer : list Byte.byte) (k : nat)
  : list Byte.byte :=
  subarray dataBuffer (chunk_start chunkSize k)
    (chunk_end chunkSize (buffer_length dataBuffer) k).

Definition chunk_put (chunkSize : Z) (uploadUrl : JsonValue)
    (dataBuffer : list Byte.byte) (k : nat) : Call :=
  put_call uploadUrl dataBuffer (chunk_start chunkSize k)
    (chunk_end chunkSize (buffer_length dataBuffer) k).

(** ** The dispatcher, seen per item *)

(** The [try] block that the cascade of lines 143-1205 runs for item [i],
    the [catch] block that guards it, and what follows the loop (the
    [return] of line 539).  [execute_blocks_loop] below shows that
    [execute_blocks] is exactly one loop over [item_body]. *)
Definition operation_try (env : Env) : nat -> M Signal :=
  let resource := getNodeParameter env "resource" 0 in
  let operation := getNodeParameter env "operation" 0 in
  if includes ["draft"; "message"] resource && strict_eq operation "delete"
  then message_delete_try env
  else if includes ["draft"; "message"] resource && strict_eq operation "get"
  then message_get_try env
  else if includes ["draft"; "message"] resource && strict_eq operation "update"
  then message_update_try env
  else if strict_eq resource "draft" && strict_eq operation "create"
  then draft_create_try env
  else if strict_eq resource "draft" && strict_eq operation "send"
  then draft_send_try env
  else if strict_eq resource "message" && strict_eq operation "reply"
  then message_reply_try env
  else if strict_eq resource "message" && strict_eq operation "getMime"
  then message_getMime_try env
  else if strict_eq resource "message" && strict_eq operation "getAll"
  then message_getAll_try env
  else if strict_eq resource "message" && strict_eq operation "move"
  then message_move_try env
  else if strict_eq resource "message" && strict_eq operation "send"
  then message_send_try env
  else if strict_eq resource "messageAttachment" && strict_eq operation "add"
  then messageAttachment_add_try env
  else if strict_eq resource "messageAttachment" && strict_eq operation "download"
  then messageAttachment_download_try env
  else if strict_eq resource "messageAttachment" && strict_eq operation "get"
  then messageAttachment_get_try env
  else if strict_eq resource "messageAttachment" && strict_eq operation "getAll"
  then messageAttachment_getAll_try env
  else if strict_eq resource "folder" && strict_eq operation "create"
  then folder_create_try env
  else if strict_eq resource "folder" && strict_eq operation "delete"
  then folder_delete_try env
  else if strict_eq resource "folder" && strict_eq operation "get"
  then folder_get_try env
  else if strict_eq resource "folder" && strict_eq operation "getAll"
  then folder_getAll_try env
  else if strict_eq resource "folder" && strict_eq operation "getChildren"
  then folder_getChildren_try env
  else if strict_eq resource "folder" && strict_eq operation "update"
  then folder_update_try env
  else if strict_eq resource "folderMessage"
  then folderMessage_try env operation
  else fun _ => ret Continue.

Definition operation_catch (env : Env) : nat -> Error -> M Signal :=
  if returns_items (getNodeParameter env "resource" 0)
       (getNodeParameter env "operation" 0)
  then catch_overwrite env
  else catch_push env.

Definition item_body (env : Env) (i : nat) : M Signal :=
  try_catch (operation_try env i) (operation_catch env i).

Definition after_loop (env : Env) (length : nat) : M Signal :=
  if strict_eq (getNodeParameter env "resource" 0) "message"
     && strict_eq (getNodeParameter env "operation" 0) "getAll"
     && truthy (field (getAll_additionalFields env length)
                  "dataPropertyAttachmentsPrefixName")
  then
    let! returnData := get_returnData in
    ret (Return [returnData])
  else ret Continue.

(** The string behind a value, if it is one. *)
Definition str_of (v : JsonValue) : option string :=
  match v with
  | JStr s => Some s
  | _ => None
  end.

(** ** Records and their origin *)

(** Record [r] carries origin item index [i]. *)
Definition origin (i : nat) (r : INodeExecutionData) : Prop :=
  pairedItem r = Some i.

(** The output holds one record per input item, the record at position [i]
    carrying origin index [i]. *)
Definition one_record_per_item (input : list INodeExecutionData) (out : Output)
  : Prop :=
  exists records,
    out = [records] /\
    length records = length input /\
    forall i, (i < length input)%nat ->
              exists r, records !! i = Some r /\ origin i r.

(** The operations whose [try] block ends with
    [returnJsonArray({ success: true })]. *)
Definition single_record_operation (resource operation : JsonValue) : bool :=
  (includes ["draft"; "message"] resource && strict_eq operation "delete")
  || (strict_eq resource "draft" && strict_eq operation "send")
  || (strict_eq resource "message" && strict_eq operation "move")
  || (strict_eq resource "message" && strict_eq operation "send")
  || (strict_eq resource "messageAttachment" && strict_eq operation "add")
  || (strict_eq resource "folder" && strict_eq operation "delete").

(** Item [i] of a [get] on a draft or message asks for the attachments to be
    downloaded: the item after which lines 210-212 return. *)
Definition get_with_prefix (env : Env) (i : nat) : bool :=
  includes ["draft"; "message"] (getNodeParameter env "resource" 0)
  && strict_eq (getNodeParameter env "operation" 0) "get"
  && truthy (field (getNodeParameter env "additionalFields" i)
               "dataPropertyAttachmentsPrefixName").

(** The block of records a successful item may contribute. *)
Definition block_ok (env : Env) (i : nat) (b : list INodeExecutionData) : Prop :=
  Forall (origin i) b /\
  (single_record_operation (getNodeParameter env "resource" 0)
     (getNodeParameter env "operation" 0) = true ->
   b = [success_record i]).

(** A statement that leaves the accumulator alone. *)
Definition silent {A} (m : M A) : Prop :=
  forall s, returnData (snd (m s)) = returnData s.

(** A [try] block that pushes one block of records as its last effect:
    nothing is pushed when it throws, and it returns early only if allowed. *)
Definition pushes_at_end (allow_return : bool)
    (Q : list INodeExecutionData -> Prop) (m : M Signal) : Prop :=
  forall s,
    match m s with
    | (Normal Continue, s') =>
        exists b, returnData s' = returnData s ++ b /\ Q b
    | (Normal (Return out), s') =>
        allow_return = true /\
        exists b, returnData s' = returnData s ++ b /\ Q b /\ out = [returnData s']
    | (Throw _, s') => returnData s' = returnData s
    end.

(** ** Sample runs *)

(** Parameters given as a table: name, then value per item index. *)
Definition parameters (table : list (string * (nat -> JsonValue)))
    (name : string) (i : nat) : JsonValue :=
  match (list_to_map table : gmap string (nat -> JsonValue)) !! name with
  | Some value => value i
  | None => JUndefined
  end.

(** An environment whose collaborators other than the server always
    succeed, and whose input items are distinct objects. *)
Definition sample_env (table : list (string * (nat -> JsonValue))) (cof : bool)
    (answers : list Call -> Call -> Error + JsonValue) : Env :=
  {| getNodeParameter := parameters table;
     continueOnFail := cof;
     server := answers;
     downloadAttachments_result :=
       fun _ messages _ => inr [mkItem messages None None];
     binaryToAttachments := fun _ _ _ => inr [];
     createMessage := fun fields => fields;
     makeRecipient := JStr;
     binaryStore_error := fun _ => None;
     guessMimeType := fun _ _ => None;
     toBase64 := string_of_list_byte;
     inputObject := fun i => i |}.

Definition plain_item : INodeExecutionData :=
  {| json := JObj ∅; binary := None; pairedItem := None |}.

(** [message.getAll] with a limit, answered with a page of two messages. *)
Definition bulk_env : Env :=
  sample_env
    [("resource", fun _ => JStr "message");
     ("operation", fun _ => JStr "getAll");
     ("returnAll", fun _ => JBool false);
     ("limit", fun _ => JNum 10);
     ("additionalFields", fun _ => JObj ∅)]
    true
    (fun _ _ => inr (obj [("value", JArr [obj [("id", JStr "m1")];
                                          obj [("id", JStr "m2")]])])).

(** [message.get] where the first item asks for the attachments. *)
Definition prefix_env : Env :=
  sample_env
    [("resource", fun _ => JStr "message");
     ("operation", fun _ => JStr "get");
     ("messageId", fun _ => JStr "m1");
     ("additionalFields",
      fun _ => obj [("dataPropertyAttachmentsPrefixName", JStr "attachment_")])]
    true
    (fun _ _ => inr (obj [("id", JStr "m1")])).

(** [message.delete] on five items, the second request being refused. *)
Definition abort_env : Env :=
  sample_env
    [("resource", fun _ => JStr "message");
     ("operation", fun _ => JStr "delete");
     ("messageId", fun i => JStr (pretty i))]
    false
    (fun history _ =>
       if Nat.eqb (length history) 1
       then inl (ExternalError "The resource you are requesting could not be found")
       else inr JUndefined).

(** The same with continue-on-fail. *)
Definition isolate_env : Env :=
  sample_env
    [("resource", fun _ => JStr "message");
     ("operation", fun _ => JStr "delete");
     ("messageId", fun i => JStr (pretty i))]
    true
    (fun history _ =>
       if Nat.eqb (length history) 1
       then inl (ExternalError "The resource you are requesting could not be found")
       else inr JUndefined).

(** The run of [abort_env] on five items: the state before the second
    item, the error it meets and the state it leaves. *)
Definition abort_before : State :=
  snd (for_loop (item_body abort_env) 0 1 (initial_state (replicate 5 plain_item))).

Definition abort_error : Error :=
  ExternalError "The resource you are requesting could not be found".

Definition abort_state : State := snd (operation_try abort_env 1 abort_before).

(** The loop body of [messageAttachment.add]. *)
Definition add_body (env : Env) (i : nat) : M Signal :=
  try_catch (messageAttachment_add_try env i) (catch_push env i).

(** Call [c] is the [PUT] of some chunk of [dataBuffer]. *)
Definition is_chunk_put (uploadUrl : JsonValue) (dataBuffer : list Byte.byte)
    (c : Call) : Prop :=
  exists k, c = chunk_put 4000000 uploadUrl dataBuffer k.

(** [messageAttachment.add] reading the binary property [data]. *)
Definition upload_env (cof : bool) (answer : JsonValue) : Env :=
  sample_env
    [("resource", fun _ => JStr "messageAttachment");
     ("operation", fun _ => JStr "add");
     ("messageId", fun _ => JStr "m1");
     ("binaryPropertyName", fun _ => JStr "data");
     ("additionalFields", fun _ => JObj ∅)]
    cof
    (fun _ _ => inr answer).

(** A file of [size] zero bytes. *)
Definition sized_file (size : Z) : IBinaryData :=
  {| data := replicate (Z.to_nat size) Byte.x00;
     mimeType := Some "application/pdf";
     fileName := Some "report.pdf" |}.

Definition sized_item (size : Z) : INodeExecutionData :=
  {| json := JObj ∅; binary := Some {[ "data" := sized_file size ]};
     pairedItem := None |}.

Definition session_answer : JsonValue :=
  obj [("uploadUrl", JStr "https://upload.example/session")].

(** The same environment with other resolved parameters. *)
Definition with_parameters (parameters : string -> nat -> JsonValue) (env : Env)
  : Env :=
  {| getNodeParameter := parameters;
     continueOnFail := continueOnFail env;
     server := server env;
     downloadAttachments_result := downloadAttachments_result env;
     binaryToAttachments := binaryToAttachments env;
     createMessage := createMessage env;
     makeRecipient := makeRecipient env;
     binaryStore_error := binaryStore_error env;
     guessMimeType := guessMimeType env;
     toBase64 := toBase64 env;
     inputObject := inputObject env |}.

(** Two items, each with a payload under [a] and another under [b]; item 0
    names [a], item 1 names [b]. *)
Definition two_payloads (tag : string) : INodeExecutionData :=
  {| json := JObj ∅;
     binary :=
       Some (<["a" := {| data := list_byte_of_string (tag +:+ "-a");
                         mimeType := None; fileName := Some "a.txt" |}]>
               {[ "b" := {| data := list_byte_of_string (tag +:+ "-b");
                            mimeType := None; fileName := Some "b.txt" |} ]});
     pairedItem := None |}.

Definition named_env : Env :=
  sample_env
    [("resource", fun _ => JStr "messageAttachment");
     ("operation", fun _ => JStr "add");
     ("messageId", fun i => JStr (pretty i));
     ("binaryPropertyName", fun _ => JStr "a");
     ("additionalFields", fun _ => JObj ∅)]
    true
    (fun _ _ => inr JUndefined).

(** The binary property name of every item but the first replaced by
    [value]. *)
Definition rename_later_items (value : JsonValue)
    (parameters : string -> nat -> JsonValue) (name : string) (j : nat)
  : JsonValue :=
  if bool_decide (name = "binaryPropertyName") && negb (Nat.eqb j 0)
  then value
  else parameters name j.

(** ** The in-place operations *)

(** The name under which the download of item [i] is stored (lines 427 and
    761). *)
Definition download_property (env : Env) (i : nat) : string :=
  toString (getNodeParameter env "binaryPropertyName" i).

(** Lines 444-464 and 789-807, shared by [getMime] and [download]: copy the
    item, then store the prepared payload under the requested name. *)
Definition store_download (env : Env) (i : nat) (response : JsonValue)
    (filePath mime : option string) : M Signal :=
  let! item := get_item i in
  set_item i (copy_item item) ;;
  let! body := prop response "body" in
  let! data := Buffer_from body in
  let! prepared := prepareBinaryData env data filePath mime in
  set_binary_property env i (download_property env i) prepared ;;
  ret Continue.

Definition with_items (l : list INodeExecutionData) (s : State) : State :=
  {| items := l; returnData := returnData s; qs := qs s; calls := calls s;
     replaced := replaced s |}.

(** The state after [items[i] = y] for a new item [y]. *)
Definition with_new_item (i : nat) (y : INodeExecutionData) (s : State) : State :=
  {| items := <[i := y]> (items s); returnData := returnData s; qs := qs s;
     calls := calls s; replaced := {[i]} ∪ replaced s |}.



(** What [prepareBinaryData] builds when the store accepts the bytes. *)
Definition prepared_payload (env : Env) (bytes : list Byte.byte)
    (filePath mime : option string) : IBinaryData :=
  {| data := bytes;
     mimeType := match mime with
                 | Some m => Some m
                 | None => guessMimeType env bytes filePath
                 end;
     fileName := filePath |}.

(** Item [x] with [payload] added under [name] to a copy of its binary
    map. *)
Definition enriched_item (x : INodeExecutionData) (name : string)
    (payload : IBinaryData) : INodeExecutionData :=
  {| json := json x;
     binary := Some (<[name := payload]> (default ∅ (binary x)));
     pairedItem := None |}.


(** The request of [message.getMime] for item [i]. *)
Definition getMime_call (env : Env) (i : nat) : Call :=
  ApiRequest "GET"
    ("/messages/" +:+ toString (getNodeParameter env "messageId" i) +:+ "/$value")
    JUndefined (JObj ∅) raw_response_option.

(** A [try] block of an in-place operation, started on input item [x]: on
    success item [i] is [x] enriched; on failure item [i] is [x] or its
    copy; the accumulator and the other items are left alone. *)
Definition enriches (env : Env) (i : nat) (x : INodeExecutionData) (m : M Signal)
  : Prop :=
  forall s,
    items s !! i = Some x ->
    match m s with
    | (Normal Continue, s') =>
        returnData s' = returnData s /\
        exists payload,
          items s' = <[i := enriched_item x (download_property env i) payload]> (items s)
    | (Normal (Return _), _) => False
    | (Throw _, s') =>
        returnData s' = returnData s /\
        (items s' = items s \/ items s' = <[i := copy_item x]> (items s))
    end.

(** A statement that changes neither the items nor the accumulator. *)
Definition quiet {A} (m : M A) : Prop :=
  forall s, items (snd (m s)) = items s /\ returnData (snd (m s)) = returnData s.

(** Every binary field of [x] is still in [y], unchanged. *)
Definition binary_fields_kept (x y : INodeExecutionData) : Prop :=
  forall k v,
    default ∅ (binary x) !! k = Some v -> default ∅ (binary y) !! k = Some v.

(** A raw answer: headers and body. *)
Definition raw_answer (contentType : string) (body : string) : JsonValue :=
  obj [("headers", obj [("content-type", JStr contentType)]);
       ("body", JBuffer (list_byte_of_string body))].

(** [message.getMime] storing under [data]; the first request fails when
    [first_fails] is set. *)
Definition mime_env (cof first_fails : bool) : Env :=
  sample_env
    [("resource", fun _ => JStr "message");
     ("operation", fun _ => JStr "getMime");
     ("messageId", fun i => JStr ("m" +:+ pretty i));
     ("binaryPropertyName", fun _ => JStr "data")]
    cof
    (fun history _ =>
       if first_fails && Nat.eqb (length history) 0
       then inl (ExternalError "Service unavailable")
       else inr (raw_answer "message/rfc822" "From: someone")).

Definition text_payload (name content : string) : IBinaryData :=
  {| data := list_byte_of_string content;
     mimeType := Some "text/plain";
     fileName := Some name |}.

(** An item with a binary field [invoice], and one with a field [data]. *)
Definition invoice_item : INodeExecutionData :=
  {| json := obj [("id", JNum 7)];
     binary := Some {[ "invoice" := text_payload "invoice.txt" "42 EUR" ]};
     pairedItem := None |}.

Definition data_item : INodeExecutionData :=
  {| json := obj [("id", JNum 8)];
     binary := Some {[ "data" := text_payload "old.txt" "old content" ]};
     pairedItem := None |}.

(** ** The query string *)

(** The query object a call was given. *)
Definition call_query (c : Call) : gmap string JsonValue :=
  match c with
  | ApiRequest _ _ _ (JObj q) _ => q
  | ApiRequestAllItems _ _ _ _ (JObj q) => q
  | _ => ∅
  end.

(** [message.getAll] with a limit of ten, where no item sets a projection
    or a filter. *)
Definition list_env : Env :=
  sample_env
    [("resource", fun _ => JStr "message");
     ("operation", fun _ => JStr "getAll");
     ("returnAll", fun _ => JBool false);
     ("limit", fun _ => JNum 10);
     ("additionalFields", fun _ => JObj ∅)]
    true
    (fun _ _ => inr (obj [("value", JArr [])])).

(** The additional fields of item 0 replaced by [value]. *)
Definition set_first_fields (value : JsonValue)
    (parameters : string -> nat -> JsonValue) (name : string) (j : nat)
  : JsonValue :=
  if bool_decide (name = "additionalFields") && Nat.eqb j 0
  then value
  else parameters name j.

Definition with_qs (q : gmap string JsonValue) (s : State) : State :=
  {| items := items s; returnData := returnData s; qs := q; calls := calls s;
     replaced := replaced s |}.

(** The request of [message.getAll] for one page, with query [q]. *)
Definition messages_page_call (q : gmap string JsonValue) : Call :=
  ApiRequest "GET" "/messages" JUndefined (JObj q) JUndefined.

(** ** The dispatcher as a whole *)

(** The (resource, operation) pairs for which the cascade of lines 143-1205
    does something. *)
Definition handled (resource operation : JsonValue) : bool :=
  (includes ["draft"; "message"] resource
   && includes ["delete"; "get"; "update"] operation)
  || (strict_eq resource "draft" && includes ["create"; "send"] operation)
  || (strict_eq resource "message"
      && includes ["reply"; "getMime"; "getAll"; "move"; "send"] operation)
  || (strict_eq resource "messageAttachment"
      && includes ["add"; "download"; "get"; "getAll"] operation)
  || (strict_eq resource "folder"
      && includes ["create"; "delete"; "get"; "getAll"; "getChildren"; "update"]
           operation)
  || (strict_eq resource "folderMessage" && strict_eq operation "getAll").

(** Record [r1] does not come from a later item than record [r2]. *)
Definition origin_le (r1 r2 : INodeExecutionData) : Prop :=
  forall a b, origin a r1 -> origin b r2 -> (a <= b)%nat.

(** [folder.getAll] with a limit, every page holding two folders. *)
Definition folders_env : Env :=
  sample_env
    [("resource", fun _ => JStr "folder");
     ("operation", fun _ => JStr "getAll");
     ("returnAll", fun _ => JBool false);
     ("limit", fun _ => JNum 2);
     ("additionalFields", fun _ => JObj ∅)]
    false
    (fun _ _ => inr (obj [("value", JArr [obj [("id", JStr "inbox")];
                                          obj [("id", JStr "sent")]])])).

(** ** Operations of one request per item *)

(** The requests of [delete] (line 148), [move] (lines 549-558) and the
    deletion of a folder (lines 958-962) for item [i]. *)
Definition delete_call (env : Env) (i : nat) : Call :=
  ApiRequest "DELETE" ("/messages/" +:+ toString (getNodeParameter env "messageId" i))
    JUndefined JUndefined JUndefined.

Definition move_call (env : Env) (i : nat) : Call :=
  ApiRequest "POST"
    ("/messages/" +:+ toString (getNodeParameter env "messageId" i) +:+ "/move")
    (obj [("destinationId", getNodeParameter env "folderId" i)])
    JUndefined JUndefined.

Definition folder_delete_call (env : Env) (i : nat) : Call :=
  ApiRequest "DELETE" ("/mailFolders/" +:+ toString (getNodeParameter env "folderId" i))
    JUndefined JUndefined JUndefined.

(** The record of item [i] when its one request [call i] comes after the
    requests of the items before it: success if the server accepts it, the
    marker of the server's error otherwise. *)
Definition request_record (env : Env) (call : nat -> Call) (i : nat)
  : INodeExecutionData :=
  match server env (call <$> seq 0 i) (call i) with
  | inr _ => success_record i
  | inl e => error_record i e
  end.

(** The state in which such a run ends. *)
Definition request_run (env : Env) (call : nat -> Call)
    (input : list INodeExecutionData) : State :=
  {| items := input;
     returnData := request_record env call <$> seq 0 (length input);
     qs := ∅;
     calls := call <$> seq 0 (length input);
     replaced := ∅ |}.

(** [message.delete] with continue-on-fail, the second request refused. *)
Definition delete_env : Env :=
  sample_env
    [("resource", fun _ => JStr "message");
     ("operation", fun _ => JStr "delete");
     ("messageId", fun i => JStr ("m" +:+ pretty i))]
    true
    (fun history _ =>
       if Nat.eqb (length history) 1
       then inl (ExternalError "Message not found")
       else inr JUndefined).

(** ** Uploads that are refused *)

(** An upload whose session is granted and whose chunk number [refused] is
    refused. *)
Definition refusing_upload_env (refused : nat) : Env :=
  sample_env
    [("resource", fun _ => JStr "messageAttachment");
     ("operation", fun _ => JStr "add");
     ("messageId", fun _ => JStr "m1");
     ("binaryPropertyName", fun _ => JStr "data");
     ("additionalFields", fun _ => JObj ∅)]
    true
    (fun history _ =>
       if Nat.eqb (length history) (S refused)
       then inl (ExternalError "Upload session expired")
       else inr session_answer).

(** ** The file name of an attachment *)

(** The error of lines 667-671. *)
Definition file_name_error (i : nat) : Error :=
  NodeOperationError
    ("File name is not set. It has either to be set via " +:+ dquote
     +:+ "Additional Fields" +:+ dquote
     +:+ " or has to be set on the binary property!")
    (Some i).

(** [messageAttachment.add] where the additional fields give the file name
    [name]. *)
Definition named_upload_env (name : JsonValue) : Env :=
  sample_env
    [("resource", fun _ => JStr "messageAttachment");
     ("operation", fun _ => JStr "add");
     ("messageId", fun _ => JStr "m1");
     ("binaryPropertyName", fun _ => JStr "data");
     ("additionalFields", fun _ => obj [("fileName", name)])]
    true
    (fun _ _ => inr JUndefined).

(** ** Recipients of a draft *)

(** The string contains a comma. *)
Fixpoint has_comma (s : string) : bool :=
  match s with
  | EmptyString => false
  | String c s' => Ascii.eqb c ","%char || has_comma s'
  end.

(** The two calls of [draft.send] (lines 321-323 and 327-331). *)
Definition recipients_call (env : Env) (i : nat) (addresses : list string) : Call :=
  ApiRequest "PATCH" ("/messages/" +:+ toString (getNodeParameter env "messageId" i))
    (obj [("toRecipients", JArr (makeRecipient env <$> addresses))])
    JUndefined JUndefined.

Definition send_call (env : Env) (i : nat) : Call :=
  ApiRequest "POST"
    ("/messages/" +:+ toString (getNodeParameter env "messageId" i) +:+ "/send")
    JUndefined JUndefined JUndefined.

(** [draft.send] with the given recipients string; the server refuses every
    [PATCH] when [refuse] is set. *)
Definition recipients_env (recipients : string) (refuse : bool) : Env :=
  sample_env
    [("resource", fun _ => JStr "draft");
     ("operation", fun _ => JStr "send");
     ("messageId", fun _ => JStr "m1");
     ("additionalFields", fun _ => obj [("recipients", JStr recipients)])]
    false
    (fun _ c =>
       match c with
       | ApiRequest "PATCH" _ _ _ _ =>
           if refuse then inl (ExternalError "Mailbox not found") else inr JUndefined
       | _ => inr JUndefined
       end).

(** ** The early return of [get] *)

(** The attachment prefix of item [i] (line 191). *)
Definition attachment_prefix (env : Env) (i : nat) : JsonValue :=
  field (getNodeParameter env "additionalFields" i) "dataPropertyAttachmentsPrefixName".

(** The request of lines 182-188 with query [q]. *)
Definition get_request (env : Env) (i : nat) (q : gmap string JsonValue) : Call :=
  ApiRequest "GET" ("/messages/" +:+ toString (getNodeParameter env "messageId" i))
    JUndefined (JObj q) JUndefined.

(** The calls of one item of a [get] with a prefix: the request, then, when
    it was answered, the download of the attachments. *)
Definition item_requests (env : Env) (i : nat) (group : list Call) : Prop :=
  exists q,
    group = [get_request env i q] \/
    exists response,
      group = [get_request env i q;
               DownloadAttachments response (toString (attachment_prefix env i))].

Definition error_of (i : nat) (r : INodeExecutionData) : Prop :=
  exists e, r = error_record i e.

(** [message.get] with a prefix on every item; the first request is
    refused. *)
Definition first_success_env : Env :=
  sample_env
    [("resource", fun _ => JStr "message");
     ("operation", fun _ => JStr "get");
     ("messageId", fun i => JStr ("m" +:+ pretty i));
     ("additionalFields",
      fun _ => obj [("dataPropertyAttachmentsPrefixName", JStr "attachment_")])]
    true
    (fun history _ =>
       match history with
       | [] => inl (ExternalError "Message not found")
       | _ => inr (obj [("id", JStr "m1")])
       end).

(** ** The query of [messageAttachment.get] *)

(** The fields asked for by item [i]: its own, or the default of line 825. *)
Definition attachment_select (env : Env) (i : nat) : JsonValue :=
  or_else (field (getNodeParameter env "additionalFields" i) "fields")
    default_attachment_select.

(** The request of lines 830-836 as item [i] alone determines it. *)
Definition attachment_get_call (env : Env) (i : nat) : Call :=
  ApiRequest "GET"
    ("/messages/" +:+ toString (getNodeParameter env "messageId" i)
     +:+ "/attachments/" +:+ toString (getNodeParameter env "attachmentId" i))
    JUndefined (JObj {[ "$select" := attachment_select env i ]}) JUndefined.

(** The query holds no key other than [$select]. *)
Definition select_only (q : gmap string JsonValue) : Prop :=
  forall k, k <> "$select" -> q !! k = None.

(** [messageAttachment.get] where only the first item names its fields. *)
Definition select_env : Env :=
  sample_env
    [("resource", fun _ => JStr "messageAttachment");
     ("operation", fun _ => JStr "get");
     ("messageId", fun _ => JStr "m1");
     ("attachmentId", fun i => JStr ("a" +:+ pretty i));
     ("additionalFields",
      fun i => match i with
               | O => obj [("fields", JStr "id,size")]
               | _ => JObj ∅
               end)]
    true
    (fun _ _ => inr (obj [("id", JStr "a")])).

(** ** Listing the contents of a folder *)

(** What item [i] of a list operation writes into the shared query: its
    fields and its filter, when it gives them. *)
Definition item_query (env : Env) (i : nat) (q : gmap string JsonValue)
  : gmap string JsonValue :=
  let additionalFields := getNodeParameter env "additionalFields" i in
  let q1 := if truthy (field additionalFields "fields")
            then <["$select" := field additionalFields "fields"]> q else q in
  if truthy (field additionalFields "filter")
  then <["$filter" := field additionalFields "filter"]> q1 else q1.

(** The shared query once the first [n] items have written into it. *)
Fixpoint query_after (env : Env) (n : nat) : gmap string JsonValue :=
  match n with
  | O => ∅
  | S n' => item_query env n' (query_after env n')
  end.

(** A folder's children or a folder's messages are asked for. *)
Definition folder_listing (env : Env) : Prop :=
  (getNodeParameter env "resource" 0 = JStr "folder" /\
   getNodeParameter env "operation" 0 = JStr "getChildren") \/
  (getNodeParameter env "resource" 0 = JStr "folderMessage" /\
   getNodeParameter env "operation" 0 = JStr "getAll").

Definition folder_listing_endpoint (env : Env) (i : nat) : string :=
  "/mailFolders/" +:+ toString (getNodeParameter env "folderId" i)
  +:+ (if strict_eq (getNodeParameter env "resource" 0) "folder"
       then "/childFolders" else "/messages").

(** The paginated request of lines 1084-1090 and 1175-1181: the shared
    query is handed over in the position of the request body, and no query
    is given. *)
Definition folder_listing_call (env : Env) (i : nat) : Call :=
  ApiRequestAllItems "value" "GET" (folder_listing_endpoint env i)
    (JObj (query_after env (S i))) JUndefined.

(** All children of two folders, the first item giving a filter. *)
Definition children_env : Env :=
  sample_env
    [("resource", fun _ => JStr "folder");
     ("operation", fun _ => JStr "getChildren");
     ("folderId", fun i => JStr ("f" +:+ pretty i));
     ("returnAll", fun _ => JBool true);
     ("additionalFields",
      fun i => match i with
               | O => obj [("filter", JStr "isHidden eq false")]
               | _ => JObj ∅
               end)]
    true
    (fun _ _ => inr (JArr [])).

(** ** The query of [folder.get] *)

(** The additional field [key] as the last of the first [n] items that
    gives it gave it. *)
Fixpoint latest (env : Env) (key : string) (n : nat) : option JsonValue :=
  match n with
  | O => None
  | S n' =>
      let v := field (getNodeParameter env "additionalFields" n') key in
      if truthy v then Some v else latest env key n'
  end.

(** The request of lines 993-999 for item [i], the items before it having
    run. *)
Definition folder_get_call (env : Env) (i : nat) : Call :=
  ApiRequest "GET" ("/mailFolders/" +:+ toString (getNodeParameter env "folderId" i))
    (JObj ∅) (JObj (query_after env (S i))) JUndefined.

(** [folder.get] on three folders; only the first item names fields, only
    the second a filter. *)
Definition inherit_env : Env :=
  sample_env
    [("resource", fun _ => JStr "folder");
     ("operation", fun _ => JStr "get");
     ("folderId", fun i => JStr ("f" +:+ pretty i));
     ("additionalFields",
      fun i => match i with
               | 0%nat => obj [("fields", JStr "displayName")]
               | 1%nat => obj [("filter", JStr "isHidden eq false")]
               | _ => JObj ∅
               end)]
    true
    (fun _ _ => inr (obj [("id", JStr "f")])).

(** ** Downloading an attachment *)

(** The two requests of [messageAttachment.download]: the details of the
    attachment (lines 764-770), then its content (lines 778-787). *)
Definition details_call (env : Env) (i : nat) : Call :=
  ApiRequest "GET"
    ("/messages/" +:+ toString (getNodeParameter env "messageId" i)
     +:+ "/attachments/" +:+ toString (getNodeParameter env "attachmentId" i))
    JUndefined (obj [("$select", JStr "id,name,contentType")]) JUndefined.

Definition content_call (env : Env) (i : nat) : Call :=
  ApiRequest "GET"
    ("/messages/" +:+ toString (getNodeParameter env "messageId" i)
     +:+ "/attachments/" +:+ toString (getNodeParameter env "attachmentId" i)
     +:+ "/$value")
    JUndefined (JObj ∅) raw_response_option.

(** An item that already carries a binary field [photo]. *)
Definition photo_item : INodeExecutionData :=
  {| json := obj [("id", JNum 3)];
     binary := Some {[ "photo" := {| data := list_byte_of_string "jpeg bytes";
                                     mimeType := Some "image/jpeg";
                                     fileName := Some "photo.jpg" |} ]};
     pairedItem := None |}.

(** [messageAttachment.download] storing under [data]: the details name a
    PDF, the content is eight bytes. *)
Definition download_env : Env :=
  sample_env
    [("resource", fun _ => JStr "messageAttachment");
     ("operation", fun _ => JStr "download");
     ("messageId", fun _ => JStr "m1");
     ("attachmentId", fun _ => JStr "a1");
     ("binaryPropertyName", fun _ => JStr "data")]
    false
    (fun history _ =>
       match history with
       | [] => inr (obj [("id", JStr "a1"); ("name", JStr "offer.pdf");
                         ("contentType", JStr "application/pdf")])
       | _ => inr (obj [("body", JBuffer (list_byte_of_string "%PDF-1.7"))])
       end).

(** ** Replying to a message *)

(** The request that creates the reply (lines 362-381). *)
Definition reply_call (env : Env) (i : nat) : Call :=
  let comment := getNodeParameter env "comment" i in
  let additionalFields := getNodeParameter env "additionalFields" i in
  let messageId := toString (getNodeParameter env "messageId" i) in
  if strict_eq (getNodeParameter env "replyType" i) "replyAll" then
    ApiRequest "POST" ("/messages/" +:+ messageId +:+ "/createReplyAll")
      (obj [("comment", comment)]) JUndefined JUndefined
  else
    ApiRequest "POST" ("/messages/" +:+ messageId +:+ "/createReply")
      (obj [("comment", comment);
            ("message",
             JObj (delete "attachments" (createMessage env (asObject additionalFields))))])
      JUndefined JUndefined.

(** The requests made on the created reply [id]: one per attachment (lines
    390-398), and the send (line 402). *)
Definition reply_attachment_call (id attachment : JsonValue) : Call :=
  ApiRequest "POST" ("/messages/" +:+ toString id +:+ "/attachments")
    attachment (JObj ∅) JUndefined.

Definition reply_send_call (id : JsonValue) : Call :=
  ApiRequest "POST" ("/messages/" +:+ toString id +:+ "/send")
    JUndefined JUndefined JUndefined.

(** The attachments of item [i], converted (lines 383-388); none when the
    additional fields name none. *)
Definition reply_attachments (env : Env) (i : nat) (input : list INodeExecutionData)
  : Error + list JsonValue :=
  let additionalFields := getNodeParameter env "additionalFields" i in
  if truthy (field additionalFields "attachments")
  then binaryToAttachments env (field (field additionalFields "attachments") "attachments")
         input i
  else inr [].

(** A reply with two attachments, to be sent; the server refuses the
    request number [refused] (from 0). *)
Definition reply_env (refused : nat) : Env :=
  {| getNodeParameter :=
       parameters
         [("resource", fun _ => JStr "message");
          ("operation", fun _ => JStr "reply");
          ("messageId", fun _ => JStr "m1");
          ("replyType", fun _ => JStr "reply");
          ("comment", fun _ => JStr "Thanks");
          ("send", fun _ => JBool true);
          ("additionalFields",
           fun _ => obj [("attachments", obj [("attachments", JArr [])])])];
     continueOnFail := false;
     server := fun history _ =>
                 if Nat.eqb (length history) refused
                 then inl (ExternalError "Attachment too large")
                 else inr (obj [("id", JStr "r1")]);
     downloadAttachments_result := fun _ messages _ => inr [];
     binaryToAttachments :=
       fun _ _ _ => inr [obj [("name", JStr "a.txt")]; obj [("name", JStr "b.txt")]];
     createMessage := fun fields => fields;
     makeRecipient := JStr;
     binaryStore_error := fun _ => None;
     guessMimeType := fun _ _ => None;
     toBase64 := string_of_list_byte;
     inputObject := fun i => i |}.

(** ** Sending a message *)

(** The request of line 619. *)
Definition send_mail_call (message : gmap string JsonValue)
    (saveToSentItems : JsonValue) : Call :=
  ApiRequest "POST" "/sendMail"
    (obj [("message", JObj message); ("saveToSentItems", saveToSentItems)])
    (JObj ∅) JUndefined.

(** The attachments of item [i] of [message.send], converted (lines
    605-611); [None] when the additional fields name none. *)
Definition mail_attachments (env : Env) (i : nat) (input : list INodeExecutionData)
  : Error + option (list JsonValue) :=
  let additionalFields := getNodeParameter env "additionalFields" i in
  if truthy (field additionalFields "attachments") then
    match binaryToAttachments env
            (field (field additionalFields "attachments") "attachments") input i with
    | inl e => inl e
    | inr converted => inr (Some converted)
    end
  else inr None.

(** The keys of the additional fields that [message.send] sets or removes
    itself. *)
Definition send_reserved : list string :=
  ["subject"; "bodyContent"; "toRecipients"; "saveToSentItems"].

(** [message.send] with an empty body, additional fields that try to set
    the subject and ask not to keep a copy. *)
Definition mail_env : Env :=
  sample_env
    [("resource", fun _ => JStr "message");
     ("operation", fun _ => JStr "send");
     ("toRecipients", fun _ => JStr "a@x.org");
     ("subject", fun _ => JStr "Offer");
     ("bodyContent", fun _ => JStr EmptyString);
     ("additionalFields",
      fun _ => obj [("subject", JStr "ignored"); ("saveToSentItems", JBool false);
                    ("importance", JStr "high")])]
    false
    (fun _ _ => inr JUndefined).

(** ** Operations that only read the input *)

(** A statement that leaves the input items alone. *)
Definition reads_only {A} (m : M A) : Prop :=
  forall s, items (snd (m s)) = items s.

(** ** The options loader *)

(** One entry of the drop-down ([INodePropertyOptions]). *)
Record INodePropertyOptions := mkOption {
  option_name : JsonValue;
  option_value : JsonValue
}.

(** The request of lines 116-121. *)
Definition categories_call : Call :=
  ApiRequestAllItems "value" "GET" "/outlook/masterCategories" JUndefined JUndefined.

(** The loop of lines 122-127; reading a property of an element that is
    [undefined] or [null] throws. *)
Fixpoint getCategories_loop (categories : list JsonValue)
    (returnData : list INodePropertyOptions) : Error + list INodePropertyOptions :=
  match categories with
  | [] => inr returnData
  | category :: rest =>
      match category with
      | JUndefined | JNull => inl (TypeError "Cannot read properties of undefined")
      | _ =>
          getCategories_loop rest
            (returnData ++ [{| option_name := field category "displayName";
                               option_value := field category "id" |}])
      end
  end.

(** [methods.loadOptions.getCategories], lines 114-129.  The paginating
    helper hands back an array; anything else cannot be iterated. *)
Definition getCategories (env : Env) : Error + list INodePropertyOptions :=
  match server env [] categories_call with
  | inl e => inl e
  | inr (JArr categories) => getCategories_loop categories []
  | inr _ => inl (TypeError "categories is not iterable")
  end.

(** The option made from one category. *)
Definition category_option (category : JsonValue) : INodePropertyOptions :=
  {| option_name := field category "displayName"; option_value := field category "id" |}.

Definition is_nullish (v : JsonValue) : bool :=
  match v with
  | JUndefined | JNull => true
  | _ => false
  end.

(** A mailbox with two categories. *)
Definition categories_env : Env :=
  sample_env [] false
    (fun _ _ => inr (JArr [obj [("id", JStr "c1"); ("displayName", JStr "Red")];
                           obj [("id", JStr "c2"); ("displayName", JStr "Blue")]])).

(** ** What an item contributes *)

(** A statement that only adds to the trace of calls. *)
Definition grows {A} (m : M A) : Prop :=
  forall s, exists group, calls (snd (m s)) = calls s ++ group.

(** The list operations. *)
Definition list_operation (resource operation : JsonValue) : bool :=
  (strict_eq resource "message" && strict_eq operation "getAll")
  || (strict_eq resource "messageAttachment" && strict_eq operation "getAll")
  || (strict_eq resource "folder" && includes ["getAll"; "getChildren"] operation)
  || (strict_eq resource "folderMessage" && strict_eq operation "getAll").

(** Item [i] of a list operation asks for one page, bounded by a limit: its
    payload is the [value] of the answer (lines 503, 892, 1051, 1098 and
    1184). *)
Definition one_page (env : Env) (i : nat) : bool :=
  list_operation (getNodeParameter env "resource" 0)
    (getNodeParameter env "operation" 0)
  && negb (truthy (getNodeParameter env "returnAll" i)).

(** Item [i] of [message.getAll] asks for the attachments to be downloaded
    (line 506). *)
Definition getAll_with_prefix (env : Env) (i : nat) : bool :=
  strict_eq (getNodeParameter env "resource" 0) "message"
  && strict_eq (getNodeParameter env "operation" 0) "getAll"
  && truthy (field (getNodeParameter env "additionalFields" i)
               "dataPropertyAttachmentsPrefixName").

(** The payload of item [i], given the answer to its first request. *)
Definition item_payload (env : Env) (i : nat) (answer : JsonValue) : JsonValue :=
  if one_page env i then field answer "value" else answer.

(** The record made of one payload, or of one element of a bulk payload. *)
Definition payload_record (i : nat) (d : JsonValue) : INodeExecutionData :=
  {| json := d; binary := None; pairedItem := Some i |}.

(** The records pushed for a payload: [listing] takes the [value] of the
    answer, [download] hands the payload to [downloadAttachments] first. *)
Definition item_block (env : Env) (i : nat) (listing download : bool)
    (history : list Call) (answer : JsonValue) : list INodeExecutionData :=
  let payload := if listing then field answer "value" else answer in
  if download then
    match downloadAttachments_result env history payload
            (toString (field (getNodeParameter env "additionalFields" i)
                         "dataPropertyAttachmentsPrefixName")) with
    | inr data => constructExecutionMetaData (returnJsonArray_items data) i
    | inl _ => []
    end
  else constructExecutionMetaData (returnJsonArray payload) i.

(** A [try] block whose records are those of the answer to its first
    request. *)
Definition answers (env : Env) (i : nat) (listing download : bool) (m : M Signal)
  : Prop :=
  forall s,
    match m s with
    | (Normal Continue, s') =>
        exists c rest answer,
          calls s' = calls s ++ c :: rest /\
          server env (calls s) c = inr answer /\
          returnData s'
          = returnData s ++ item_block env i listing download (calls s ++ [c]) answer /\
          (download = true ->
           exists data,
             downloadAttachments_result env (calls s ++ [c])
               (if listing then field answer "value" else answer)
               (toString (field (getNodeParameter env "additionalFields" i)
                            "dataPropertyAttachmentsPrefixName")) = inr data)
    | (Normal (Return _), _) => True
    | (Throw _, s') => True
    end.

(** What item [i] contributes to the output when its [try] block
    completes, the calls [history] having been made before it and [group]
    being its own: nothing, for a resource and operation that the cascade
    does not handle; one success record, for the operations that answer
    [{ success: true }]; otherwise the records of its payload, which comes
    with the answer to the first request of the item: one record for a
    payload that is a single object, one record per element, in order, for a
    bulk payload, and one record per downloaded item when [message.getAll]
    downloads the attachments. *)
Inductive block_of (env : Env) (i : nat) (history group : list Call)
    (b : list INodeExecutionData) : Prop :=
| block_none :
    handled (getNodeParameter env "resource" 0)
      (getNodeParameter env "operation" 0) = false ->
    group = [] ->
    b = [] ->
    block_of env i history group b
| block_success :
    single_record_operation (getNodeParameter env "resource" 0)
      (getNodeParameter env "operation" 0) = true ->
    b = [success_record i] ->
    block_of env i history group b
| block_single c rest answer :
    handled (getNodeParameter env "resource" 0)
      (getNodeParameter env "operation" 0) = true ->
    single_record_operation (getNodeParameter env "resource" 0)
      (getNodeParameter env "operation" 0) = false ->
    getAll_with_prefix env i = false ->
    group = c :: rest ->
    server env history c = inr answer ->
    (forall elements, item_payload env i answer <> JArr elements) ->
    b = [payload_record i (item_payload env i answer)] ->
    block_of env i history group b
| block_bulk c rest answer elements :
    handled (getNodeParameter env "resource" 0)
      (getNodeParameter env "operation" 0) = true ->
    single_record_operation (getNodeParameter env "resource" 0)
      (getNodeParameter env "operation" 0) = false ->
    getAll_with_prefix env i = false ->
    group = c :: rest ->
    server env history c = inr answer ->
    item_payload env i answer = JArr elements ->
    b = payload_record i <$> elements ->
    block_of env i history group b
| block_download c rest answer data :
    getAll_with_prefix env i = true ->
    group = c :: rest ->
    server env history c = inr answer ->
    downloadAttachments_result env (history ++ [c]) (item_payload env i answer)
      (toString (field (getNodeParameter env "additionalFields" i)
                   "dataPropertyAttachmentsPrefixName")) = inr data ->
    b = (fun d => mkItem (json d) (binary d) (Some i)) <$> data ->
    block_of env i history group b.

(** The state in which the loop of line 142 reaches item [i]. *)
Definition before (env : Env) (input : list INodeExecutionData) (i : nat) : State :=
  snd (for_loop (item_body env) 0 i (initial_state input)).

(** The block [b] and the calls [group] of item [i], started in state [s]:
    the error marker of the failure when its [try] block throws, the block
    of its payload when it completes. *)
Definition contributes (env : Env) (i : nat) (s : State) (group : list Call)
    (b : list INodeExecutionData) : Prop :=
  match fst (operation_try env i s) with
  | Throw e => b = [error_record i e]
  | Normal _ => block_of env i (calls s) group b
  end.

(** No payload of item [i] is a bulk result. *)
Definition single_payloads (env : Env) (i : nat) : Prop :=
  getAll_with_prefix env i = false /\
  forall history c answer elements,
    server env history c = inr answer ->
    item_payload env i answer <> JArr elements.

(** ** The early return of [get], item by item *)

(** What the request and the download of item [i] of a [get] with a prefix
    come to, the calls [history] having been made before: the error of the
    request, or of the download, or the downloaded items. *)
Definition get_outcome (env : Env) (i : nat) (history : list Call)
  : Error + list INodeExecutionData :=
  let request := get_request env i (query_after env (S i)) in
  match server env history request with
  | inl e => inl e
  | inr response =>
      downloadAttachments_result env (history ++ [request]) response
        (toString (attachment_prefix env i))
  end.

(** The calls of that item: its request, with the fields and filters
    written so far as query, then, when the request was answered, the
    download of the attachments of the answer. *)
Definition get_calls (env : Env) (i : nat) (history : list Call) : list Call :=
  let request := get_request env i (query_after env (S i)) in
  match server env history request with
  | inl _ => [request]
  | inr response =>
      [request; DownloadAttachments response (toString (attachment_prefix env i))]
  end.

(** ** Requests up to the first refusal *)

(** [trace] is the trace of a run over [n] items that makes one request per
    item and ended with [result]: the run completes after [n] requests, all
    of them answered unless continue-on-fail is set; or, continue-on-fail
    not being set, it throws the error with which the server refused the
    last request, every request before that one having been answered. *)
Definition stops_at_first_refusal (env : Env) (trace : list Call) (n : nat)
    (result : Completion Output) : Prop :=
  match result with
  | Normal _ =>
      length trace = n /\
      (continueOnFail env = false ->
       forall k c, trace !! k = Some c ->
                   exists v, server env (take k trace) c = inr v)
  | Throw e =>
      continueOnFail env = false /\
      exists last c,
        length trace = S last /\
        trace !! last = Some c /\
        server env (take last trace) c = inl e /\
        forall k c', (k < last)%nat -> trace !! k = Some c' ->
                     exists v, server env (take k trace) c' = inr v
  end.

(** ** Posts to a reply *)

(** The server accepted the post of each of the attachments [uploads] to the
    reply [id], made one after the other once the calls [history] had been
    made. *)
Definition posts_accepted (env : Env) (id : JsonValue) (history : list Call)
    (uploads : list JsonValue) : Prop :=
  forall k a,
    uploads !! k = Some a ->
    exists v,
      server env (history ++ (reply_attachment_call id <$> take k uploads))
        (reply_attachment_call id a) = inr v.

(** * Properties *)

(** ** Stepping through statements *)

Lemma bind_normal {A B} (m : M A) (f : A -> M B) s a s' :
  m s = (Normal a, s') -> bind m f s = f a s'.
Proof. intros H. unfold bind. now rewrite H. Qed.

Lemma bind_throw {A B} (m : M A) (f : A -> M B) s e s' :
  m s = (Throw e, s') -> bind m f s = (Throw e, s').
Proof. intros H. unfold bind. now rewrite H. Qed.

Lemma try_catch_normal {A} (m : M A) h s a s' :
  m s = (Normal a, s') -> try_catch m h s = (Normal a, s').
Proof. intros H. unfold try_catch. now rewrite H. Qed.

Lemma try_catch_throw {A} (m : M A) h s e s' :
  m s = (Throw e, s') -> try_catch m h s = h e s'.
Proof. intros H. unfold try_catch. now rewrite H. Qed.

Lemma get_item_some i s x :
  items s !! i = Some x -> get_item i s = (Normal x, s).
Proof. intros H. unfold get_item. now rewrite H. Qed.

Lemma state_eta s :
  {| items := items s; returnData := returnData s; qs := qs s; calls := calls s;
     replaced := replaced s |} = s.
Proof. now destruct s. Qed.

Lemma call_state_nil s : call_state [] s = s.
Proof. unfold call_state. rewrite app_nil_r. apply state_eta. Qed.

Lemma call_state_app c1 c2 s :
  call_state c2 (call_state c1 s) = call_state (c1 ++ c2) s.
Proof. unfold call_state. cbn. now rewrite app_assoc. Qed.

Lemma catch_push_continue env i e s :
  continueOnFail env = true ->
  catch_push env i e s = (Normal Continue, push_state [error_record i e] s).
Proof. intros H. unfold catch_push. now rewrite H. Qed.

Lemma catch_push_rethrow env i e s :
  continueOnFail env = false -> catch_push env i e s = (Throw e, s).
Proof. intros H. unfold catch_push. now rewrite H. Qed.

Lemma catch_overwrite_rethrow env i e s :
  continueOnFail env = false -> catch_overwrite env i e s = (Throw e, s).
Proof. intros H. unfold catch_overwrite. now rewrite H. Qed.

Lemma perform_ok env c s v :
  server env (calls s) c = inr v -> perform env c s = (Normal v, call_state [c] s).
Proof. intros H. unfold perform. now rewrite H. Qed.

Lemma perform_fail env c s e :
  server env (calls s) c = inl e -> perform env c s = (Throw e, call_state [c] s).
Proof. intros H. unfold perform. now rewrite H. Qed.

Lemma for_loop_step body i n s s' :
  body i s = (Normal Continue, s') ->
  for_loop body i (S n) s = for_loop body (S i) n s'.
Proof. intros H. cbn. now rewrite (bind_normal _ _ _ _ _ H). Qed.

Lemma for_loop_return body i n s out s' :
  body i s = (Normal (Return out), s') ->
  for_loop body i (S n) s = (Normal (Return out), s').
Proof. intros H. cbn. now rewrite (bind_normal _ _ _ _ _ H). Qed.

Lemma for_loop_throw body i n s e s' :
  body i s = (Throw e, s') ->
  for_loop body i (S n) s = (Throw e, s').
Proof. intros H. cbn. now rewrite (bind_throw _ _ _ _ _ H). Qed.

(** ** messageAttachment.add: what one item does *)

Lemma add_try_invalid env i s x :
  items s !! i = Some x -> invalid_attachment env i x ->
  exists msg idx,
    messageAttachment_add_try env i s = (Throw (NodeOperationError msg idx), s).
Proof.
  intros Hi Hinv. unfold messageAttachment_add_try.
  rewrite (bind_normal _ _ _ _ _ (get_item_some _ _ _ Hi)).
  fold (attachment_property env).
  destruct Hinv as [Hb | b Hb Hp | b bd Hb Hp Hf]; rewrite Hb.
  - eauto.
  - rewrite Hp. eauto.
  - rewrite Hp. unfold getBinaryDataBuffer.
    unfold bind at 1. unfold bind at 1.
    rewrite (get_item_some _ _ _ Hi), Hb, Hp. cbn [ret].
    fold (attachment_fileName env i bd). rewrite Hf. cbn [negb]. eauto.
Qed.

Lemma add_try_valid env i s x bd :
  items s !! i = Some x -> valid_attachment env i x bd ->
  messageAttachment_add_try env i s =
  (attachment_transfer env i (attachment_fileName env i bd) (data bd) ;;
   push [success_record i] ;;
   ret Continue) s.
Proof.
  intros Hi (b & Hb & Hp & Hf). unfold messageAttachment_add_try.
  rewrite (bind_normal _ _ _ _ _ (get_item_some _ _ _ Hi)).
  fold (attachment_property env). rewrite Hb, Hp.
  unfold getBinaryDataBuffer.
  unfold bind at 1. unfold bind at 1.
  rewrite (get_item_some _ _ _ Hi), Hb, Hp. cbn [ret].
  fold (attachment_fileName env i bd). rewrite Hf. cbn [negb].
  reflexivity.
Qed.

(** ** The chunk loop *)

Section ChunkLoop.

Variable chunkSize : Z.
Hypothesis chunkSize_pos : 0 < chunkSize.

Lemma chunk_count_spec total :
  0 <= total ->
  chunkSize * (Z.of_nat (chunk_count chunkSize total) - 1) < total
  <= chunkSize * Z.of_nat (chunk_count chunkSize total).
Proof.
  intros Ht. unfold chunk_count.
  assert (Hq : 0 <= (total + chunkSize - 1) / chunkSize)
    by (apply Z.div_pos; lia).
  rewrite Z2Nat.id by exact Hq.
  pose proof (Z.mul_div_le (total + chunkSize - 1) chunkSize chunkSize_pos).
  pose proof (Z.mul_succ_div_gt (total + chunkSize - 1) chunkSize chunkSize_pos).
  lia.
Qed.

Lemma chunk_guard total k :
  0 <= total ->
  chunk_start chunkSize k < total <-> (k < chunk_count chunkSize total)%nat.
Proof.
  intros Ht. pose proof (chunk_count_spec total Ht) as [Hlo Hhi].
  unfold chunk_start. split; intros H.
  - apply Nat2Z.inj_lt.
    assert (chunkSize * Z.of_nat k
            < chunkSize * Z.of_nat (chunk_count chunkSize total)) by lia.
    nia.
  - apply Nat2Z.inj_lt in H.
    assert (chunkSize * Z.of_nat k
            <= chunkSize * (Z.of_nat (chunk_count chunkSize total) - 1))
      by nia.
    lia.
Qed.

Lemma chunk_start_succ k :
  chunk_start chunkSize k + chunkSize = chunk_start chunkSize (S k).
Proof. unfold chunk_start. lia. Qed.

Lemma chunk_end_eq total k :
  Math_min (chunk_start chunkSize k + chunkSize) total = chunk_end chunkSize total k.
Proof. unfold Math_min, chunk_end, chunk_start. f_equal. lia. Qed.

(** Offsets grow strictly with the chunk number. *)
Lemma chunk_start_increasing j k :
  (j < k)%nat -> chunk_start chunkSize j < chunk_start chunkSize k.
Proof. unfold chunk_start. intros H. nia. Qed.

Lemma upload_fuel_enough dataBuffer :
  (chunk_count chunkSize (buffer_length dataBuffer) <= upload_fuel dataBuffer chunkSize)%nat.
Proof.
  unfold chunk_count, upload_fuel.
  set (L := buffer_length dataBuffer).
  assert (0 <= L) by (unfold L, buffer_length; lia).
  assert ((L + chunkSize - 1) / chunkSize <= L / chunkSize + 1).
  { replace (L / chunkSize + 1) with ((L + 1 * chunkSize) / chunkSize)
      by (rewrite Z.div_add by lia; reflexivity).
    apply Z.div_le_mono; lia. }
  assert (0 <= L / chunkSize) by (apply Z.div_pos; lia).
  lia.
Qed.

(** The loop body is one [PUT] of chunk [k]. *)
Lemma upload_chunks_unfold env fuel uploadUrl dataBuffer k :
  (k < chunk_count chunkSize (buffer_length dataBuffer))%nat ->
  upload_chunks env (S fuel) uploadUrl dataBuffer chunkSize (chunk_start chunkSize k) =
  (perform env (chunk_put chunkSize uploadUrl dataBuffer k) ;;
   upload_chunks env fuel uploadUrl dataBuffer chunkSize (chunk_start chunkSize (S k))).
Proof.
  intros Hk. cbn [upload_chunks].
  assert (0 <= buffer_length dataBuffer) by (unfold buffer_length; lia).
  apply chunk_guard in Hk; [|assumption].
  apply Z.ltb_lt in Hk. rewrite Hk.
  rewrite chunk_end_eq, chunk_start_succ. reflexivity.
Qed.

Lemma upload_chunks_done env fuel uploadUrl dataBuffer k s :
  (chunk_count chunkSize (buffer_length dataBuffer) <= k)%nat ->
  upload_chunks env fuel uploadUrl dataBuffer chunkSize (chunk_start chunkSize k) s
  = (Normal tt, s).
Proof.
  intros Hk. destruct fuel as [|fuel]; [reflexivity|]. cbn [upload_chunks].
  assert (0 <= buffer_length dataBuffer) by (unfold buffer_length; lia).
  destruct (Z.ltb_spec (chunk_start chunkSize k) (buffer_length dataBuffer))
    as [Hlt|]; [|reflexivity].
  apply chunk_guard in Hlt; [lia|assumption].
Qed.

(** When every [PUT] is accepted, the loop issues the [PUT]s of chunks
    [k, k+1, ...] up to the last one, in that order, and nothing else. *)
Lemma upload_chunks_run env uploadUrl dataBuffer :
  (forall hist uri options, exists v, server env hist (HelpersRequest uri options) = inr v) ->
  forall m k fuel s,
    (k + m = chunk_count chunkSize (buffer_length dataBuffer))%nat ->
    (m <= fuel)%nat ->
    upload_chunks env fuel uploadUrl dataBuffer chunkSize (chunk_start chunkSize k) s =
    (Normal tt, call_state (chunk_put chunkSize uploadUrl dataBuffer <$> seq k m) s).
Proof.
  intros Hput m. induction m as [|m IH]; intros k fuel s Hkm Hfuel.
  - rewrite upload_chunks_done by lia. cbn. now rewrite call_state_nil.
  - destruct fuel as [|fuel]; [lia|].
    rewrite upload_chunks_unfold by lia.
    destruct (Hput (calls s) uploadUrl
                (match chunk_put chunkSize uploadUrl dataBuffer k with
                 | HelpersRequest _ o => o
                 | _ => JUndefined
                 end)) as [v Hv].
    rewrite (bind_normal _ _ _ _ _ (perform_ok _ _ _ _ Hv)).
    rewrite IH by lia. rewrite call_state_app. reflexivity.
Qed.

(** The same trace for any larger fuel: the bound never cuts the loop. *)
Lemma upload_chunks_fuel_irrelevant env uploadUrl dataBuffer fuel s :
  (chunk_count chunkSize (buffer_length dataBuffer) <= fuel)%nat ->
  upload_chunks env fuel uploadUrl dataBuffer chunkSize 0 s =
  upload_chunks env (upload_fuel dataBuffer chunkSize) uploadUrl dataBuffer chunkSize 0 s.
Proof.
  intros Hfuel. pose proof (upload_fuel_enough dataBuffer) as Hen.
  replace 0 with (chunk_start chunkSize 0) by (unfold chunk_start; lia).
  generalize (upload_fuel dataBuffer chunkSize) Hen. intros fuel' Hfuel'.
  remember (chunk_count chunkSize (buffer_length dataBuffer)) as n eqn:Hn.
  assert (Hk : (0 + n = chunk_count chunkSize (buffer_length dataBuffer))%nat) by lia.
  clear Hn. revert fuel fuel' s Hfuel Hfuel' Hk. generalize 0%nat as k.
  induction n as [|n IH]; intros k fuel fuel' s Hfuel Hfuel' Hk.
  - now rewrite !upload_chunks_done by lia.
  - destruct fuel as [|fuel]; [lia|]. destruct fuel' as [|fuel']; [lia|].
    rewrite !upload_chunks_unfold by lia.
    unfold bind. destruct (perform env _ s) as [[v|e] s']; [|reflexivity].
    apply IH; lia.
Qed.

(** The chunks, put end to end, are the buffer. *)
Lemma chunk_bytes_concat dataBuffer m k :
  (k + m = chunk_count chunkSize (buffer_length dataBuffer))%nat ->
  concat (chunk_bytes chunkSize dataBuffer <$> seq k m)
  = drop (Z.to_nat (chunk_start chunkSize k)) dataBuffer.
Proof.
  assert (HL : 0 <= buffer_length dataBuffer) by (unfold buffer_length; lia).
  revert k. induction m as [|m IH]; intros k Hkm.
  - cbn. symmetry. apply drop_ge.
    assert (~ chunk_start chunkSize k < buffer_length dataBuffer)
      by (rewrite chunk_guard by assumption; lia).
    unfold buffer_length in *. unfold chunk_start in *. lia.
  - cbn [seq fmap list_fmap concat]. change (list_fmap _ _ ?f ?l) with (f <$> l).
    rewrite IH by lia.
    assert (Hlt : chunk_start chunkSize k < buffer_length dataBuffer)
      by (rewrite chunk_guard by assumption; lia).
    unfold chunk_bytes, subarray, chunk_end.
    assert (Hk0 : 0 <= chunk_start chunkSize k) by (unfold chunk_start; lia).
    destruct (Z.le_gt_cases (chunkSize * (Z.of_nat k + 1)) (buffer_length dataBuffer))
      as [Hfull | Hlast].
    + rewrite Z.min_l by assumption.
      replace (Z.to_nat (chunk_start chunkSize (S k)))
        with (Z.to_nat (chunk_start chunkSize k)
              + Z.to_nat (chunkSize * (Z.of_nat k + 1) - chunk_start chunkSize k))%nat
        by (unfold chunk_start; lia).
      rewrite <- drop_drop. apply take_drop.
    + rewrite Z.min_r by lia.
      rewrite (drop_ge dataBuffer (Z.to_nat (chunk_start chunkSize (S k))))
        by (unfold buffer_length, chunk_start in *; lia).
      rewrite app_nil_r. apply take_ge.
      rewrite length_drop. unfold buffer_length in *. lia.
Qed.

Lemma chunk_bytes_reconstruct dataBuffer :
  concat (chunk_bytes chunkSize dataBuffer
          <$> seq 0 (chunk_count chunkSize (buffer_length dataBuffer)))
  = dataBuffer.
Proof.
  rewrite chunk_bytes_concat by lia.
  unfold chunk_start. now rewrite Z.mul_0_r.
Qed.

(** The last chunk ends at the end of the buffer. *)
Lemma chunk_end_last total n :
  0 < total -> chunk_count chunkSize total = S n -> chunk_end chunkSize total n = total.
Proof.
  intros Ht Hn. pose proof (chunk_count_spec total ltac:(lia)) as [_ Hhi].
  rewrite Hn in Hhi. unfold chunk_end. lia.
Qed.

End ChunkLoop.

(** ** The dispatcher runs one loop *)

Lemma strict_eq_str_of v s : strict_eq v s = bool_decide (str_of v = Some s).
Proof.
  destruct v; cbn; try (symmetry; apply bool_decide_eq_false_2; discriminate).
  apply bool_decide_ext. split; [congruence | intros [= ->]; reflexivity].
Qed.

Lemma strict_eq_true v s : strict_eq v s = true -> v = JStr s.
Proof.
  destruct v; cbn; try discriminate. intros H.
  apply bool_decide_eq_true in H. now subst.
Qed.

Lemma for_loop_skip h i n s :
  for_loop (fun j => try_catch (ret Continue) (h j)) i n s = (Normal Continue, s).
Proof. revert i. induction n as [|n IH]; intros i; [reflexivity|]. cbn. apply IH. Qed.

(** Case analysis on the resource and the operation: one test at a time,
    the closed tests being evaluated. *)
Ltac split_test :=
  match goal with
  | |- context [bool_decide (?X = Some ?lit)] =>
      is_var X;
      destruct (decide (X = Some lit)) as [->|?];
      [ | rewrite (bool_decide_eq_false_2 (X = Some lit)) by assumption ]
  end.

Ltac eval_tests :=
  repeat match goal with
    | |- context [bool_decide (Some ?a = Some ?b)] =>
        let v := eval vm_compute in (bool_decide (Some a = Some b)) in
        change (bool_decide (Some a = Some b)) with v
    end.

Ltac by_operation :=
  rewrite ?strict_eq_str_of;
  repeat match goal with
    | |- context [str_of (getNodeParameter ?e ?name 0)] =>
        generalize (str_of (getNodeParameter e name 0)); intros ?
    end;
  repeat (split_test; eval_tests; cbn [andb orb if_block]).

Lemma execute_blocks_loop env length s :
  execute_blocks env length s =
  match for_loop (item_body env) 0 length s with
  | (Normal Continue, s') => after_loop env length s'
  | r => r
  end.
Proof.
  unfold execute_blocks, item_body, operation_try, operation_catch, after_loop,
    returns_items, includes, existsb.
  by_operation.
  all: unfold and_then, bind, ret.
  all: try rewrite for_loop_skip.
  all: try (destruct (for_loop _ 0 length s) as [[[|out]|e] s'];
            try destruct (truthy _); reflexivity).
  all: reflexivity.
Qed.

(** ** Statements that leave the accumulator alone *)

Lemma silent_ret {A} (a : A) : silent (ret a).
Proof. intros s. reflexivity. Qed.

Lemma silent_throw {A} e : silent (@throw A e).
Proof. intros s. reflexivity. Qed.

Lemma silent_bind {A B} (m : M A) (f : A -> M B) :
  silent m -> (forall a, silent (f a)) -> silent (bind m f).
Proof.
  intros Hm Hf s. unfold bind. specialize (Hm s).
  destruct (m s) as [[a|e] s']; cbn in *; [|assumption].
  rewrite <- Hm. apply Hf.
Qed.

Lemma silent_perform env c : silent (perform env c).
Proof. intros s. unfold perform. now destruct (server env (calls s) c). Qed.

Lemma silent_downloadAttachments env messages prefix :
  silent (downloadAttachments env messages prefix).
Proof.
  intros s. unfold downloadAttachments.
  now destruct (downloadAttachments_result env (calls s) messages prefix).
Qed.

Lemma silent_get_items : silent get_items.
Proof. intros s. reflexivity. Qed.

Lemma silent_get_qs : silent get_qs.
Proof. intros s. reflexivity. Qed.

Lemma silent_get_item i : silent (get_item i).
Proof. intros s. unfold get_item. now destruct (items s !! i). Qed.

Lemma silent_set_qs k v : silent (set_qs k v).
Proof. intros s. reflexivity. Qed.

Lemma silent_set_item i d : silent (set_item i d).
Proof. intros s. reflexivity. Qed.

Lemma silent_lift_result {A} (r : Error + A) : silent (lift_result r).
Proof. intros s. now destruct r. Qed.

Lemma silent_prop v k : silent (prop v k).
Proof. intros s. now destruct v. Qed.

Lemma silent_Buffer_from v : silent (Buffer_from v).
Proof. intros s. now destruct v. Qed.

Lemma silent_when_ c m : silent m -> silent (when_ c m).
Proof. intros Hm. destruct c; [assumption | apply silent_ret]. Qed.

Lemma silent_for_of {A} (l : list A) f :
  (forall x, silent (f x)) -> silent (for_of l f).
Proof.
  intros Hf. induction l as [|x l IH]; cbn; [apply silent_ret|].
  apply silent_bind; [apply Hf | intros _; exact IH].
Qed.

Lemma silent_prepareBinaryData env d f m : silent (prepareBinaryData env d f m).
Proof.
  unfold prepareBinaryData.
  destruct (binaryStore_error env d); [apply silent_throw | apply silent_ret].
Qed.

Lemma silent_upload_chunks env fuel url buf c o :
  silent (upload_chunks env fuel url buf c o).
Proof.
  revert o. induction fuel as [|fuel IH]; intros o; cbn [upload_chunks]; [apply silent_ret|].
  destruct (o <? buffer_length buf); [|apply silent_ret].
  apply silent_bind; [apply silent_perform | intros _; apply IH].
Qed.

Create HintDb silent discriminated.
#[local] Hint Resolve silent_ret silent_throw silent_perform
  silent_downloadAttachments silent_get_items silent_get_qs silent_get_item
  silent_set_qs silent_set_item silent_lift_result silent_prop
  silent_Buffer_from silent_prepareBinaryData silent_upload_chunks : silent.

(** Decompose a statement along its binds, conditionals and matches. *)
Ltac silent_step :=
  match goal with
  | |- silent (bind _ _) => apply silent_bind; [ | intros ? ]
  | |- silent (when_ _ _) => apply silent_when_
  | |- silent (for_of _ _) => apply silent_for_of; intros ?
  | |- silent (if ?c then _ else _) => destruct c
  | |- silent (match ?x with _ => _ end) => destruct x
  | |- silent _ => solve [ auto with silent ]
  end.

Ltac silent_solve :=
  unfold microsoftApiRequest, microsoftApiRequestAllItems, helpers_request,
    list_request, getBinaryDataBuffer, set_binary_property;
  cbv zeta;
  repeat silent_step.

Lemma silent_list_request env i r a b :
  (forall q, silent (a q)) -> (forall q, silent (b q)) ->
  silent (list_request env i r a b).
Proof. intros Ha Hb. unfold list_request. repeat silent_step; auto. Qed.

Lemma silent_attachment_transfer env i f d : silent (attachment_transfer env i f d).
Proof.
  unfold attachment_transfer. repeat silent_step.
Qed.

(** ** [try] blocks push at their end *)

Lemma pushes_bind {A} r Q (m : M A) (f : A -> M Signal) :
  silent m -> (forall a, pushes_at_end r Q (f a)) -> pushes_at_end r Q (bind m f).
Proof.
  intros Hm Hf s. unfold bind. specialize (Hm s).
  destruct (m s) as [[a|e] s']; cbn in *; [|assumption].
  specialize (Hf a s'). rewrite Hm in Hf. exact Hf.
Qed.

Lemma pushes_push r (Q : list INodeExecutionData -> Prop) b :
  Q b -> pushes_at_end r Q (push b ;; ret Continue).
Proof. intros HQ s. cbn. eauto. Qed.

Lemma pushes_continue r (Q : list INodeExecutionData -> Prop) :
  Q [] -> pushes_at_end r Q (ret Continue).
Proof. intros HQ s. cbn. exists []. now rewrite app_nil_r. Qed.

Lemma pushes_throw r Q e : pushes_at_end r Q (throw e).
Proof. intros s. reflexivity. Qed.

Lemma pushes_silent r (Q : list INodeExecutionData -> Prop) (m : M unit) :
  Q [] -> silent m -> pushes_at_end r Q (m ;; ret Continue).
Proof. intros HQ Hm. apply pushes_bind; [assumption | intros _; now apply pushes_continue]. Qed.

Lemma pushes_mono r (Q Q' : list INodeExecutionData -> Prop) m :
  (forall b, Q b -> Q' b) -> pushes_at_end r Q m -> pushes_at_end r Q' m.
Proof.
  intros HQ Hm s. specialize (Hm s).
  destruct (m s) as [[[|out]|e] s']; [ | | assumption].
  - destruct Hm as (b & ? & ?). eauto.
  - destruct Hm as (? & b & ? & ? & ?). eauto 6.
Qed.

Lemma pushes_bind_assoc {A B} r Q (m : M A) (f : A -> M B) (g : B -> M Signal) :
  pushes_at_end r Q (bind m (fun a => bind (f a) g)) ->
  pushes_at_end r Q (bind (bind m f) g).
Proof.
  intros H s. specialize (H s). unfold bind in *.
  destruct (m s) as [[a|e] s']; exact H.
Qed.

Lemma origin_construct i l : Forall (origin i) (constructExecutionMetaData l i).
Proof.
  unfold constructExecutionMetaData. apply Forall_fmap, Forall_true.
  intros d. reflexivity.
Qed.

Lemma construct_success i :
  constructExecutionMetaData (returnJsonArray success_json) i = [success_record i].
Proof. reflexivity. Qed.

Ltac pushes_step :=
  match goal with
  | |- pushes_at_end _ _ (bind (push _) (fun _ => ret Continue)) =>
      apply pushes_push; try apply origin_construct; try reflexivity
  | |- pushes_at_end _ _ (ret Continue) =>
      apply pushes_continue; first [ reflexivity | apply Forall_nil_2 ]
  | |- pushes_at_end _ _ (bind (if ?c then _ else _) _) => destruct c
  | |- pushes_at_end _ _ (bind (bind _ _) _) => apply pushes_bind_assoc
  | |- pushes_at_end _ _ (bind _ _) => apply pushes_bind; [ silent_solve | intros ? ]
  | |- pushes_at_end _ _ (throw _) => apply pushes_throw
  | |- pushes_at_end _ _ (if ?c then _ else _) => destruct c
  | |- pushes_at_end _ _ (match ?x with _ => _ end) => destruct x
  end.

Ltac pushes_solve :=
  unfold microsoftApiRequest, microsoftApiRequestAllItems, helpers_request;
  cbv zeta;
  repeat pushes_step.

Section TrySpecs.
Variable env : Env.
Variable i : nat.

Lemma message_delete_try_spec :
  pushes_at_end false (eq [success_record i]) (message_delete_try env i).
Proof. unfold message_delete_try. pushes_solve. Qed.

Lemma message_update_try_spec :
  pushes_at_end false (Forall (origin i)) (message_update_try env i).
Proof. unfold message_update_try. pushes_solve. Qed.

Lemma draft_create_try_spec :
  pushes_at_end false (Forall (origin i)) (draft_create_try env i).
Proof. unfold draft_create_try. pushes_solve. Qed.

Lemma draft_send_try_spec :
  pushes_at_end false (eq [success_record i]) (draft_send_try env i).
Proof. unfold draft_send_try. pushes_solve. Qed.

Lemma message_reply_try_spec :
  pushes_at_end false (Forall (origin i)) (message_reply_try env i).
Proof. unfold message_reply_try. pushes_solve. Qed.


Lemma message_get_try_spec :
  pushes_at_end (truthy (field (getNodeParameter env "additionalFields" i)
                           "dataPropertyAttachmentsPrefixName"))
    (Forall (origin i)) (message_get_try env i).
Proof.
  unfold message_get_try. cbv zeta.
  destruct (truthy (field (getNodeParameter env "additionalFields" i)
                      "dataPropertyAttachmentsPrefixName")).
  - do 4 (apply pushes_bind; [silent_solve | intros ?]).
    intros s. unfold bind, downloadAttachments.
    destruct (downloadAttachments_result env (calls s) _ _); cbn; [reflexivity|].
    split; [reflexivity|]. eexists. split; [reflexivity|].
    split; [apply origin_construct | reflexivity].
  - pushes_solve.
Qed.

Lemma message_getMime_try_spec :
  pushes_at_end false (eq []) (message_getMime_try env i).
Proof. unfold message_getMime_try. pushes_solve. Qed.

Lemma message_getAll_try_spec :
  pushes_at_end false (Forall (origin i)) (message_getAll_try env i).
Proof. unfold message_getAll_try. pushes_solve. Qed.

Lemma message_move_try_spec :
  pushes_at_end false (eq [success_record i]) (message_move_try env i).
Proof. unfold message_move_try. pushes_solve. Qed.

Lemma message_send_try_spec :
  pushes_at_end false (eq [success_record i]) (message_send_try env i).
Proof. unfold message_send_try. pushes_solve. Qed.

Lemma messageAttachment_add_try_spec :
  pushes_at_end false (eq [success_record i]) (messageAttachment_add_try env i).
Proof. unfold messageAttachment_add_try. pushes_solve. Qed.

Lemma messageAttachment_download_try_spec :
  pushes_at_end false (eq []) (messageAttachment_download_try env i).
Proof. unfold messageAttachment_download_try. pushes_solve. Qed.

Lemma messageAttachment_get_try_spec :
  pushes_at_end false (Forall (origin i)) (messageAttachment_get_try env i).
Proof. unfold messageAttachment_get_try. pushes_solve. Qed.

Lemma messageAttachment_getAll_try_spec :
  pushes_at_end false (Forall (origin i)) (messageAttachment_getAll_try env i).
Proof. unfold messageAttachment_getAll_try. pushes_solve. Qed.

Lemma folder_create_try_spec :
  pushes_at_end false (Forall (origin i)) (folder_create_try env i).
Proof. unfold folder_create_try. pushes_solve. Qed.

Lemma folder_delete_try_spec :
  pushes_at_end false (eq [success_record i]) (folder_delete_try env i).
Proof. unfold folder_delete_try. pushes_solve. Qed.

Lemma folder_get_try_spec :
  pushes_at_end false (Forall (origin i)) (folder_get_try env i).
Proof. unfold folder_get_try. pushes_solve. Qed.

Lemma folder_getAll_try_spec :
  pushes_at_end false (Forall (origin i)) (folder_getAll_try env i).
Proof. unfold folder_getAll_try. pushes_solve. Qed.

Lemma folder_getChildren_try_spec :
  pushes_at_end false (Forall (origin i)) (folder_getChildren_try env i).
Proof. unfold folder_getChildren_try. pushes_solve. Qed.

Lemma folder_update_try_spec :
  pushes_at_end false (Forall (origin i)) (folder_update_try env i).
Proof. unfold folder_update_try. pushes_solve. Qed.

Lemma folderMessage_try_spec operation :
  pushes_at_end false (Forall (origin i)) (folderMessage_try env operation i).
Proof. unfold folderMessage_try. pushes_solve. Qed.

End TrySpecs.

(** ** Every item contributes one block *)

Lemma block_ok_success env i :
  forall b, [success_record i] = b -> block_ok env i b.
Proof.
  intros b <-. split; [|reflexivity].
  constructor; [reflexivity | constructor].
Qed.

Lemma operation_try_spec env i :
  pushes_at_end (get_with_prefix env i) (block_ok env i) (operation_try env i).
Proof.
  unfold operation_try, get_with_prefix, block_ok, single_record_operation,
    includes, existsb.
  by_operation.
  all: cbn [negb].
  all: eapply pushes_mono; cycle 1.
  all: try first
    [ apply message_delete_try_spec | apply message_get_try_spec
    | apply message_update_try_spec | apply draft_create_try_spec
    | apply draft_send_try_spec | apply message_reply_try_spec
    | apply message_getMime_try_spec | apply message_getAll_try_spec
    | apply message_move_try_spec | apply message_send_try_spec
    | apply messageAttachment_add_try_spec
    | apply messageAttachment_download_try_spec
    | apply messageAttachment_get_try_spec
    | apply messageAttachment_getAll_try_spec
    | apply folder_create_try_spec | apply folder_delete_try_spec
    | apply folder_get_try_spec | apply folder_getAll_try_spec
    | apply folder_getChildren_try_spec | apply folder_update_try_spec
    | apply folderMessage_try_spec
    | apply (pushes_continue _ (eq [])); reflexivity ].
  all: cbn beta.
  all: intros b Hb; split;
    [ first [ exact Hb | subst b; repeat constructor ]
    | intros Hs; first [ discriminate Hs | symmetry; exact Hb ] ].
Qed.

Lemma operation_catch_cases env :
  operation_catch env = catch_overwrite env \/ operation_catch env = catch_push env.
Proof. unfold operation_catch. destruct (returns_items _ _); auto. Qed.

Lemma operation_catch_rethrow env i e s :
  continueOnFail env = false -> operation_catch env i e s = (Throw e, s).
Proof.
  intros H. destruct (operation_catch_cases env) as [-> | ->];
    [now apply catch_overwrite_rethrow | now apply catch_push_rethrow].
Qed.

Lemma silent_catch_overwrite env i e : silent (catch_overwrite env i e).
Proof. unfold catch_overwrite. silent_solve. Qed.

(** Whatever happens to item [i], what it adds to the accumulator is a
    block of records of origin [i]. *)
Lemma item_body_block env i s :
  exists b, returnData (snd (item_body env i s)) = returnData s ++ b /\
            Forall (origin i) b.
Proof.
  unfold item_body, try_catch.
  pose proof (operation_try_spec env i s) as H.
  destruct (operation_try env i s) as [[[|out]|e] s']; cbn [snd].
  - destruct H as (b & -> & Hb & _). eauto.
  - destruct H as (_ & b & -> & (Hb & _) & _). eauto.
  - destruct (operation_catch_cases env) as [-> | ->].
    + rewrite silent_catch_overwrite, H. exists []. now rewrite app_nil_r.
    + unfold catch_push. destruct (continueOnFail env); cbn.
      * rewrite H. eexists. split; [reflexivity|]. repeat constructor.
      * rewrite H. exists []. now rewrite app_nil_r.
Qed.

(** With continue-on-fail, an accumulating item always goes on to the next
    one, leaving either its block or one error marker. *)
Lemma item_body_continue env i s :
  continueOnFail env = true ->
  returns_items (getNodeParameter env "resource" 0)
    (getNodeParameter env "operation" 0) = false ->
  get_with_prefix env i = false ->
  exists b s',
    item_body env i s = (Normal Continue, s') /\
    returnData s' = returnData s ++ b /\
    (block_ok env i b \/ exists e, b = [error_record i e]).
Proof.
  intros Hcof Hacc Hpre. unfold item_body, try_catch, operation_catch.
  rewrite Hacc.
  pose proof (operation_try_spec env i s) as H. rewrite Hpre in H.
  destruct (operation_try env i s) as [[[|out]|e] s'].
  - destruct H as (b & Hb & Hok). eauto 6.
  - destruct H as [H _]. discriminate H.
  - rewrite (catch_push_continue _ _ _ _ Hcof).
    exists [error_record i e]. eexists. split; [reflexivity|].
    cbn. rewrite H. eauto.
Qed.

(** ** Loops *)

Lemma for_loop_app body i n m s :
  for_loop body i (n + m) s =
  match for_loop body i n s with
  | (Normal Continue, s') => for_loop body (i + n) m s'
  | r => r
  end.
Proof.
  revert i s. induction n as [|n IH]; intros i s.
  - cbn. now rewrite Nat.add_0_r.
  - cbn [Nat.add for_loop]. unfold bind, ret.
    destruct (body i s) as [[[|out]|e] s']; [|reflexivity..].
    rewrite IH. now replace (S i + n)%nat with (i + S n)%nat by lia.
Qed.

Lemma for_loop_blocks (P : nat -> list INodeExecutionData -> Prop) body n :
  forall lo s,
    (forall i s, (lo <= i < lo + n)%nat ->
       exists b s', body i s = (Normal Continue, s') /\
                    returnData s' = returnData s ++ b /\ P i b) ->
    exists blocks s',
      for_loop body lo n s = (Normal Continue, s') /\
      returnData s' = returnData s ++ concat blocks /\
      length blocks = n /\
      forall k b, blocks !! k = Some b -> P (lo + k)%nat b.
Proof.
  induction n as [|n IH]; intros lo s Hbody.
  - exists [], s. cbn. rewrite app_nil_r. repeat split. intros k b Hk. discriminate Hk.
  - destruct (Hbody lo s ltac:(lia)) as (b & s1 & Hb & Hr & HP).
    destruct (IH (S lo) s1) as (blocks & s' & Hloop & Hr' & Hlen & Hall).
    { intros i s0 Hi. apply Hbody. lia. }
    exists (b :: blocks), s'. rewrite (for_loop_step _ _ _ _ _ Hb).
    split; [assumption|]. split; [cbn; rewrite Hr', Hr, app_assoc; reflexivity|].
    split; [cbn; lia|].
    intros [|k] b' Hk; cbn in Hk.
    + injection Hk as <-. now rewrite Nat.add_0_r.
    + replace (lo + S k)%nat with (S lo + k)%nat by lia. now apply Hall.
Qed.

(** The records accumulated by the items before [k] all come from them. *)
Lemma for_loop_origins env n :
  forall lo s r s',
    for_loop (item_body env) lo n s = (r, s') ->
    exists b, returnData s' = returnData s ++ b /\
              Forall (fun d => exists j, origin j d /\ (lo <= j < lo + n)%nat) b.
Proof.
  induction n as [|n IH]; intros lo s r s' Hloop.
  - cbn in Hloop. injection Hloop as <- <-. exists []. now rewrite app_nil_r.
  - cbn [for_loop] in Hloop. unfold bind in Hloop.
    destruct (item_body_block env lo s) as (b & Hb & Hob).
    destruct (item_body env lo s) as [[[|out]|e] s1]; cbn [snd] in Hb.
    + destruct (IH _ _ _ _ Hloop) as (b' & Hb' & Hob').
      exists (b ++ b'). rewrite Hb', Hb, app_assoc. split; [reflexivity|].
      apply Forall_app. split.
      * eapply Forall_impl; [exact Hob|]. intros d Hd. exists lo. split; [assumption|lia].
      * eapply Forall_impl; [exact Hob'|]. intros d (j & Hj & ?). exists j. split; [assumption|lia].
    + injection Hloop as <- <-. exists b. split; [assumption|].
      eapply Forall_impl; [exact Hob|]. intros d Hd. exists lo. split; [assumption|lia].
    + injection Hloop as <- <-. exists b. split; [assumption|].
      eapply Forall_impl; [exact Hob|]. intros d Hd. exists lo. split; [assumption|lia].
Qed.

Lemma concat_singletons {A} (blocks : list (list A)) :
  (forall b, b ∈ blocks -> length b = 1%nat) ->
  length (concat blocks) = length blocks /\
  forall i b, blocks !! i = Some b ->
              exists r, b = [r] /\ concat blocks !! i = Some r.
Proof.
  induction blocks as [|b0 blocks IH]; intros Hone.
  - split; [reflexivity|]. intros i b Hi. discriminate Hi.
  - assert (H0 : length b0 = 1%nat) by (apply Hone; left).
    destruct b0 as [|r0 [|? ?]]; try discriminate H0.
    destruct IH as [Hlen Hget]; [intros b Hb; apply Hone; now right|].
    split; [cbn; now rewrite Hlen|].
    intros [|i] b Hi; cbn in Hi.
    + injection Hi as <-. eauto.
    + cbn. now apply Hget.
Qed.

Lemma execute_unfold env input :
  execute env input =
  match for_loop (item_body env) 0 (length input) (initial_state input) with
  | (Normal Continue, s') =>
      if returns_items (getNodeParameter env "resource" 0)
           (getNodeParameter env "operation" 0)
      then (Normal [items s'], s')
      else (Normal [returnData s'], s')
  | (Normal (Return out), s') => (Normal out, s')
  | (Throw e, s') => (Throw e, s')
  end.
Proof.
  unfold execute, execute_statements, bind. rewrite execute_blocks_loop.
  destruct (for_loop _ _ _ _) as [[[|out]|e] s']; try reflexivity.
  unfold after_loop, returns_items.
  rewrite !strict_eq_str_of.
  destruct (bool_decide (str_of (getNodeParameter env "resource" 0) = Some "message"))
    eqn:Hr; cbn [andb orb].
  2: { destruct (_ && _); reflexivity. }
  destruct (bool_decide (str_of (getNodeParameter env "operation" 0) = Some "getAll"))
    eqn:Ho; cbn [andb orb].
  - apply bool_decide_eq_true in Hr, Ho. rewrite Hr, Ho.
    destruct (truthy _); reflexivity.
  - destruct (_ || _); reflexivity.
Qed.

(** ** Statements that only add to the trace *)

Lemma grows_ret {A} (a : A) : grows (ret a).
Proof. intros s. exists []. cbn. now rewrite app_nil_r. Qed.

Lemma grows_throw {A} e : grows (@throw A e).
Proof. intros s. exists []. cbn. now rewrite app_nil_r. Qed.

Lemma grows_bind {A B} (m : M A) (f : A -> M B) :
  grows m -> (forall a, grows (f a)) -> grows (bind m f).
Proof.
  intros Hm Hf s. unfold bind. destruct (Hm s) as [g Hg].
  destruct (m s) as [[a|e] s']; cbn [snd] in *; [|eauto].
  destruct (Hf a s') as [g' Hg']. exists (g ++ g').
  now rewrite Hg', Hg, app_assoc.
Qed.

Lemma grows_try_catch {A} (m : M A) h :
  grows m -> (forall e, grows (h e)) -> grows (try_catch m h).
Proof.
  intros Hm Hh s. unfold try_catch. destruct (Hm s) as [g Hg].
  destruct (m s) as [[a|e] s']; cbn [snd] in *; [eauto|].
  destruct (Hh e s') as [g' Hg']. exists (g ++ g').
  now rewrite Hg', Hg, app_assoc.
Qed.

Lemma grows_perform env c : grows (perform env c).
Proof. intros s. exists [c]. unfold perform. now destruct (server env (calls s) c). Qed.

Lemma grows_downloadAttachments env messages prefix :
  grows (downloadAttachments env messages prefix).
Proof.
  intros s. eexists. unfold downloadAttachments.
  destruct (downloadAttachments_result env (calls s) messages prefix); reflexivity.
Qed.

Lemma grows_same {A} (m : M A) : (forall s, calls (snd (m s)) = calls s) -> grows m.
Proof. intros H s. exists []. now rewrite H, app_nil_r. Qed.

Lemma grows_get_items : grows get_items.
Proof. now apply grows_same. Qed.

Lemma grows_get_qs : grows get_qs.
Proof. now apply grows_same. Qed.

Lemma grows_get_returnData : grows get_returnData.
Proof. now apply grows_same. Qed.

Lemma grows_get_item i : grows (get_item i).
Proof. apply grows_same. intros s. unfold get_item. now destruct (items s !! i). Qed.

Lemma grows_set_qs k v : grows (set_qs k v).
Proof. now apply grows_same. Qed.

Lemma grows_push b : grows (push b).
Proof. now apply grows_same. Qed.

Lemma grows_lift_result {A} (r : Error + A) : grows (lift_result r).
Proof. apply grows_same. intros s. now destruct r. Qed.

Lemma grows_prop v k : grows (prop v k).
Proof. apply grows_same. intros s. now destruct v. Qed.

Lemma grows_when_ c m : grows m -> grows (when_ c m).
Proof. intros Hm. destruct c; [assumption | apply grows_ret]. Qed.

Lemma grows_for_of {A} (l : list A) f :
  (forall x, grows (f x)) -> grows (for_of l f).
Proof.
  intros Hf. induction l as [|x l IH]; cbn; [apply grows_ret|].
  apply grows_bind; [apply Hf | intros _; exact IH].
Qed.

Lemma grows_upload_chunks env fuel url buf c o :
  grows (upload_chunks env fuel url buf c o).
Proof.
  revert o. induction fuel as [|fuel IH]; intros o; cbn [upload_chunks];
    [apply grows_ret|].
  destruct (o <? buffer_length buf); [|apply grows_ret].
  apply grows_bind; [apply grows_perform | intros _; apply IH].
Qed.

Create HintDb grows discriminated.
#[local] Hint Resolve grows_ret grows_throw grows_perform
  grows_downloadAttachments grows_get_items grows_get_qs
  grows_get_returnData grows_get_item grows_set_qs
  grows_push grows_lift_result grows_prop
  grows_upload_chunks : grows.

Ltac grows_step :=
  match goal with
  | |- grows (bind _ _) => apply grows_bind; [ | intros ? ]
  | |- grows (when_ _ _) => apply grows_when_
  | |- grows (for_of _ _) => apply grows_for_of; intros ?
  | |- grows (if ?c then _ else _) => destruct c
  | |- grows (match ?x with _ => _ end) => destruct x
  | |- grows _ => solve [ auto with grows ]
  end.

Ltac grows_solve :=
  unfold microsoftApiRequest, microsoftApiRequestAllItems, helpers_request,
    list_request, getBinaryDataBuffer;
  cbv zeta;
  repeat grows_step.

Section Grows.

Variables (env : Env) (i : nat).

Lemma message_delete_grows : grows (message_delete_try env i).
Proof. unfold message_delete_try. grows_solve. Qed.

Lemma message_get_grows : grows (message_get_try env i).
Proof. unfold message_get_try. grows_solve. Qed.

Lemma message_update_grows : grows (message_update_try env i).
Proof. unfold message_update_try. grows_solve. Qed.

Lemma draft_create_grows : grows (draft_create_try env i).
Proof. unfold draft_create_try. grows_solve. Qed.

Lemma draft_send_grows : grows (draft_send_try env i).
Proof. unfold draft_send_try. grows_solve. Qed.

Lemma message_reply_grows : grows (message_reply_try env i).
Proof. unfold message_reply_try. grows_solve. Qed.

Lemma message_getAll_grows : grows (message_getAll_try env i).
Proof. unfold message_getAll_try. grows_solve. Qed.

Lemma message_move_grows : grows (message_move_try env i).
Proof. unfold message_move_try. grows_solve. Qed.

Lemma message_send_grows : grows (message_send_try env i).
Proof. unfold message_send_try. grows_solve. Qed.

Lemma messageAttachment_add_grows : grows (messageAttachment_add_try env i).
Proof. unfold messageAttachment_add_try. grows_solve. Qed.

Lemma messageAttachment_get_grows : grows (messageAttachment_get_try env i).
Proof. unfold messageAttachment_get_try. grows_solve. Qed.

Lemma messageAttachment_getAll_grows : grows (messageAttachment_getAll_try env i).
Proof. unfold messageAttachment_getAll_try. grows_solve. Qed.

Lemma folder_create_grows : grows (folder_create_try env i).
Proof. unfold folder_create_try. grows_solve. Qed.

Lemma folder_delete_grows : grows (folder_delete_try env i).
Proof. unfold folder_delete_try. grows_solve. Qed.

Lemma folder_get_grows : grows (folder_get_try env i).
Proof. unfold folder_get_try. grows_solve. Qed.

Lemma folder_getAll_grows : grows (folder_getAll_try env i).
Proof. unfold folder_getAll_try. grows_solve. Qed.

Lemma folder_getChildren_grows : grows (folder_getChildren_try env i).
Proof. unfold folder_getChildren_try. grows_solve. Qed.

Lemma folder_update_grows : grows (folder_update_try env i).
Proof. unfold folder_update_try. grows_solve. Qed.

Lemma folderMessage_grows operation : grows (folderMessage_try env operation i).
Proof. unfold folderMessage_try. grows_solve. Qed.

End Grows.

Lemma operation_try_grows env i :
  returns_items (getNodeParameter env "resource" 0)
    (getNodeParameter env "operation" 0) = false ->
  grows (operation_try env i).
Proof.
  unfold operation_try, returns_items, includes, existsb.
  by_operation.
  all: intros Hacc; try discriminate Hacc.
  all: first
    [ apply message_delete_grows | apply message_get_grows
    | apply message_update_grows | apply draft_create_grows
    | apply draft_send_grows | apply message_reply_grows
    | apply message_getAll_grows
    | apply message_move_grows | apply message_send_grows
    | apply messageAttachment_add_grows
    | apply messageAttachment_get_grows
    | apply messageAttachment_getAll_grows
    | apply folder_create_grows | apply folder_delete_grows
    | apply folder_get_grows | apply folder_getAll_grows
    | apply folder_getChildren_grows | apply folder_update_grows
    | apply folderMessage_grows
    | apply grows_ret ].
Qed.

(** ** The records of an item are those of its payload *)

Ltac answers_unfold :=
  unfold list_request, microsoftApiRequest, microsoftApiRequestAllItems, bind,
    perform, get_qs, set_qs, when_, push, ret, prop, throw, downloadAttachments,
    get_items, get_returnData, lift_result, item_block.

Ltac answers_reduce :=
  unfold ret, throw;
  cbv beta iota; cbn [calls returnData qs items fst snd replaced negb] in *.

Ltac answers_case :=
  match goal with
  | |- context [server ?e ?h ?c] =>
      let H := fresh "Hsrv" in destruct (server e h c) eqn:H
  | |- context [downloadAttachments_result ?e ?h ?m ?p] =>
      let H := fresh "Hdl" in destruct (downloadAttachments_result e h m p) eqn:H
  | |- context [binaryToAttachments ?e ?a ?l ?i] =>
      destruct (binaryToAttachments e a l i)
  | |- context [truthy ?x] => destruct (truthy x)
  | |- context [match ?x with JUndefined => _ | _ => _ end] => destruct x
  end.

Ltac answers_leaf :=
  first
    [ exact I
    | do 3 eexists; split;
      [ | split;
          [ eassumption
          | split;
            [ try match goal with
                  | H : downloadAttachments_result _ _ _ _ = _ |- _ => rewrite H
                  end;
              reflexivity
            | first [ intros H; discriminate H
                    | intros _; eexists; eassumption ] ] ] ];
      cbn [calls]; rewrite <- ?app_assoc; reflexivity ].

Ltac answers_cases :=
  intros s; answers_unfold; answers_reduce;
  once (repeat (once answers_case; answers_reduce)).

Lemma message_update_answers env i : answers env i false false (message_update_try env i).
Proof. unfold message_update_try. answers_cases. all: try answers_leaf. Qed.

Lemma folder_getAll_answers env i :
  answers env i (negb (truthy (getNodeParameter env "returnAll" i))) false
    (folder_getAll_try env i).
Proof. unfold folder_getAll_try. answers_cases. all: try answers_leaf. Qed.

Lemma message_getAll_answers env i :
  answers env i (negb (truthy (getNodeParameter env "returnAll" i)))
    (truthy (field (getNodeParameter env "additionalFields" i)
               "dataPropertyAttachmentsPrefixName"))
    (message_getAll_try env i).
Proof. unfold message_getAll_try. answers_cases. all: try answers_leaf. Qed.

Lemma message_get_answers env i :
  answers env i false false (message_get_try env i).
Proof. unfold message_get_try. answers_cases. all: try answers_leaf. Qed.

Lemma draft_create_answers env i : answers env i false false (draft_create_try env i).
Proof. unfold draft_create_try. answers_cases. all: try answers_leaf. Qed.

Lemma messageAttachment_get_answers env i :
  answers env i false false (messageAttachment_get_try env i).
Proof. unfold messageAttachment_get_try. answers_cases. all: try answers_leaf. Qed.

Lemma messageAttachment_getAll_answers env i :
  answers env i (negb (truthy (getNodeParameter env "returnAll" i))) false
    (messageAttachment_getAll_try env i).
Proof. unfold messageAttachment_getAll_try. answers_cases. all: try answers_leaf. Qed.

Lemma folder_create_answers env i : answers env i false false (folder_create_try env i).
Proof. unfold folder_create_try. destruct (strict_eq _ _); answers_cases. all: try answers_leaf. Qed.

Lemma folder_get_answers env i : answers env i false false (folder_get_try env i).
Proof. unfold folder_get_try. answers_cases. all: try answers_leaf. Qed.

Lemma folder_getChildren_answers env i :
  answers env i (negb (truthy (getNodeParameter env "returnAll" i))) false
    (folder_getChildren_try env i).
Proof. unfold folder_getChildren_try. answers_cases. all: try answers_leaf. Qed.

Lemma folder_update_answers env i : answers env i false false (folder_update_try env i).
Proof. unfold folder_update_try. answers_cases. all: try answers_leaf. Qed.

Lemma folderMessage_answers env i :
  answers env i (negb (truthy (getNodeParameter env "returnAll" i))) false
    (folderMessage_try env (JStr "getAll") i).
Proof.
  unfold folderMessage_try. change (strict_eq (JStr "getAll") "getAll") with true.
  cbv iota. answers_cases. all: try answers_leaf.
Qed.

(** What follows the first request of an operation only adds calls, and
    ends by pushing the records of the answer. *)
Lemma pushes_after (m : M unit) b (k : M Signal) s :
  silent m -> grows m ->
  (forall s1,
     match k s1 with
     | (Normal Continue, s') =>
         returnData s' = returnData s1 ++ b /\
         exists group, calls s' = calls s1 ++ group
     | _ => True
     end) ->
  match (m ;; k) s with
  | (Normal Continue, s') =>
      returnData s' = returnData s ++ b /\
      exists group, calls s' = calls s ++ group
  | _ => True
  end.
Proof.
  intros Hsilent Hgrows Hk. unfold bind.
  specialize (Hsilent s). destruct (Hgrows s) as [g Hg].
  destruct (m s) as [[[]|e] s1]; [|exact I]. cbn [snd] in *.
  specialize (Hk s1). destruct (k s1) as [[[|out]|e] s']; try exact I.
  destruct Hk as (Hret & g' & Hg'). split; [congruence|].
  exists (g ++ g'). now rewrite Hg', Hg, app_assoc.
Qed.

Lemma answers_first_request env i c (k : JsonValue -> M Signal) :
  (forall answer s1,
     match k answer s1 with
     | (Normal Continue, s') =>
         returnData s'
         = returnData s1 ++ constructExecutionMetaData (returnJsonArray answer) i /\
         exists group, calls s' = calls s1 ++ group
     | _ => True
     end) ->
  answers env i false false (let! answer := perform env c in k answer).
Proof.
  intros Hk s.
  destruct (server env (calls s) c) as [e|answer] eqn:Hsrv.
  - rewrite (bind_throw _ _ _ _ _ (perform_fail _ _ _ _ Hsrv)). exact I.
  - rewrite (bind_normal _ _ _ _ _ (perform_ok _ _ _ _ Hsrv)).
    specialize (Hk answer (call_state [c] s)).
    destruct (k answer (call_state [c] s)) as [[[|out]|e] s']; try exact I.
    destruct Hk as (Hret & g & Hg). exists c, g, answer.
    split; [rewrite Hg; cbn; now rewrite <- app_assoc|].
    split; [exact Hsrv|].
    split; [exact Hret | intros H; discriminate H].
Qed.

Lemma message_reply_answers env i : answers env i false false (message_reply_try env i).
Proof.
  unfold message_reply_try. cbv zeta.
  destruct (strict_eq (getNodeParameter env "replyType" i) "replyAll").
  all: unfold microsoftApiRequest at 1; apply answers_first_request.
  all: intros answer s1.
  all: apply pushes_after; [silent_solve | grows_solve |]; intros s2.
  all: apply pushes_after; [silent_solve | grows_solve |]; intros s3.
  all: cbn; split; [reflexivity|]; exists []; now rewrite app_nil_r.
Qed.

(** The [try] block of every operation that does not answer
    [{ success: true }]. *)
Lemma operation_try_answers env i :
  handled (getNodeParameter env "resource" 0) (getNodeParameter env "operation" 0)
  = true ->
  single_record_operation (getNodeParameter env "resource" 0)
    (getNodeParameter env "operation" 0) = false ->
  returns_items (getNodeParameter env "resource" 0)
    (getNodeParameter env "operation" 0) = false ->
  answers env i (one_page env i) (getAll_with_prefix env i) (operation_try env i).
Proof.
  destruct (strict_eq (getNodeParameter env "resource" 0) "folderMessage") eqn:Hfm.
  - apply strict_eq_true in Hfm. intros Hhandled _ _.
    assert (Ho : getNodeParameter env "operation" 0 = JStr "getAll").
    { rewrite Hfm in Hhandled. apply strict_eq_true. exact Hhandled. }
    assert (Htry : operation_try env = folderMessage_try env (JStr "getAll"))
      by (unfold operation_try; now rewrite Hfm, Ho).
    rewrite Htry. unfold one_page, getAll_with_prefix, list_operation.
    rewrite Hfm, Ho.
    apply folderMessage_answers.
  - revert Hfm.
    unfold operation_try, handled, single_record_operation, returns_items,
      one_page, list_operation, getAll_with_prefix, includes, existsb.
    by_operation.
    all: intros Hfm Hhandled Hsingle Hacc.
    all: try discriminate Hfm; try discriminate Hhandled;
      try discriminate Hsingle; try discriminate Hacc.
    all: first
      [ apply message_get_answers | apply message_update_answers
      | apply draft_create_answers | apply message_reply_answers
      | apply message_getAll_answers
      | apply messageAttachment_get_answers
      | apply messageAttachment_getAll_answers
      | apply folder_create_answers | apply folder_get_answers
      | apply folder_getAll_answers | apply folder_getChildren_answers
      | apply folder_update_answers ].
Qed.

(** ** Every item contributes the block of its payload *)

Lemma operation_try_unhandled env i s :
  handled (getNodeParameter env "resource" 0) (getNodeParameter env "operation" 0)
  = false ->
  operation_try env i s = (Normal Continue, s).
Proof.
  unfold handled, operation_try, folderMessage_try, includes, existsb.
  by_operation; intros H; try discriminate H; reflexivity.
Qed.

Lemma tagged_payload i payload :
  constructExecutionMetaData (returnJsonArray payload) i
  = match payload with
    | JArr elements => payload_record i <$> elements
    | _ => [payload_record i payload]
    end.
Proof.
  unfold constructExecutionMetaData, returnJsonArray.
  destruct payload; try reflexivity.
  rewrite <- list_fmap_compose. reflexivity.
Qed.

Lemma single_not_getAll env i :
  single_record_operation (getNodeParameter env "resource" 0)
    (getNodeParameter env "operation" 0) = true ->
  getAll_with_prefix env i = false.
Proof.
  unfold single_record_operation, getAll_with_prefix, includes, existsb.
  rewrite !strict_eq_str_of.
  generalize (str_of (getNodeParameter env "resource" 0))
    (str_of (getNodeParameter env "operation" 0)). intros R O.
  repeat (split_test; eval_tests; cbn [andb orb]); intros H;
    try discriminate H; reflexivity.
Qed.

Lemma getAll_with_prefix_one_page env i :
  getAll_with_prefix env i = true ->
  one_page env i
  = negb (truthy (getNodeParameter env "returnAll" i)) /\
  handled (getNodeParameter env "resource" 0) (getNodeParameter env "operation" 0)
  = true.
Proof.
  unfold getAll_with_prefix, one_page, list_operation, handled, includes, existsb.
  intros H. apply andb_true_iff in H as [H _]. apply andb_true_iff in H as [Hr Ho].
  apply strict_eq_true in Hr, Ho. rewrite Hr, Ho. split; reflexivity.
Qed.

(** With continue-on-fail, an accumulating item goes on to the next one and
    leaves the block of its payload, or the marker of its failure. *)
Lemma item_body_contributes env i s :
  continueOnFail env = true ->
  returns_items (getNodeParameter env "resource" 0)
    (getNodeParameter env "operation" 0) = false ->
  get_with_prefix env i = false ->
  exists b g s',
    item_body env i s = (Normal Continue, s') /\
    returnData s' = returnData s ++ b /\
    calls s' = calls s ++ g /\
    Forall (origin i) b /\
    contributes env i s g b.
Proof.
  intros Hcof Hacc Hpre. unfold item_body, try_catch, operation_catch, contributes.
  rewrite Hacc.
  pose proof (operation_try_spec env i s) as Hspec. rewrite Hpre in Hspec.
  destruct (operation_try_grows env i Hacc s) as [g Hg].
  destruct (handled (getNodeParameter env "resource" 0)
              (getNodeParameter env "operation" 0)) eqn:Hhandled.
  2: { rewrite (operation_try_unhandled env i s Hhandled). cbn [fst].
       exists [], [], s. rewrite !app_nil_r. repeat split; [constructor|].
       now apply block_none. }
  destruct (single_record_operation (getNodeParameter env "resource" 0)
              (getNodeParameter env "operation" 0)) eqn:Hsingle.
  { destruct (operation_try env i s) as [[[|out]|e] s']; cbn [fst snd] in *.
    - destruct Hspec as (b & Hb & Hob & Hs). exists b, g, s'.
      repeat split; try assumption. apply block_success; auto.
    - destruct Hspec as [H _]. discriminate H.
    - rewrite (catch_push_continue _ _ _ _ Hcof).
      exists [error_record i e], g. eexists. split; [reflexivity|].
      cbn. rewrite Hspec. repeat split; try assumption. repeat constructor. }
  pose proof (operation_try_answers env i Hhandled Hsingle Hacc s) as Hans.
  destruct (operation_try env i s) as [[[|out]|e] s']; cbn [fst snd] in *.
  - destruct Hspec as (b & Hb & Hob & _).
    destruct Hans as (c & rest & answer & Hcalls & Hsrv & Hret & Hdl).
    exists b, (c :: rest), s'. repeat split; try assumption.
    rewrite Hb in Hret. apply app_inv_head in Hret. subst b.
    unfold item_block.
    destruct (getAll_with_prefix env i) eqn:Hgp.
    + destruct (Hdl eq_refl) as [data Hdata]. rewrite Hdata.
      eapply block_download; try eassumption; try reflexivity.
    + rewrite tagged_payload. fold (item_payload env i answer).
      destruct (item_payload env i answer) eqn:Hpayload.
      all: try (eapply block_single; try eassumption; try reflexivity;
                rewrite Hpayload; try reflexivity; intros elements H; discriminate H).
      eapply block_bulk; try eassumption; reflexivity.
  - destruct Hspec as [H _]. discriminate H.
  - rewrite (catch_push_continue _ _ _ _ Hcof).
    exists [error_record i e], g. eexists. split; [reflexivity|].
    cbn. rewrite Hspec. repeat split; try assumption. repeat constructor.
Qed.

Lemma for_loop_groups
    (Q : nat -> State -> list Call -> list INodeExecutionData -> Prop) body n :
  forall lo s,
    (forall i s, (lo <= i < lo + n)%nat ->
       exists b g s', body i s = (Normal Continue, s') /\
                      returnData s' = returnData s ++ b /\
                      calls s' = calls s ++ g /\ Q i s g b) ->
    exists blocks groups s',
      for_loop body lo n s = (Normal Continue, s') /\
      returnData s' = returnData s ++ concat blocks /\
      calls s' = calls s ++ concat groups /\
      length blocks = n /\ length groups = n /\
      forall k b g, blocks !! k = Some b -> groups !! k = Some g ->
        returnData (snd (for_loop body lo k s))
        = returnData s ++ concat (take k blocks) /\
        calls (snd (for_loop body lo k s)) = calls s ++ concat (take k groups) /\
        Q (lo + k)%nat (snd (for_loop body lo k s)) g b.
Proof.
  induction n as [|n IH]; intros lo s Hbody.
  - exists [], [], s. cbn. rewrite !app_nil_r.
    do 5 (split; [reflexivity|]). intros k b g Hk. discriminate Hk.
  - destruct (Hbody lo s ltac:(lia)) as (b & g & s1 & Hb & Hr & Hc & HQ).
    destruct (IH (S lo) s1) as (blocks & groups & s' & Hloop & Hr' & Hc' & Hlen & Hlen' & Hall).
    { intros i s0 Hi. apply Hbody. lia. }
    exists (b :: blocks), (g :: groups), s'. rewrite (for_loop_step _ _ _ _ _ Hb).
    split; [assumption|]. split; [cbn; rewrite Hr', Hr, app_assoc; reflexivity|].
    split; [cbn; rewrite Hc', Hc, app_assoc; reflexivity|].
    split; [cbn; lia|]. split; [cbn; lia|].
    intros [|k] b' g' Hk Hk'; cbn in Hk, Hk'.
    + injection Hk as <-. injection Hk' as <-. cbn. rewrite !app_nil_r, Nat.add_0_r.
      auto.
    + rewrite (for_loop_step _ _ _ _ _ Hb).
      destruct (Hall k b' g' Hk Hk') as (H1 & H2 & H3).
      cbn [take concat]. rewrite H1, H2, Hr, Hc, !app_assoc.
      replace (lo + S k)%nat with (S lo + k)%nat by lia. auto.
Qed.

Lemma single_handled resource operation :
  single_record_operation resource operation = true ->
  handled resource operation = true.
Proof.
  unfold single_record_operation, handled, includes, existsb.
  rewrite !strict_eq_str_of.
  generalize (str_of resource) (str_of operation). intros R O.
  repeat (split_test; eval_tests; cbn [andb orb]); intros H;
    try discriminate H; reflexivity.
Qed.

(** ** Result accumulation (C1) *)

(** C1, amended.  With continue-on-fail enabled, a result-accumulation
    operation (every operation but [message.getMime] and
    [messageAttachment.download]) on an input where no item of a [get] asks
    for the attachment download returns the concatenation, in item order, of
    one block of records per input item, block [i] holding only records of
    origin [i].  Block [i] is the error marker of the failure when the [try]
    block of item [i] throws; otherwise it is one success record for the
    operations that answer [{ success: true }] (delete, send, move, add),
    and for the others the records of the item's payload (the answer to its
    first request, or the [value] of that answer when a list operation asks
    for one page): one record for a payload that is a single object, one
    record per element, in order, for a bulk payload, one record per
    downloaded item when [message.getAll] downloads the attachments.  So the
    output has one record per item, position [i] carrying origin [i], for
    the success operations, whenever every block has one record, and for
    every handled operation none of whose payloads is a bulk result. *)
Theorem C1_accumulated_blocks env input :
  continueOnFail env = true ->
  returns_items (getNodeParameter env "resource" 0)
    (getNodeParameter env "operation" 0) = false ->
  (forall i, (i < length input)%nat -> get_with_prefix env i = false) ->
  exists blocks groups,
    fst (execute env input) = Normal [concat blocks] /\
    calls (snd (execute env input)) = concat groups /\
    length blocks = length input /\
    length groups = length input /\
    (forall i b, blocks !! i = Some b -> Forall (origin i) b) /\
    (forall i b g, blocks !! i = Some b -> groups !! i = Some g ->
       returnData (before env input i) = concat (take i blocks) /\
       calls (before env input i) = concat (take i groups) /\
       contributes env i (before env input i) g b) /\
    (single_record_operation (getNodeParameter env "resource" 0)
       (getNodeParameter env "operation" 0) = true ->
     (forall i b, blocks !! i = Some b ->
                  b = [success_record i] \/ exists e, b = [error_record i e]) /\
     one_record_per_item input [concat blocks]) /\
    ((forall b, b ∈ blocks -> length b = 1%nat) ->
     one_record_per_item input [concat blocks]) /\
    (handled (getNodeParameter env "resource" 0)
       (getNodeParameter env "operation" 0) = true ->
     (forall i, (i < length input)%nat -> single_payloads env i) ->
     one_record_per_item input [concat blocks]).
Proof.
  intros Hcof Hacc Hpre.
  destruct (for_loop_groups
              (fun i s g b => Forall (origin i) b /\ contributes env i s g b)
              (item_body env) (length input) 0%nat (initial_state input))
    as (blocks & groups & s' & Hloop & Hret & Hcalls & Hlen & Hlen' & Hall).
  { intros i s Hi.
    destruct (item_body_contributes env i s Hcof Hacc) as (b & g & s1 & H);
      [apply Hpre; lia|].
    exists b, g, s1. tauto. }
  cbn in Hret, Hcalls. cbn [Nat.add app initial_state returnData calls] in Hall.
  assert (Hgroup : forall i b, blocks !! i = Some b -> exists g, groups !! i = Some g).
  { intros i b Hb. apply lookup_lt_is_Some_2. rewrite Hlen', <- Hlen.
    eapply lookup_lt_is_Some_1; eauto. }
  assert (Htag : forall i b, blocks !! i = Some b -> Forall (origin i) b).
  { intros i b Hb. destruct (Hgroup i b Hb) as [g Hg].
    now destruct (Hall i b g Hb Hg) as (_ & _ & Ho & _). }
  assert (Hone : (forall b, b ∈ blocks -> length b = 1%nat) ->
                 one_record_per_item input [concat blocks]).
  { intros Hsingle. destruct (concat_singletons blocks Hsingle) as [Hl Hget].
    exists (concat blocks). split; [reflexivity|]. split; [congruence|].
    intros i Hi. destruct (lookup_lt_is_Some_2 blocks i) as [b Hb]; [lia|].
    destruct (Hget i b Hb) as (r & -> & Hr). exists r. split; [assumption|].
    specialize (Htag i _ Hb). now inversion Htag. }
  assert (Hsuccess :
    single_record_operation (getNodeParameter env "resource" 0)
      (getNodeParameter env "operation" 0) = true ->
    forall i b, blocks !! i = Some b ->
                b = [success_record i] \/ exists e, b = [error_record i e]).
  { intros Hsingle i b Hb. destruct (Hgroup i b Hb) as [g Hg].
    destruct (Hall i b g Hb Hg) as (_ & _ & _ & Hc). unfold contributes in Hc.
    match type of Hc with
    | match ?run with _ => _ end => destruct run as [v|e]; [|right; eauto]
    end.
    destruct Hc as [Hh| |? ? ? ? Hs|? ? ? ? ? Hs|? ? ? ? Hgp]; [|left; assumption|..].
    - now rewrite (single_handled _ _ Hsingle) in Hh.
    - now rewrite Hsingle in Hs.
    - now rewrite Hsingle in Hs.
    - now rewrite (single_not_getAll env i Hsingle) in Hgp. }
  exists blocks, groups. rewrite execute_unfold, Hloop, Hacc. cbn [fst snd].
  rewrite Hret, Hcalls.
  do 4 (split; [reflexivity || assumption|]). split; [exact Htag|].
  split; [|split; [|split]].
  - intros i b g Hb Hg. destruct (Hall i b g Hb Hg) as (H1 & H2 & _ & H3).
    unfold before. now rewrite H1, H2.
  - intros Hsingle. split; [now apply Hsuccess|].
    apply Hone. intros b Hb. apply list_elem_of_lookup in Hb as [i Hb].
    now destruct (Hsuccess Hsingle i b Hb) as [-> | [e ->]].
  - exact Hone.
  - intros Hhandled Hpayloads. apply Hone. intros b Hb.
    apply list_elem_of_lookup in Hb as [i Hb]. destruct (Hgroup i b Hb) as [g Hg].
    assert (Hi : (i < length input)%nat)
      by (rewrite <- Hlen; eapply lookup_lt_is_Some_1; eauto).
    destruct (Hpayloads i Hi) as [Hgp Hnot].
    destruct (Hall i b g Hb Hg) as (_ & _ & _ & Hc). unfold contributes in Hc.
    match type of Hc with
    | match ?run with _ => _ end => destruct run as [v|e]; [|now subst b]
    end.
    destruct Hc as [Hh| |? ? ? ? ? ? ? ? ?|? ? ? ? ? ? ? ? Hsrv Hp|? ? ? ? Hgp'].
    + now rewrite Hhandled in Hh.
    + now subst b.
    + now subst b.
    + now destruct (Hnot _ _ _ _ Hsrv Hp).
    + now rewrite Hgp in Hgp'.
Qed.

(** [message.delete] on five items, the second request refused: five
    records, one per item.  [messageAttachment.get] on two items, every
    answer a single object: two records, one per item. *)
Lemma C1_accumulated_blocks_witness :
  (exists blocks,
     fst (execute isolate_env (replicate 5 plain_item)) = Normal [concat blocks] /\
     one_record_per_item (replicate 5 plain_item) [concat blocks]) /\
  (exists blocks,
     fst (execute select_env [plain_item; plain_item]) = Normal [concat blocks] /\
     one_record_per_item [plain_item; plain_item] [concat blocks]).
Proof.
  split.
  - destruct (C1_accumulated_blocks isolate_env (replicate 5 plain_item))
      as (blocks & groups & Hrun & _ & _ & _ & _ & _ & Hsingle & _).
    + reflexivity.
    + reflexivity.
    + intros i _. reflexivity.
    + exists blocks. split; [exact Hrun|]. apply Hsingle. reflexivity.
  - destruct (C1_accumulated_blocks select_env [plain_item; plain_item])
      as (blocks & groups & Hrun & _ & _ & _ & _ & _ & _ & _ & Hpayloads).
    + reflexivity.
    + reflexivity.
    + intros i _. reflexivity.
    + exists blocks. split; [exact Hrun|]. apply Hpayloads; [reflexivity|].
      intros i _. split; [reflexivity|].
      intros history c answer elements Hsrv Hp.
      cbn in Hsrv. injection Hsrv as <-. vm_compute in Hp. discriminate Hp.
Defined.

(** C1 as stated fails: a page of two messages gives two records for one
    item, and a [get] with the attachment prefix returns after its first
    item. *)
Lemma C1_counterexample :
  (continueOnFail bulk_env = true /\
   returns_items (getNodeParameter bulk_env "resource" 0)
     (getNodeParameter bulk_env "operation" 0) = false /\
   exists out, fst (execute bulk_env [plain_item]) = Normal out /\
               ~ one_record_per_item [plain_item] out) /\
  (continueOnFail prefix_env = true /\
   returns_items (getNodeParameter prefix_env "resource" 0)
     (getNodeParameter prefix_env "operation" 0) = false /\
   exists out, fst (execute prefix_env [plain_item; plain_item]) = Normal out /\
               ~ one_record_per_item [plain_item; plain_item] out).
Proof.
  split; (split; [reflexivity|]); (split; [reflexivity|]).
  - eexists. split; [vm_compute; reflexivity|].
    intros (records & Heq & Hlen & _). injection Heq as <-. discriminate Hlen.
  - eexists. split; [vm_compute; reflexivity|].
    intros (records & Heq & Hlen & _). injection Heq as <-. discriminate Hlen.
Qed.

(** The [return] of lines 210-212: as soon as the [try] block of an item of
    a [get] returns, [execute] returns what that item saw in the
    accumulator, and the items after it are never looked at. *)
Lemma get_returns_inside_loop env input k s_k out s' :
  includes ["draft"; "message"] (getNodeParameter env "resource" 0) = true ->
  strict_eq (getNodeParameter env "operation" 0) "get" = true ->
  (k < length input)%nat ->
  for_loop (item_body env) 0 k (initial_state input) = (Normal Continue, s_k) ->
  message_get_try env k s_k = (Normal (Return out), s') ->
  execute env input = (Normal out, s') /\ out = [returnData s'].
Proof.
  intros Hr Ho Hk Hbefore Hreturn.
  assert (Htry : operation_try env = message_get_try env).
  { apply strict_eq_true in Ho. unfold operation_try. rewrite Ho.
    unfold includes, existsb in *. 
    destruct (strict_eq (getNodeParameter env "resource" 0) "draft") eqn:Hd;
      [reflexivity|].
    cbn [orb] in Hr. rewrite orb_false_r in Hr. rewrite Hr. reflexivity. }
  assert (Hbody : item_body env k s_k = (Normal (Return out), s')).
  { unfold item_body. rewrite Htry. now apply try_catch_normal. }
  split.
  - rewrite execute_unfold.
    replace (length input) with (k + S (length input - S k))%nat by lia.
    rewrite for_loop_app, Hbefore. cbn [Nat.add].
    now rewrite (for_loop_return _ _ _ _ _ _ Hbody).
  - pose proof (message_get_try_spec env k s_k) as Hspec.
    rewrite Hreturn in Hspec. now destruct Hspec as (_ & b & _ & _ & ->).
Qed.

(** ** Abort without continue-on-fail (C7) *)

(** C7.  With continue-on-fail disabled, if the items before [k] went
    through and the [try] block of item [k] throws [e], then [execute]
    throws that same [e] from the state the failing statement left: the
    accumulator is what the items before [k] produced, so it holds no record
    of item [k] or of any later item, and no later item is processed. *)
Theorem C7_first_failure_aborts env input k e s_k s_fail :
  continueOnFail env = false ->
  (k < length input)%nat ->
  for_loop (item_body env) 0 k (initial_state input) = (Normal Continue, s_k) ->
  operation_try env k s_k = (Throw e, s_fail) ->
  execute env input = (Throw e, s_fail) /\
  returnData s_fail = returnData s_k /\
  Forall (fun r => exists j, origin j r /\ (j < k)%nat) (returnData s_fail).
Proof.
  intros Hcof Hk Hbefore Hfail.
  assert (Hbody : item_body env k s_k = (Throw e, s_fail)).
  { unfold item_body. rewrite (try_catch_throw _ _ _ _ _ Hfail).
    now apply operation_catch_rethrow. }
  assert (Hsame : returnData s_fail = returnData s_k).
  { pose proof (operation_try_spec env k s_k) as H. now rewrite Hfail in H. }
  split; [|split; [exact Hsame|]].
  - rewrite execute_unfold.
    replace (length input) with (k + S (length input - S k))%nat by lia.
    rewrite for_loop_app, Hbefore. cbn [Nat.add].
    now rewrite (for_loop_throw _ _ _ _ _ _ Hbody).
  - rewrite Hsame.
    destruct (for_loop_origins env k 0%nat _ _ _ Hbefore) as (b & Hb & Hob).
    cbn in Hb. rewrite Hb.
    eapply Forall_impl; [exact Hob|]. intros d (j & Hj & ?). exists j. split; [assumption|lia].
Qed.

(** Five items, the second request refused: the run ends with that error
    after two calls, with the record of the first item only. *)
Lemma C7_first_failure_aborts_witness :
  execute abort_env (replicate 5 plain_item) = (Throw abort_error, abort_state) /\
  returnData abort_state = [success_record 0] /\
  length (calls abort_state) = 2%nat.
Proof.
  destruct (C7_first_failure_aborts abort_env (replicate 5 plain_item) 1
              abort_error abort_before abort_state) as (Hrun & _ & _).
  - reflexivity.
  - cbn. lia.
  - vm_compute. reflexivity.
  - vm_compute. reflexivity.
  - split; [exact Hrun|]. split; vm_compute; reflexivity.
Defined.


(** ** messageAttachment.add: validation (C8) *)

(** No file name in the additional fields and none on the binary payload:
    the file name of lines 661-664 is falsy. *)
Lemma file_name_missing env i bd :
  truthy (field (getNodeParameter env "additionalFields" i) "fileName") = false ->
  truthy (of_option_string (fileName bd)) = false ->
  truthy (attachment_fileName env i bd) = false.
Proof.
  intros Hf Hb. unfold attachment_fileName. cbv zeta.
  now destruct (is_undefined _).
Qed.

Lemma add_body_error env i n s e s' :
  continueOnFail env = true ->
  messageAttachment_add_try env i s = (Throw e, s') ->
  add_body env i s = (Normal Continue, push_state [error_record i e] s') /\
  for_loop (add_body env) i (S n) s
  = for_loop (add_body env) (S i) n (push_state [error_record i e] s').
Proof.
  intros Hcof Htry.
  assert (Hbody : add_body env i s = (Normal Continue, push_state [error_record i e] s')).
  { unfold add_body. rewrite (try_catch_throw _ _ _ _ _ Htry).
    now apply catch_push_continue. }
  split; [exact Hbody | now apply for_loop_step].
Qed.

(** C8.  An item of [messageAttachment.add] that has no binary data, lacks
    the named binary property, or has no file name (neither in the
    additional fields nor on the binary payload) makes the [try] block throw
    a [NodeOperationError] in the very state it started from: no call has
    been made for the item and none is repeated.  With continue-on-fail the
    [catch] block records that error as the item's error record and the
    loop goes on with the next item. *)
Theorem C8_validation_error_isolated env i n s x :
  items s !! i = Some x ->
  invalid_attachment env i x ->
  exists message itemIndex,
    let error := NodeOperationError message itemIndex in
    messageAttachment_add_try env i s = (Throw error, s) /\
    (continueOnFail env = true ->
     add_body env i s = (Normal Continue, push_state [error_record i error] s) /\
     for_loop (add_body env) i (S n) s
     = for_loop (add_body env) (S i) n (push_state [error_record i error] s)).
Proof.
  intros Hi Hinv.
  destruct (add_try_invalid env i s x Hi Hinv) as (message & itemIndex & Htry).
  exists message, itemIndex. cbv zeta. split; [exact Htry|].
  intros Hcof. now apply add_body_error.
Qed.

(** ** messageAttachment.add: the upload session (C5) *)

Lemma prop_undefined_field v k s :
  field v k = JUndefined ->
  (exists e, prop v k s = (Throw e, s)) \/ prop v k s = (Normal JUndefined, s).
Proof.
  intros H. destruct v; cbn; eauto; right; cbn in H; now rewrite H.
Qed.

Lemma prop_defined v k s :
  is_undefined (field v k) = false -> prop v k s = (Normal (field v k), s).
Proof. intros H. destruct v; cbn in *; congruence || reflexivity. Qed.

Lemma attachment_transfer_no_url env i fileName dataBuffer s response :
  3000000 < buffer_length dataBuffer ->
  server env (calls s) (session_call env i fileName (buffer_length dataBuffer))
  = inr response ->
  field response "uploadUrl" = JUndefined ->
  exists e,
    attachment_transfer env i fileName dataBuffer s
    = (Throw e, call_state [session_call env i fileName (buffer_length dataBuffer)] s) /\
    (response <> JUndefined -> response <> JNull ->
     e = NodeApiError response "Failed to get upload session").
Proof.
  intros Hbig Hsrv Hurl. unfold attachment_transfer.
  apply Z.ltb_lt in Hbig. rewrite Hbig.
  rewrite (bind_normal _ _ _ _ _ (perform_ok _ _ _ _ Hsrv)).
  unfold bind. destruct response; cbn in *; try rewrite Hurl; cbn; eauto;
    eexists; (split; [reflexivity|]); intros; congruence.
Qed.

(** C5.  For a buffer over 3,000,000 bytes, when the answer to the
    upload-session request holds no [uploadUrl], the [try] block throws
    after exactly one call, the session request: no chunk [PUT] and no second
    session request.  The error is the [NodeApiError] "Failed to get upload
    session" built from that answer.  With continue-on-fail it becomes the
    item's error record and the loop goes on with the next item. *)
Theorem C5_missing_upload_url env i n s x bd response :
  items s !! i = Some x ->
  valid_attachment env i x bd ->
  3000000 < buffer_length (data bd) ->
  let session :=
    session_call env i (attachment_fileName env i bd) (buffer_length (data bd)) in
  server env (calls s) session = inr response ->
  field response "uploadUrl" = JUndefined ->
  exists error,
    messageAttachment_add_try env i s = (Throw error, call_state [session] s) /\
    (response <> JUndefined -> response <> JNull ->
     error = NodeApiError response "Failed to get upload session") /\
    (continueOnFail env = true ->
     let s' := push_state [error_record i error] (call_state [session] s) in
     add_body env i s = (Normal Continue, s') /\
     for_loop (add_body env) i (S n) s = for_loop (add_body env) (S i) n s').
Proof.
  intros Hi Hvalid Hbig session Hsrv Hurl.
  destruct (attachment_transfer_no_url env i _ _ s response Hbig Hsrv Hurl)
    as (error & Htransfer & Hkind).
  assert (Htry : messageAttachment_add_try env i s = (Throw error, call_state [session] s)).
  { rewrite (add_try_valid env i s x bd Hi Hvalid).
    now rewrite (bind_throw _ _ _ _ _ Htransfer). }
  exists error. split; [exact Htry|]. split; [exact Hkind|].
  intros Hcof. now apply add_body_error.
Qed.

(** ** messageAttachment.add: the two transfer paths (C3, C2) *)

Lemma upload_chunks_calls env uploadUrl dataBuffer fuel :
  forall k s,
    exists puts,
      calls (snd (upload_chunks env fuel uploadUrl dataBuffer 4000000
                    (chunk_start 4000000 k) s)) = calls s ++ puts /\
      Forall (is_chunk_put uploadUrl dataBuffer) puts.
Proof.
  induction fuel as [|fuel IH]; intros k s.
  - exists []. cbn. now rewrite app_nil_r.
  - cbn [upload_chunks].
    destruct (chunk_start 4000000 k <? buffer_length dataBuffer).
    + rewrite chunk_end_eq, chunk_start_succ.
      fold (put_call uploadUrl dataBuffer (chunk_start 4000000 k)
              (chunk_end 4000000 (buffer_length dataBuffer) k)).
      fold (chunk_put 4000000 uploadUrl dataBuffer k).
      unfold helpers_request.
      destruct (server env (calls s) (chunk_put 4000000 uploadUrl dataBuffer k))
        as [e|v] eqn:Hsrv.
      * rewrite (bind_throw _ _ _ _ _ (perform_fail _ _ _ _ Hsrv)).
        exists [chunk_put 4000000 uploadUrl dataBuffer k]. split; [reflexivity|].
        repeat constructor. now exists k.
      * rewrite (bind_normal _ _ _ _ _ (perform_ok _ _ _ _ Hsrv)).
        destruct (IH (S k) (call_state [chunk_put 4000000 uploadUrl dataBuffer k] s))
          as (puts & Hc & Hp).
        exists (chunk_put 4000000 uploadUrl dataBuffer k :: puts).
        rewrite Hc. cbn. rewrite <- app_assoc.
        split; [reflexivity|]. constructor; [now exists k | assumption].
    + exists []. cbn. now rewrite app_nil_r.
Qed.

Lemma prop_state v k s r s' : prop v k s = (r, s') -> s' = s.
Proof. destruct v; unfold prop, ret, throw; intros [= _ <-]; reflexivity. Qed.

Lemma calls_then_push (m : M unit) b s :
  calls (snd ((m ;; push b ;; ret Continue) s)) = calls (snd (m s)).
Proof. unfold bind. now destruct (m s) as [[[]|e] s']. Qed.

(** C3.  The transfer path is chosen by [length > 3,000,000]: a buffer of
    at most 3,000,000 bytes (so one of exactly 3,000,000) makes exactly one
    call, the [POST] carrying the base64 [contentBytes]; a longer one (so one
    of 3,000,001 bytes) first requests an upload session, and every later
    call is the [PUT] of a chunk. *)
Theorem C3_transfer_path_threshold env i s x bd :
  items s !! i = Some x ->
  valid_attachment env i x bd ->
  let fileName := attachment_fileName env i bd in
  let size := buffer_length (data bd) in
  (size <= 3000000 ->
   calls (snd (messageAttachment_add_try env i s))
   = calls s ++ [small_call env i fileName (data bd)]) /\
  (3000000 < size ->
   exists puts,
     calls (snd (messageAttachment_add_try env i s))
     = calls s ++ session_call env i fileName size :: puts /\
     Forall (fun c => exists uploadUrl, is_chunk_put uploadUrl (data bd) c) puts).
Proof.
  intros Hi Hvalid fileName size.
  rewrite (add_try_valid env i s x bd Hi Hvalid), calls_then_push.
  unfold attachment_transfer. fold fileName size. split; intros Hsize.
  - assert (Hlt : (3000000 <? size) = false) by (apply Z.ltb_ge; lia).
    rewrite Hlt. unfold bind, perform. now destruct (server env _ _).
  - apply Z.ltb_lt in Hsize. rewrite Hsize.
    destruct (server env (calls s) (session_call env i fileName size))
      as [e|response] eqn:Hsrv.
    + rewrite (bind_throw _ _ _ _ _ (perform_fail _ _ _ _ Hsrv)).
      exists []. split; [reflexivity | constructor].
    + rewrite (bind_normal _ _ _ _ _ (perform_ok _ _ _ _ Hsrv)).
      unfold bind.
      destruct (prop response "uploadUrl" _) as [[uploadUrl|e] s1] eqn:Hprop.
      * apply prop_state in Hprop as ->.
        destruct (is_undefined uploadUrl).
        -- exists []. split; [reflexivity | constructor].
        -- destruct (upload_chunks_calls env uploadUrl (data bd)
                       (upload_fuel (data bd) 4000000) 0%nat
                       (call_state [session_call env i fileName size] s))
             as (puts & Hc & Hp).
           change (chunk_start 4000000 0) with 0 in Hc.
           exists puts. rewrite Hc. cbn. rewrite <- app_assoc.
           split; [reflexivity|].
           eapply Forall_impl; [exact Hp|]. intros c Hc'. now exists uploadUrl.
      * apply prop_state in Hprop as ->.
        exists []. split; [reflexivity | constructor].
Qed.

(** C2.  For a buffer of [total > 3,000,000] bytes, an upload session that
    yields a URL and [PUT]s that are all accepted, the item makes the session
    request and then exactly [count] [PUT]s, chunk 0 first, where [count] is
    [total / 4,000,000] rounded up; the [PUT] of chunk [k] carries the range
    [bytes 4000000*k - min(4000000*(k+1), total)-1 / total], offsets grow
    strictly with [k], the last chunk ends at [total] (inclusive end
    [total - 1]); the chunk bodies put end to end are the buffer. *)
Theorem C2_chunked_upload env i s x bd response :
  items s !! i = Some x ->
  valid_attachment env i x bd ->
  let dataBuffer := data bd in
  let total := buffer_length dataBuffer in
  let session := session_call env i (attachment_fileName env i bd) total in
  let uploadUrl := field response "uploadUrl" in
  let count := chunk_count 4000000 total in
  3000000 < total ->
  server env (calls s) session = inr response ->
  is_undefined uploadUrl = false ->
  (forall history uri options,
     exists v, server env history (HelpersRequest uri options) = inr v) ->
  messageAttachment_add_try env i s
  = (Normal Continue,
     push_state [success_record i]
       (call_state
          (session :: (chunk_put 4000000 uploadUrl dataBuffer <$> seq 0 count)) s)) /\
  4000000 * (Z.of_nat count - 1) < total <= 4000000 * Z.of_nat count /\
  (forall k,
     chunk_put 4000000 uploadUrl dataBuffer k
     = HelpersRequest uploadUrl
         (obj [("method", JStr "PUT");
               ("headers",
                obj [("Content-Type", JStr "application/octet-stream");
                     ("Content-Length",
                      JNum (buffer_length (chunk_bytes 4000000 dataBuffer k)));
                     ("Content-Range",
                      JStr ("bytes " +:+ pretty (4000000 * Z.of_nat k) +:+ "-"
                            +:+ pretty (Z.min (4000000 * (Z.of_nat k + 1)) total - 1)
                            +:+ "/" +:+ pretty total))]);
               ("body", JBuffer (chunk_bytes 4000000 dataBuffer k))])) /\
  (forall j k, (j < k)%nat -> chunk_start 4000000 j < chunk_start 4000000 k) /\
  (exists last, count = S last /\ chunk_end 4000000 total last = total) /\
  concat (chunk_bytes 4000000 dataBuffer <$> seq 0 count) = dataBuffer.
Proof.
  intros Hi Hvalid dataBuffer total session uploadUrl count Hbig Hsrv Hurl Hput.
  assert (Hpos : 0 < 4000000) by lia.
  assert (Htotal : 0 <= total) by (unfold total, buffer_length; lia).
  pose proof (chunk_count_spec 4000000 Hpos total Htotal) as Hcount.
  split; [|split; [exact Hcount|split; [reflexivity|split; [|split]]]].
  - rewrite (add_try_valid env i s x bd Hi Hvalid).
    unfold attachment_transfer. fold dataBuffer total session.
    apply Z.ltb_lt in Hbig. rewrite Hbig.
    unfold bind at 1. unfold bind at 1.
    rewrite (perform_ok _ _ _ _ Hsrv).
    unfold bind at 1. rewrite (prop_defined _ _ _ Hurl). fold uploadUrl. rewrite Hurl.
    change 0 with (chunk_start 4000000 0) at 1.
    rewrite (upload_chunks_run 4000000 Hpos env uploadUrl dataBuffer Hput count 0%nat);
      [ | reflexivity | apply (upload_fuel_enough 4000000 Hpos) ].
    rewrite call_state_app. reflexivity.
  - intros j k. apply (chunk_start_increasing 4000000 Hpos).
  - fold count in Hcount. destruct count as [|last] eqn:Hc; [lia|].
    exists last. split; [reflexivity|].
    apply (chunk_end_last 4000000 Hpos); [lia | exact Hc].
  - apply (chunk_bytes_reconstruct 4000000 Hpos).
Qed.

(** The scenario of a 9,000,000-byte buffer: three chunks, with these
    ranges. *)
Example nine_million_bytes :
  chunk_count 4000000 9000000 = 3%nat /\
  (fun k => content_range (chunk_start 4000000 k) (chunk_end 4000000 9000000 k) 9000000)
    <$> seq 0 3
  = ["bytes 0-3999999/9000000"; "bytes 4000000-7999999/9000000";
     "bytes 8000000-8999999/9000000"].
Proof. split; vm_compute; reflexivity. Qed.

Lemma sized_file_length size :
  0 <= size -> buffer_length (data (sized_file size)) = size.
Proof.
  intros H. unfold buffer_length, sized_file. cbn [data].
  rewrite length_replicate. lia.
Qed.

Lemma sized_item_valid cof answer size :
  valid_attachment (upload_env cof answer) 0 (sized_item size) (sized_file size).
Proof.
  exists {[ "data" := sized_file size ]}. split; [reflexivity|]. split.
  - change (attachment_property (upload_env cof answer)) with "data".
    apply lookup_singleton_eq.
  - reflexivity.
Qed.

(** A file of 9,000,000 bytes: the session request, then three [PUT]s. *)
Lemma C2_chunked_upload_witness :
  let file := sized_file 9000000 in
  let s := initial_state [sized_item 9000000] in
  messageAttachment_add_try (upload_env true session_answer) 0 s
  = (Normal Continue,
     push_state [success_record 0]
       (call_state
          (session_call (upload_env true session_answer) 0 (JStr "report.pdf")
             (buffer_length (data file))
           :: (chunk_put 4000000 (JStr "https://upload.example/session") (data file)
               <$> seq 0 (chunk_count 4000000 (buffer_length (data file))))) s)) /\
  chunk_count 4000000 (buffer_length (data file)) = 3%nat.
Proof.
  intros file s. split.
  - refine (proj1 (C2_chunked_upload (upload_env true session_answer) 0 s
                     (sized_item 9000000) file session_answer _ _ _ _ _ _)).
    + reflexivity.
    + apply sized_item_valid.
    + unfold file. rewrite sized_file_length; lia.
    + reflexivity.
    + reflexivity.
    + intros history uri options. eexists. reflexivity.
  - unfold file. rewrite sized_file_length by lia. reflexivity.
Defined.

(** Files of 3,000,000 and of 3,000,001 bytes. *)
Lemma C3_transfer_path_threshold_witness :
  let env := upload_env true session_answer in
  calls (snd (messageAttachment_add_try env 0 (initial_state [sized_item 3000000])))
  = [small_call env 0 (JStr "report.pdf") (data (sized_file 3000000))] /\
  exists puts,
    calls (snd (messageAttachment_add_try env 0 (initial_state [sized_item 3000001])))
    = session_call env 0 (JStr "report.pdf") (buffer_length (data (sized_file 3000001)))
      :: puts.
Proof.
  intros env. split.
  - refine (proj1 (C3_transfer_path_threshold env 0 (initial_state [sized_item 3000000])
                     (sized_item 3000000) (sized_file 3000000) _ _) _).
    + reflexivity.
    + apply sized_item_valid.
    + rewrite sized_file_length; lia.
  - destruct (proj2 (C3_transfer_path_threshold env 0
                       (initial_state [sized_item 3000001])
                       (sized_item 3000001) (sized_file 3000001) eq_refl
                       (sized_item_valid _ _ _)))
      as (puts & Hcalls & _).
    + rewrite sized_file_length; lia.
    + exists puts. exact Hcalls.
Defined.

(** A session answer without [uploadUrl]: one call, one error record, and
    the loop goes on with item 1. *)
Lemma C5_missing_upload_url_witness :
  let env := upload_env true (JObj ∅) in
  let s := initial_state [sized_item 3000001; sized_item 10] in
  exists error s',
    add_body env 0 s = (Normal Continue, s') /\
    returnData s' = [error_record 0 error] /\
    length (calls s') = 1%nat /\
    for_loop (add_body env) 0 2 s = for_loop (add_body env) 1 1 s'.
Proof.
  intros env s.
  destruct (C5_missing_upload_url env 0 1 s (sized_item 3000001) (sized_file 3000001)
              (JObj ∅)) as (error & _ & _ & Hcof).
  - reflexivity.
  - apply sized_item_valid.
  - rewrite sized_file_length; lia.
  - reflexivity.
  - reflexivity.
  - destruct (Hcof eq_refl) as [Hbody Hloop].
    exists error. eexists. split; [exact Hbody|]. split; [reflexivity|].
    split; [reflexivity | exact Hloop].
Defined.

(** An item without binary data, followed by a valid one. *)
Lemma C8_validation_error_isolated_witness :
  let env := upload_env true session_answer in
  let s := initial_state [plain_item; sized_item 10] in
  exists message itemIndex,
    let error := NodeOperationError message itemIndex in
    messageAttachment_add_try env 0 s = (Throw error, s) /\
    add_body env 0 s = (Normal Continue, push_state [error_record 0 error] s) /\
    for_loop (add_body env) 0 2 s
    = for_loop (add_body env) 1 1 (push_state [error_record 0 error] s).
Proof.
  intros env s.
  destruct (C8_validation_error_isolated env 0 1 s plain_item)
    as (message & itemIndex & Htry & Hcof).
  - reflexivity.
  - apply no_binary_data. reflexivity.
  - exists message, itemIndex. cbv zeta. split; [exact Htry|]. exact (Hcof eq_refl).
Defined.

(** A payload without a file name, and none in the additional fields: the
    third check refuses the item. *)
Example nameless_payload_refused :
  let env := upload_env true session_answer in
  let nameless := {| data := []; mimeType := None; fileName := None |} in
  invalid_attachment env 0
    {| json := JObj ∅; binary := Some {[ "data" := nameless ]}; pairedItem := None |}.
Proof.
  intros env nameless. eapply no_file_name.
  - reflexivity.
  - change (attachment_property env) with "data". apply lookup_singleton_eq.
  - apply file_name_missing; reflexivity.
Qed.

(** ** messageAttachment.add: the binary property name (C10) *)

Lemma for_loop_ext body body' :
  (forall i s, body i s = body' i s) ->
  forall n i s, for_loop body i n s = for_loop body' i n s.
Proof.
  intros Hext n. induction n as [|n IH]; intros i s; [reflexivity|].
  cbn [for_loop]. unfold bind. rewrite Hext.
  destruct (body' i s) as [[[|out]|e] s']; [apply IH | reflexivity..].
Qed.

Lemma operation_try_add env :
  strict_eq (getNodeParameter env "resource" 0) "messageAttachment" = true ->
  strict_eq (getNodeParameter env "operation" 0) "add" = true ->
  operation_try env = messageAttachment_add_try env /\
  operation_catch env = catch_push env.
Proof.
  intros Hr Ho. apply strict_eq_true in Hr, Ho.
  unfold operation_try, operation_catch. rewrite Hr, Ho. split; reflexivity.
Qed.

(** The loop that [execute] runs for [messageAttachment.add] is the loop
    over [add_body]. *)
Lemma item_body_add env i :
  strict_eq (getNodeParameter env "resource" 0) "messageAttachment" = true ->
  strict_eq (getNodeParameter env "operation" 0) "add" = true ->
  item_body env i = add_body env i.
Proof.
  intros Hr Ho. destruct (operation_try_add env Hr Ho) as [Htry Hcatch].
  unfold item_body, add_body. now rewrite Htry, Hcatch.
Qed.

(** C10.  In [messageAttachment.add] the binary property name is the
    parameter of item 0: changing the [binaryPropertyName] of any later item
    changes nothing to the run, and the bytes transferred for item [i] are
    those of the payload of item [i] found under item 0's name. *)
Theorem C10_binary_property_of_item_zero env parameters' input :
  strict_eq (getNodeParameter env "resource" 0) "messageAttachment" = true ->
  strict_eq (getNodeParameter env "operation" 0) "add" = true ->
  (forall name j,
     (name = "binaryPropertyName" -> j = 0%nat) ->
     parameters' name j = getNodeParameter env name j) ->
  execute (with_parameters parameters' env) input = execute env input /\
  forall i s x bd,
    items s !! i = Some x ->
    valid_attachment env i x bd ->
    messageAttachment_add_try env i s
    = (attachment_transfer env i (attachment_fileName env i bd) (data bd) ;;
       push [success_record i] ;;
       ret Continue) s.
Proof.
  intros Hr Ho Hsame. split; [|intros i s x bd; apply add_try_valid].
  set (env' := with_parameters parameters' env).
  assert (Hparam : forall name j, (name = "binaryPropertyName" -> j = 0%nat) ->
                                  getNodeParameter env' name j = getNodeParameter env name j)
    by exact Hsame.
  assert (Hr' : strict_eq (getNodeParameter env' "resource" 0) "messageAttachment" = true)
    by (rewrite Hparam; [assumption | discriminate]).
  assert (Ho' : strict_eq (getNodeParameter env' "operation" 0) "add" = true)
    by (rewrite Hparam; [assumption | discriminate]).
  destruct (operation_try_add env Hr Ho) as [Htry Hcatch].
  destruct (operation_try_add env' Hr' Ho') as [Htry' Hcatch'].
  assert (Hbody : forall i s, item_body env' i s = item_body env i s).
  { intros i s. unfold item_body. rewrite Htry, Htry', Hcatch, Hcatch'.
    unfold messageAttachment_add_try.
    rewrite !Hparam by (reflexivity || discriminate).
    reflexivity. }
  rewrite !execute_unfold.
  rewrite (for_loop_ext _ _ Hbody).
  rewrite !Hparam by discriminate. reflexivity.
Qed.

(** Item 1 renamed from [a] to [b]: the same run. *)
Lemma C10_binary_property_of_item_zero_witness :
  let renamed := rename_later_items (JStr "b") (getNodeParameter named_env) in
  renamed "binaryPropertyName" 1%nat = JStr "b" /\
  execute (with_parameters renamed named_env)
    [two_payloads "first"; two_payloads "second"]
  = execute named_env [two_payloads "first"; two_payloads "second"].
Proof.
  intros renamed. split; [reflexivity|].
  refine (proj1 (C10_binary_property_of_item_zero named_env renamed
                   [two_payloads "first"; two_payloads "second"] _ _ _)).
  - reflexivity.
  - reflexivity.
  - intros name j Hname. unfold renamed, rename_later_items.
    destruct (decide (name = "binaryPropertyName")) as [->|Hne].
    + rewrite (Hname eq_refl). reflexivity.
    + rewrite bool_decide_eq_false_2 by assumption. reflexivity.
Defined.

(** Item 1 names [b], yet the bytes sent for it are those of its payload
    [a]. *)
Example second_item_reads_first_name :
  let renamed := rename_later_items (JStr "b") (getNodeParameter named_env) in
  let env := with_parameters renamed named_env in
  getNodeParameter env "binaryPropertyName" 1 = JStr "b" /\
  calls (snd (execute env [two_payloads "first"; two_payloads "second"])) !! 1%nat
  = Some (small_call env 1 (JStr "a.txt") (list_byte_of_string "second-a")).
Proof. split; vm_compute; reflexivity. Qed.



(** ** The in-place operations (C6, C4) *)

Lemma copy_item_binary x :
  binary (copy_item x) = Some (default ∅ (binary x)).
Proof.
  unfold copy_item. cbn. destruct (binary x) as [b|]; cbn; [|reflexivity].
  now rewrite (right_id_L ∅ (∪) b).
Qed.

Lemma set_binary_copy x name payload :
  set_binary (<[name := payload]> (default ∅ (binary x))) (copy_item x)
  = enriched_item x name payload.
Proof. reflexivity. Qed.

Lemma prop_cases v k s :
  (exists e, prop v k s = (Throw e, s)) \/ prop v k s = (Normal (field v k), s).
Proof. destruct v; cbn; eauto. Qed.

Lemma Buffer_from_cases v s :
  (exists e, Buffer_from v s = (Throw e, s)) \/
  (exists bytes, Buffer_from v s = (Normal bytes, s)).
Proof. destruct v; cbn; eauto. Qed.

Lemma prepareBinaryData_cases env bytes filePath mime s :
  (exists e, binaryStore_error env bytes = Some e /\
             prepareBinaryData env bytes filePath mime s = (Throw e, s)) \/
  (binaryStore_error env bytes = None /\
   prepareBinaryData env bytes filePath mime s
   = (Normal (prepared_payload env bytes filePath mime), s)).
Proof.
  unfold prepareBinaryData. destruct (binaryStore_error env bytes); eauto.
Qed.

(** *** Assignments to an item object *)

Lemma same_object_self env s i : same_object env s i i = true.
Proof.
  unfold same_object. destruct (decide (i ∈ replaced s)) as [|Hi].
  - now apply bool_decide_eq_true_2.
  - rewrite (bool_decide_eq_true_2 _ Hi). now apply bool_decide_eq_true_2.
Qed.

(** A position that was assigned a new item shares it with no other. *)
Lemma same_object_replaced env s i j :
  i ∈ replaced s -> j <> i -> same_object env s i j = false.
Proof.
  intros Hi Hj. unfold same_object. rewrite decide_True by assumption.
  now apply bool_decide_eq_false_2.
Qed.


Lemma update_object_items env i f s j d :
  items s !! j = Some d ->
  items (snd (update_object env i f s)) !! j
  = Some (if same_object env s i j then f d else d).
Proof. intros Hj. cbn. now rewrite list_lookup_imap, Hj. Qed.

Lemma update_object_length env i f s :
  length (items (snd (update_object env i f s))) = length (items s).
Proof. cbn. apply length_imap. Qed.

(** An object that only position [i] refers to: the assignment is seen at
    position [i] and nowhere else. *)
Lemma update_object_alone env i f s x :
  (forall j, (j < length (items s))%nat -> j <> i -> same_object env s i j = false) ->
  items s !! i = Some x ->
  update_object env i f s = (Normal tt, with_items (<[i := f x]> (items s)) s).
Proof.
  intros Halone Hi. unfold update_object, with_items. do 2 f_equal.
  apply list_eq. intros j. rewrite list_lookup_imap.
  destruct (decide (j = i)) as [->|Hne].
  - rewrite Hi, list_lookup_insert_eq by (now apply lookup_lt_Some in Hi).
    cbn. now rewrite same_object_self.
  - rewrite list_lookup_insert_ne by congruence.
    destruct (items s !! j) as [d|] eqn:Hj; [|reflexivity].
    cbn. rewrite Halone; [reflexivity | now apply lookup_lt_Some in Hj | assumption].
Qed.

Lemma set_binary_property_copied env i name payload s x l :
  (i < length l)%nat ->
  items s = <[i := copy_item x]> l ->
  i ∈ replaced s ->
  set_binary_property env i name payload s
  = (Normal tt, with_items (<[i := enriched_item x name payload]> l) s).
Proof.
  intros Hi Hs Hnew. unfold set_binary_property.
  assert (Hget : items s !! i = Some (copy_item x))
    by (rewrite Hs; now apply list_lookup_insert_eq).
  rewrite (bind_normal _ _ _ _ _ (get_item_some _ _ _ Hget)).
  rewrite copy_item_binary.
  rewrite (update_object_alone env i _ s (copy_item x))
    by (intros; now apply same_object_replaced || assumption).
  rewrite set_binary_copy, Hs, list_insert_insert_eq. reflexivity.
Qed.

(** The outcome of the shared tail, in full. *)
Lemma store_download_run env i response filePath mime s x :
  items s !! i = Some x ->
  let copied := with_new_item i (copy_item x) s in
  store_download env i response filePath mime s
  = match prop response "body" copied with
    | (Throw e, _) => (Throw e, copied)
    | (Normal body, _) =>
        match Buffer_from body copied with
        | (Throw e, _) => (Throw e, copied)
        | (Normal bytes, _) =>
            match binaryStore_error env bytes with
            | Some e => (Throw e, copied)
            | None =>
                (Normal Continue,
                 with_new_item i
                   (enriched_item x (download_property env i)
                      (prepared_payload env bytes filePath mime)) s)
            end
        end
    end.
Proof.
  intros Hi copied. unfold store_download.
  rewrite (bind_normal _ _ _ _ _ (get_item_some _ _ _ Hi)).
  unfold bind at 1. cbn [set_item]. fold (with_new_item i (copy_item x) s).
  fold copied. unfold bind at 1.
  destruct (prop_cases response "body" copied) as [[e He] | Hp];
    [rewrite He; reflexivity | rewrite Hp].
  unfold bind at 1.
  destruct (Buffer_from_cases (field response "body") copied) as [[e He] | [bytes Hb]];
    [rewrite He; reflexivity | rewrite Hb].
  unfold bind at 1.
  destruct (prepareBinaryData_cases env bytes filePath mime copied)
    as [(e & Hstore & He) | (Hstore & Hok)]; rewrite Hstore.
  - rewrite He. reflexivity.
  - rewrite Hok.
    rewrite (bind_normal _ _ _ _ _
               (set_binary_property_copied env i _ _ copied x (items s)
                  (lookup_lt_Some _ _ _ Hi) eq_refl
                  ltac:(cbn; set_solver))).
    reflexivity.
Qed.

Lemma store_download_enriches env i x response filePath mime :
  enriches env i x (store_download env i response filePath mime).
Proof.
  intros s Hi. rewrite (store_download_run env i response filePath mime s x Hi).
  cbv zeta.
  destruct (prop response "body" _) as [[body|e] ?]; [|cbn; auto].
  destruct (Buffer_from body _) as [[bytes|e] ?]; [|cbn; auto].
  destruct (binaryStore_error env bytes); cbn; eauto.
Qed.

Lemma quiet_perform env c : quiet (perform env c).
Proof. intros s. unfold perform. now destruct (server env (calls s) c). Qed.

Lemma quiet_prop v k : quiet (prop v k).
Proof. intros s. now destruct v. Qed.

Lemma enriches_bind {A} env i x (m : M A) (f : A -> M Signal) :
  quiet m -> (forall a, enriches env i x (f a)) -> enriches env i x (bind m f).
Proof.
  intros Hm Hf s Hi. unfold bind. destruct (Hm s) as [Hitems Hret].
  destruct (m s) as [[a|e] s1]; cbn [snd] in *.
  - specialize (Hf a s1). rewrite Hitems, Hret in Hf. now apply Hf.
  - split; [assumption | left; assumption].
Qed.

Lemma message_getMime_try_enriches env i x :
  enriches env i x (message_getMime_try env i).
Proof.
  unfold message_getMime_try, microsoftApiRequest. cbv zeta.
  apply enriches_bind; [apply quiet_perform | intros response].
  apply enriches_bind; [apply quiet_prop | intros headers].
  apply enriches_bind; [apply quiet_prop | intros contentType].
  apply store_download_enriches.
Qed.

Lemma messageAttachment_download_try_enriches env i x :
  enriches env i x (messageAttachment_download_try env i).
Proof.
  unfold messageAttachment_download_try, microsoftApiRequest. cbv zeta.
  apply enriches_bind; [apply quiet_perform | intros attachmentDetails].
  apply enriches_bind; [apply quiet_prop | intros contentType].
  apply enriches_bind; [apply quiet_prop | intros fileName].
  apply enriches_bind; [apply quiet_perform | intros response].
  apply store_download_enriches.
Qed.

Lemma operation_try_in_place env :
  returns_items (getNodeParameter env "resource" 0)
    (getNodeParameter env "operation" 0) = true ->
  (operation_try env = message_getMime_try env \/
   operation_try env = messageAttachment_download_try env) /\
  operation_catch env = catch_overwrite env.
Proof.
  intros H. unfold operation_catch. rewrite H. split; [|reflexivity].
  unfold returns_items in H. apply orb_true_iff in H as [H|H];
    apply andb_true_iff in H as [Hr Ho];
    apply strict_eq_true in Hr, Ho; unfold operation_try; rewrite Hr, Ho;
    [left | right]; reflexivity.
Qed.

Lemma operation_try_enriches env i x :
  returns_items (getNodeParameter env "resource" 0)
    (getNodeParameter env "operation" 0) = true ->
  enriches env i x (operation_try env i).
Proof.
  intros Hop. destruct (operation_try_in_place env Hop) as [[-> | ->] _];
    [apply message_getMime_try_enriches
    | apply messageAttachment_download_try_enriches].
Qed.

(** The [catch] block of an in-place operation, with continue-on-fail: the
    error marker is written into the object position [i] refers to, so it
    is seen at every position that refers to that object and at no other;
    the binary map of the object, the accumulator and the calls stay. *)
Lemma catch_overwrite_run env i e s x :
  continueOnFail env = true ->
  items s !! i = Some x ->
  exists s',
    catch_overwrite env i e s = (Normal Continue, s') /\
    returnData s' = returnData s /\
    calls s' = calls s /\
    length (items s') = length (items s) /\
    (forall j d, items s !! j = Some d ->
                 items s' !! j
                 = Some (if same_object env s i j then set_json (error_json e) d
                         else d)) /\
    items s' !! i = Some (set_json (error_json e) x).
Proof.
  intros Hcof Hi. unfold catch_overwrite. rewrite Hcof.
  rewrite (bind_normal _ _ _ _ _ (get_item_some _ _ _ Hi)).
  exists (snd (update_object env i (set_json (error_json e)) s)).
  split; [reflexivity|].
  split; [reflexivity|]. split; [reflexivity|].
  split; [apply update_object_length|]. split.
  - intros j d Hj. now apply update_object_items.
  - rewrite (update_object_items env i _ s i x Hi). now rewrite same_object_self.
Qed.

(** One iteration of an in-place loop, whatever the input shares: it
    leaves the accumulator and the number of items alone. *)
Lemma in_place_step env i s :
  returns_items (getNodeParameter env "resource" 0)
    (getNodeParameter env "operation" 0) = true ->
  (i < length (items s))%nat ->
  match item_body env i s with
  | (Normal Continue, s') =>
      returnData s' = returnData s /\ length (items s') = length (items s)
  | (Normal (Return _), _) => False
  | (Throw _, s') => continueOnFail env = false /\ returnData s' = returnData s
  end.
Proof.
  intros Hop Hlt. destruct (lookup_lt_is_Some_2 _ _ Hlt) as [x Hi].
  destruct (operation_try_in_place env Hop) as [_ Hcatch].
  pose proof (operation_try_enriches env i x Hop s Hi) as Hen.
  unfold item_body, try_catch. rewrite Hcatch.
  destruct (operation_try env i s) as [[[|out]|e] s1].
  - destruct Hen as (Hret & payload & Hitems). split; [assumption|].
    now rewrite Hitems, length_insert.
  - assumption.
  - destruct Hen as (Hret & Hitems).
    destruct (continueOnFail env) eqn:Hcof;
      [|rewrite (catch_overwrite_rethrow _ _ _ _ Hcof); auto].
    assert (Hlen : length (items s1) = length (items s))
      by (destruct Hitems as [-> | ->]; [reflexivity | apply length_insert]).
    destruct (lookup_lt_is_Some_2 (items s1) i ltac:(lia)) as [x1 Hx1].
    destruct (catch_overwrite_run env i e s1 x1 Hcof Hx1)
      as (s' & -> & Hret' & _ & Hlen' & _).
    split; congruence.
Qed.

Lemma in_place_loop_runs env n :
  returns_items (getNodeParameter env "resource" 0)
    (getNodeParameter env "operation" 0) = true ->
  forall lo s,
    (lo + n <= length (items s))%nat ->
    match for_loop (item_body env) lo n s with
    | (Normal Continue, s') =>
        returnData s' = returnData s /\ length (items s') = length (items s)
    | (Normal (Return _), _) => False
    | (Throw _, s') => continueOnFail env = false /\ returnData s' = returnData s
    end.
Proof.
  intros Hop. induction n as [|n IH]; intros lo s Hbound; [cbn; auto|].
  pose proof (in_place_step env lo s Hop ltac:(lia)) as Hbody.
  cbn [for_loop]. unfold bind.
  destruct (item_body env lo s) as [[[|out]|e] s1]; [ | contradiction | exact Hbody ].
  destruct Hbody as (Hret & Hlen).
  specialize (IH (S lo) s1 ltac:(lia)).
  destruct (for_loop (item_body env) (S lo) n s1) as [[[|out]|e] s'].
  - destruct IH as (Hret' & Hlen'). split; congruence.
  - exact IH.
  - destruct IH as (Hcof & Hret'). split; congruence.
Qed.







(** C6, amended.  When [message.getMime] succeeds for an item, the new
    entry is stored under the requested binary property name, with the bytes
    of the answer, the file name [{messageId}.eml] and, when the answer has
    a content-type header, that content type; every binary field the input
    item had under another name is present and unchanged in the output
    item's binary map. *)
Theorem C6_getMime_entry env i s x response headers bytes :
  items s !! i = Some x ->
  server env (calls s) (getMime_call env i) = inr response ->
  field response "headers" = JObj headers ->
  field response "body" = JBuffer bytes ->
  binaryStore_error env bytes = None ->
  let name := download_property env i in
  let contentType := default JUndefined (headers !! "content-type") in
  let filePath := toString (getNodeParameter env "messageId" i) +:+ ".eml" in
  let payload :=
    {| data := bytes;
       mimeType := if truthy contentType then Some (toString contentType)
                   else guessMimeType env bytes (Some filePath);
       fileName := Some filePath |} in
  exists y new,
    message_getMime_try env i s
    = (Normal Continue, with_new_item i y (call_state [getMime_call env i] s)) /\
    json y = json x /\
    binary y = Some new /\
    new !! name = Some payload /\
    forall k, k <> name -> new !! k = default ∅ (binary x) !! k.
Proof.
  intros Hi Hsrv Hheaders Hbody Hstore name contentType filePath payload.
  exists (enriched_item x name payload), (<[name := payload]> (default ∅ (binary x))).
  split; [|split; [reflexivity|split; [reflexivity|split]]].
  - unfold message_getMime_try, microsoftApiRequest. cbv zeta.
    fold (getMime_call env i).
    rewrite (bind_normal _ _ _ _ _ (perform_ok _ _ _ _ Hsrv)).
    assert (Hobj : exists o, response = JObj o)
      by (destruct response; try discriminate Hheaders; eauto).
    destruct Hobj as [o ->].
    unfold bind at 1. cbn [prop ret]. rewrite Hheaders.
    unfold bind at 1. cbn [prop ret field]. fold contentType.
    change (store_download env i (JObj o) (Some filePath)
              (if truthy contentType then Some (toString contentType) else None)
              (call_state [getMime_call env i] s) = 
            (Normal Continue,
             with_new_item i (enriched_item x name payload)
               (call_state [getMime_call env i] s))).
    rewrite (store_download_run env i (JObj o) _ _
               (call_state [getMime_call env i] s) x Hi). cbv zeta.
    cbn [prop ret]. rewrite Hbody. cbn [Buffer_from ret]. rewrite Hstore.
    unfold prepared_payload, payload. fold name.
    destruct (truthy contentType); reflexivity.
  - apply lookup_insert_eq.
  - intros k Hk. now apply lookup_insert_ne.
Qed.

(** An item with a field [invoice], the download stored under [data]. *)
Lemma C6_getMime_entry_witness :
  exists y new payload,
    items (snd (message_getMime_try (mime_env true false) 0
                  (initial_state [invoice_item]))) = [y] /\
    binary y = Some new /\
    new !! "data" = Some payload /\
    fileName payload = Some "m0.eml" /\
    mimeType payload = Some "message/rfc822" /\
    new !! "invoice" = Some (text_payload "invoice.txt" "42 EUR").
Proof.
  destruct (C6_getMime_entry (mime_env true false) 0 (initial_state [invoice_item])
              invoice_item (raw_answer "message/rfc822" "From: someone")
              {[ "content-type" := JStr "message/rfc822" ]}
              (list_byte_of_string "From: someone"))
    as (y & new & Hrun & _ & Hbin & Hnew & Hold).
  - reflexivity.
  - reflexivity.
  - reflexivity.
  - reflexivity.
  - reflexivity.
  - exists y, new. eexists. rewrite Hrun. split; [reflexivity|].
    split; [exact Hbin|]. split; [exact Hnew|]. split; [reflexivity|].
    split; [reflexivity|]. rewrite Hold by discriminate. reflexivity.
Defined.

(** C6 as stated fails when the item already has a field under the
    requested name: that field is replaced. *)
Lemma C6_counterexample :
  exists y,
    fst (execute (mime_env true false) [data_item]) = Normal [[y]] /\
    ~ binary_fields_kept data_item y.
Proof.
  eexists. split; [vm_compute; reflexivity|].
  intros Hkept.
  specialize (Hkept "data" (text_payload "old.txt" "old content") eq_refl).
  vm_compute in Hkept. discriminate Hkept.
Qed.

(** ** The shared query string (C9) *)

Lemma when_set_qs {A} c k v (f : unit -> M A) s :
  bind (when_ c (set_qs k v)) f s
  = f tt (with_qs (if c then <[k := v]> (qs s) else qs s) s).
Proof.
  destruct c; cbn; [reflexivity|]. unfold with_qs. now rewrite state_eta.
Qed.

(** What follows the list request only adds calls. *)
Lemma getAll_tail_calls env i additionalFields responseData s :
  exists rest,
    calls (snd ((let! _ :=
                   if truthy (field additionalFields "dataPropertyAttachmentsPrefixName")
                   then
                     let! data :=
                       downloadAttachments env responseData
                         (toString (field additionalFields
                                      "dataPropertyAttachmentsPrefixName")) in
                     push (constructExecutionMetaData (returnJsonArray_items data) i)
                   else push (constructExecutionMetaData (returnJsonArray responseData) i) in
                 ret Continue) s)) = calls s ++ rest.
Proof.
  unfold bind, downloadAttachments, push, ret.
  destruct (truthy (field additionalFields "dataPropertyAttachmentsPrefixName")).
  - match goal with
    | |- context [downloadAttachments_result ?e ?h ?m ?p] =>
        destruct (downloadAttachments_result e h m p)
    end; eexists; reflexivity.
  - exists []. cbn. now rewrite app_nil_r.
Qed.

(** The first call of an item of [message.getAll] is its list request, made
    with the query string as the item's own assignments left it: what an
    earlier item wrote and this one does not overwrite is still there. *)
Lemma getAll_first_call env i s :
  let additionalFields := getNodeParameter env "additionalFields" i in
  let q1 := if truthy (field additionalFields "fields")
            then <["$select" := field additionalFields "fields"]> (qs s)
            else qs s in
  let q2 := if truthy (field additionalFields "filter")
            then <["$filter" := field additionalFields "filter"]> q1
            else q1 in
  exists c rest,
    calls (snd (message_getAll_try env i s)) = calls s ++ c :: rest /\
    call_query c
    = if truthy (getNodeParameter env "returnAll" i) then q2
      else <["$top" := getNodeParameter env "limit" i]> q2.
Proof.
  intros additionalFields q1 q2.
  unfold message_getAll_try, list_request. cbv zeta. fold additionalFields.
  rewrite !when_set_qs. cbn [qs with_qs]. fold q1. fold q2.
  destruct (truthy (getNodeParameter env "returnAll" i)).
  - eexists.
    unfold bind at 1. unfold bind at 1. cbn [get_qs qs with_qs].
    unfold microsoftApiRequestAllItems, perform. cbn [calls with_qs].
    destruct (server env (calls s) _) as [e|responseData].
    + exists []. split; [reflexivity|]. reflexivity.
    + match goal with
      | |- context [(bind ?m ?k) ?s1] =>
          destruct (getAll_tail_calls env i additionalFields responseData s1)
            as [rest Hrest]
      end.
      exists rest. rewrite Hrest. cbn. rewrite <- app_assoc.
      split; reflexivity.
  - eexists.
    unfold bind at 1. unfold bind at 1. unfold bind at 1.
    cbn [set_qs get_qs qs with_qs].
    unfold bind at 1. unfold microsoftApiRequest, perform. cbn [calls with_qs].
    destruct (server env (calls s) _) as [e|responseData].
    + exists []. split; [reflexivity|]. reflexivity.
    + match goal with
      | |- context [prop responseData "value" ?s1] =>
          destruct (prop_cases responseData "value" s1) as [[e He] | Hp];
          [rewrite He | rewrite Hp]
      end.
      * exists []. split; [reflexivity|]. reflexivity.
      * match goal with
        | |- context [(bind ?m ?k) ?s1] =>
            destruct (getAll_tail_calls env i additionalFields
                        (field responseData "value") s1) as [rest Hrest]
        end.
        exists rest. rewrite Hrest. cbn. rewrite <- app_assoc.
        split; reflexivity.
Qed.

(** C9.  [qs] is declared once per [execute] and shared by all items:
    there are two runs of [message.getAll] whose item 1 has the same
    parameters and sets neither a projection nor a filter, yet in the run
    where item 0 set both, the request made for item 1 still carries item
    0's [$select] and [$filter], while in the other run it carries neither.
    The request for item 1 is thus not a function of item 1's parameters
    alone. *)
Theorem C9_query_string_shared :
  exists (env env' : Env) (input : list INodeExecutionData),
    getNodeParameter env "resource" 0 = JStr "message" /\
    getNodeParameter env "operation" 0 = JStr "getAll" /\
    (forall name, getNodeParameter env' name 1 = getNodeParameter env name 1) /\
    field (getNodeParameter env "additionalFields" 1) "fields" = JUndefined /\
    field (getNodeParameter env "additionalFields" 1) "filter" = JUndefined /\
    field (getNodeParameter env' "additionalFields" 0) "fields" = JStr "subject" /\
    field (getNodeParameter env' "additionalFields" 0) "filter"
    = JStr "isRead eq false" /\
    calls (snd (execute env input))
    = [messages_page_call {[ "$top" := JNum 10 ]};
       messages_page_call {[ "$top" := JNum 10 ]}] /\
    calls (snd (execute env' input))
    = [messages_page_call
         (<["$top" := JNum 10]>
            (<["$filter" := JStr "isRead eq false"]> {[ "$select" := JStr "subject" ]}));
       messages_page_call
         (<["$top" := JNum 10]>
            (<["$filter" := JStr "isRead eq false"]> {[ "$select" := JStr "subject" ]}))].
Proof.
  exists list_env,
    (with_parameters
       (set_first_fields
          (obj [("fields", JStr "subject"); ("filter", JStr "isRead eq false")])
          (getNodeParameter list_env))
       list_env),
    [plain_item; plain_item].
  split; [reflexivity|]. split; [reflexivity|].
  split; [intros name; cbn; unfold set_first_fields; now rewrite andb_false_r|].
  repeat split; vm_compute; reflexivity.
Qed.

(** * Further properties of the dispatcher *)

(** ** Empty input and unknown operations *)

(** An empty input gives one empty output sequence, whatever the resource
    and the operation: no call is made and nothing throws. *)
Theorem execute_empty_input env :
  execute env [] = (Normal [[]], initial_state []).
Proof.
  rewrite execute_unfold. cbn [length for_loop ret].
  now destruct (returns_items _ _).
Qed.

Lemma for_loop_idle body i n s :
  (forall j s', body j s' = (Normal Continue, s')) ->
  for_loop body i n s = (Normal Continue, s).
Proof.
  intros Hbody. revert i. induction n as [|n IH]; intros i; [reflexivity|].
  rewrite (for_loop_step _ _ _ _ _ (Hbody i s)). apply IH.
Qed.

Lemma unhandled_item_body env i s :
  handled (getNodeParameter env "resource" 0) (getNodeParameter env "operation" 0)
  = false ->
  item_body env i s = (Normal Continue, s).
Proof.
  unfold handled, item_body, operation_try, operation_catch, returns_items,
    folderMessage_try, includes, existsb.
  by_operation; intros H; try discriminate H; reflexivity.
Qed.

Lemma unhandled_returns_returnData resource operation :
  handled resource operation = false -> returns_items resource operation = false.
Proof.
  unfold handled, returns_items, includes, existsb.
  rewrite !strict_eq_str_of.
  generalize (str_of resource) (str_of operation). intros R O.
  repeat (split_test; eval_tests; cbn [andb orb]); intros H;
    try discriminate H; reflexivity.
Qed.

(** A (resource, operation) pair that no block of the cascade matches (an
    unknown operation, or an operation of another resource such as
    [draft] with [move]) is not an error: no call is made, no item is
    touched and the output is one empty sequence. *)
Theorem execute_unhandled_operation env input :
  handled (getNodeParameter env "resource" 0) (getNodeParameter env "operation" 0)
  = false ->
  execute env input = (Normal [[]], initial_state input).
Proof.
  intros H. rewrite execute_unfold.
  rewrite (for_loop_idle (item_body env) 0 (length input) (initial_state input))
    by (intros j s'; now apply unhandled_item_body).
  now rewrite (unhandled_returns_returnData _ _ H).
Qed.

Lemma execute_unhandled_operation_witness :
  let env :=
    sample_env [("resource", fun _ => JStr "draft");
                ("operation", fun _ => JStr "move")]
      false (fun _ _ => inl (ExternalError "unreachable")) in
  execute env [plain_item; plain_item]
  = (Normal [[]], initial_state [plain_item; plain_item]).
Proof.
  intros env. apply (execute_unhandled_operation env). reflexivity.
Defined.

(** ** Failure isolation, for every operation *)

Lemma item_body_never_throws env i s :
  continueOnFail env = true ->
  returns_items (getNodeParameter env "resource" 0)
    (getNodeParameter env "operation" 0) = false ->
  exists r s', item_body env i s = (Normal r, s').
Proof.
  intros Hcof Hacc. unfold item_body, try_catch, operation_catch. rewrite Hacc.
  destruct (operation_try env i s) as [[r|e] s1]; [eauto|].
  rewrite (catch_push_continue _ _ _ _ Hcof). eauto.
Qed.

Lemma for_loop_never_throws body n :
  (forall i s, exists r s', body i s = (Normal r, s')) ->
  forall i s, exists r s', for_loop body i n s = (Normal r, s').
Proof.
  intros Hbody. induction n as [|n IH]; intros i s; [cbn; eauto|].
  destruct (Hbody i s) as ([|out] & s1 & Hb).
  - rewrite (for_loop_step _ _ _ _ _ Hb). apply IH.
  - rewrite (for_loop_return _ _ _ _ _ _ Hb). eauto.
Qed.

(** With continue-on-fail enabled [execute] never throws, whatever the
    resource, the operation, the input and the answers of the collaborators:
    every failure of an item ends in its [catch] block. *)
Theorem execute_isolates_every_failure env input :
  continueOnFail env = true ->
  exists out, fst (execute env input) = Normal out.
Proof.
  intros Hcof. rewrite execute_unfold.
  destruct (returns_items (getNodeParameter env "resource" 0)
              (getNodeParameter env "operation" 0)) eqn:Hop.
  - pose proof (in_place_loop_runs env (length input) Hop 0%nat (initial_state input)
                  (Nat.le_refl _)) as Hloop.
    destruct (for_loop (item_body env) 0 (length input) (initial_state input))
      as [[[|out]|e] s']; cbn [fst]; eauto.
    destruct Hloop as [Hfalse _]. congruence.
  - destruct (for_loop_never_throws (item_body env) (length input)
                (fun i s => item_body_never_throws env i s Hcof Hop)
                0%nat (initial_state input)) as ([|out] & s' & ->); cbn [fst]; eauto.
Qed.

Lemma execute_isolates_every_failure_witness :
  exists out,
    fst (execute (sample_env [("resource", fun _ => JStr "message");
                              ("operation", fun _ => JStr "get");
                              ("messageId", fun _ => JStr "m1");
                              ("additionalFields", fun _ => JObj ∅)]
                    true (fun _ _ => inl (ExternalError "Service unavailable")))
           [plain_item; plain_item]) = Normal out.
Proof. apply execute_isolates_every_failure. reflexivity. Defined.

(** ** The order of the records *)

Lemma origin_le_blocks lo (b l : list INodeExecutionData) :
  Forall (origin lo) b ->
  Forall (fun d => exists j, origin j d /\ (lo < j)%nat) l ->
  StronglySorted origin_le l ->
  StronglySorted origin_le (b ++ l).
Proof.
  intros Hb Hl Hsorted. apply StronglySorted_app_2; [ | | assumption].
  - intros x1 x2 H1 H2 a c Ha Hc.
    rewrite Forall_forall in Hb, Hl.
    specialize (Hb _ H1). destruct (Hl _ H2) as (j & Hj & Hlt).
    unfold origin in *. assert (a = lo) by congruence. assert (c = j) by congruence.
    lia.
  - induction Hb as [|x b Hx Hb IH]; constructor; [assumption|].
    eapply Forall_impl; [exact Hb|]. intros y Hy a c Ha Hc.
    unfold origin in *. assert (a = c) by congruence. lia.
Qed.

(** What a loop adds to the accumulator is sorted by origin, and every
    origin is the index of an item the loop went through. *)
Lemma for_loop_sorted env n :
  forall lo s r s',
    for_loop (item_body env) lo n s = (r, s') ->
    exists b, returnData s' = returnData s ++ b /\
              Forall (fun d => exists j, origin j d /\ (lo <= j < lo + n)%nat) b /\
              StronglySorted origin_le b.
Proof.
  induction n as [|n IH]; intros lo s r s' Hloop.
  - cbn in Hloop. injection Hloop as <- <-. exists [].
    rewrite app_nil_r. repeat split; constructor.
  - cbn [for_loop] in Hloop. unfold bind in Hloop.
    destruct (item_body_block env lo s) as (b & Hb & Hob).
    assert (Hbr : Forall (fun d => exists j, origin j d /\ (lo <= j < lo + S n)%nat) b).
    { eapply Forall_impl; [exact Hob|]. intros d Hd. exists lo. split; [assumption|lia]. }
    assert (Hbs : StronglySorted origin_le b).
    { rewrite <- (app_nil_r b). apply (origin_le_blocks lo); [assumption|constructor..]. }
    destruct (item_body env lo s) as [[[|out]|e] s1]; cbn [snd] in Hb.
    + destruct (IH _ _ _ _ Hloop) as (b' & Hb' & Hob' & Hsorted').
      exists (b ++ b'). rewrite Hb', Hb, app_assoc. split; [reflexivity|]. split.
      * apply Forall_app. split; [assumption|].
        eapply Forall_impl; [exact Hob'|]. intros d (j & Hj & ?). exists j.
        split; [assumption|lia].
      * apply (origin_le_blocks lo); [assumption| |assumption].
        eapply Forall_impl; [exact Hob'|]. intros d (j & Hj & ?). exists j.
        split; [assumption|lia].
    + injection Hloop as <- <-. exists b. auto.
    + injection Hloop as <- <-. exists b. auto.
Qed.

(** A loop of an accumulating operation that returns early hands back the
    accumulator. *)
Lemma for_loop_early_return env n :
  returns_items (getNodeParameter env "resource" 0)
    (getNodeParameter env "operation" 0) = false ->
  forall lo s out s',
    for_loop (item_body env) lo n s = (Normal (Return out), s') ->
    out = [returnData s'].
Proof.
  intros Hacc. induction n as [|n IH]; intros lo s0 out s' Hloop.
  - discriminate Hloop.
  - cbn [for_loop] in Hloop. unfold bind in Hloop.
    pose proof (operation_try_spec env lo s0) as Hspec.
    destruct (item_body env lo s0) as [[[|out1]|e1] s1] eqn:Hbody.
    + now apply IH in Hloop.
    + injection Hloop as <- <-.
      unfold item_body, try_catch, operation_catch in Hbody. rewrite Hacc in Hbody.
      destruct (operation_try env lo s0) as [[[|out2]|e2] s2].
      * discriminate Hbody.
      * injection Hbody as <- <-. now destruct Hspec as (_ & b & _ & _ & ->).
      * unfold catch_push in Hbody.
        destruct (continueOnFail env); discriminate Hbody.
    + discriminate Hloop.
Qed.

(** Whenever a result-accumulation operation returns, with or without
    continue-on-fail and also after the early [return] of a [get], the
    output is one sequence in which every record carries the index of an
    input item and the records of an item come before those of any later
    item. *)
Theorem execute_records_in_item_order env input out :
  returns_items (getNodeParameter env "resource" 0)
    (getNodeParameter env "operation" 0) = false ->
  fst (execute env input) = Normal out ->
  exists records,
    out = [records] /\
    Forall (fun d => exists j, origin j d /\ (j < length input)%nat) records /\
    StronglySorted origin_le records.
Proof.
  intros Hacc Hout. rewrite execute_unfold, Hacc in Hout.
  destruct (for_loop (item_body env) 0 (length input) (initial_state input))
    as [[[|early]|e] s'] eqn:Hloop; cbn [fst] in Hout; [ | | discriminate Hout].
  - injection Hout as <-.
    destruct (for_loop_sorted env _ _ _ _ _ Hloop) as (b & Hb & Hob & Hsorted).
    cbn in Hb. exists (returnData s'). rewrite Hb. split; [reflexivity|].
    split; [|assumption].
    eapply Forall_impl; [exact Hob|]. intros d (j & Hj & ?). exists j.
    split; [assumption|lia].
  - injection Hout as <-.
    destruct (for_loop_sorted env _ _ _ _ _ Hloop) as (b & Hb & Hob & Hsorted).
    cbn in Hb.
    pose proof (for_loop_early_return env _ Hacc _ _ _ _ Hloop) as Hearly.
    exists (returnData s'). rewrite Hearly, Hb. split; [reflexivity|].
    split; [|assumption].
    eapply Forall_impl; [exact Hob|]. intros d (j & Hj & ?). exists j.
    split; [assumption|lia].
Qed.

Lemma execute_records_in_item_order_witness :
  exists records,
    fst (execute folders_env [plain_item; plain_item]) = Normal [records] /\
    length records = 4%nat /\
    StronglySorted origin_le records.
Proof.
  assert (Hrun : exists out, fst (execute folders_env [plain_item; plain_item]) = Normal out)
    by (eexists; vm_compute; reflexivity).
  destruct Hrun as [out Hrun].
  destruct (execute_records_in_item_order folders_env [plain_item; plain_item] out
              eq_refl Hrun) as (records & -> & _ & Hsorted).
  exists records. split; [exact Hrun|]. split; [|exact Hsorted].
  vm_compute in Hrun. injection Hrun as <-. reflexivity.
Defined.

(** * Operations of one request per item *)

Lemma seq_snoc lo n : seq lo (S n) = seq lo n ++ [(lo + n)%nat].
Proof. rewrite <- Nat.add_1_r. now rewrite seq_app. Qed.

(** A loop whose [try] block is one request followed by the success
    record. *)
Lemma single_request_loop env (call : nat -> Call) body input :
  continueOnFail env = true ->
  (forall i s,
     body i s
     = try_catch (perform env (call i) ;; push [success_record i] ;; ret Continue)
         (catch_push env i) s) ->
  forall n,
    (n <= length input)%nat ->
    for_loop body 0 n (initial_state input)
    = (Normal Continue,
       {| items := input;
          returnData := request_record env call <$> seq 0 n;
          qs := ∅;
          calls := call <$> seq 0 n;
          replaced := ∅ |}).
Proof.
  intros Hcof Hbody n. induction n as [|n IH]; intros Hn; [reflexivity|].
  replace (S n) with (n + 1)%nat by lia.
  rewrite for_loop_app, IH by lia. cbn [Nat.add for_loop].
  rewrite Nat.add_1_r, !seq_snoc, !fmap_app. cbn [Nat.add fmap list_fmap].
  unfold bind at 1. rewrite Hbody. unfold try_catch, bind, perform, request_record.
  cbn [calls].
  destruct (server env (call <$> seq 0 n) (call n)); [|reflexivity].
  now rewrite (catch_push_continue _ _ _ _ Hcof).
Qed.

Lemma single_request_execute env (call : nat -> Call) input :
  continueOnFail env = true ->
  returns_items (getNodeParameter env "resource" 0)
    (getNodeParameter env "operation" 0) = false ->
  (forall i s,
     item_body env i s
     = try_catch (perform env (call i) ;; push [success_record i] ;; ret Continue)
         (catch_push env i) s) ->
  execute env input
  = (Normal [request_record env call <$> seq 0 (length input)],
     request_run env call input).
Proof.
  intros Hcof Hacc Hbody. rewrite execute_unfold.
  rewrite (single_request_loop env call (item_body env) input Hcof Hbody) by lia.
  now rewrite Hacc.
Qed.

(** [delete] on drafts and messages, with continue-on-fail: one [DELETE] per
    item, in item order, nothing else; the output has one record per item,
    [{ success: true }] where the server accepted the request and the
    server's error message where it refused it. *)
Theorem message_delete_run env input :
  includes ["draft"; "message"] (getNodeParameter env "resource" 0) = true ->
  strict_eq (getNodeParameter env "operation" 0) "delete" = true ->
  continueOnFail env = true ->
  execute env input
  = (Normal [request_record env (delete_call env) <$> seq 0 (length input)],
     request_run env (delete_call env) input).
Proof.
  intros Hr Ho Hcof. apply strict_eq_true in Ho.
  assert (Htry : operation_try env = message_delete_try env)
    by (unfold operation_try; now rewrite Hr, Ho).
  assert (Hacc : returns_items (getNodeParameter env "resource" 0)
                   (getNodeParameter env "operation" 0) = false)
    by (unfold returns_items; rewrite Ho; cbn; now rewrite !andb_false_r).
  apply single_request_execute; try assumption.
  intros i s. unfold item_body, operation_catch. rewrite Hacc, Htry. reflexivity.
Qed.

Lemma message_delete_run_witness :
  fst (execute delete_env (replicate 3 plain_item))
  = Normal [[success_record 0;
             error_record 1 (ExternalError "Message not found");
             success_record 2]] /\
  calls (snd (execute delete_env (replicate 3 plain_item)))
  = [delete_call delete_env 0; delete_call delete_env 1; delete_call delete_env 2].
Proof.
  rewrite (message_delete_run delete_env (replicate 3 plain_item) eq_refl eq_refl eq_refl).
  split; reflexivity.
Defined.

(** [message.move], with continue-on-fail: one [POST] to the [move]
    endpoint of each message, carrying the destination folder of that item,
    in item order; one record per item, success or the server's error. *)
Theorem message_move_run env input :
  strict_eq (getNodeParameter env "resource" 0) "message" = true ->
  strict_eq (getNodeParameter env "operation" 0) "move" = true ->
  continueOnFail env = true ->
  execute env input
  = (Normal [request_record env (move_call env) <$> seq 0 (length input)],
     request_run env (move_call env) input).
Proof.
  intros Hr Ho Hcof. apply strict_eq_true in Hr, Ho.
  assert (Htry : operation_try env = message_move_try env)
    by (unfold operation_try; now rewrite Hr, Ho).
  assert (Hacc : returns_items (getNodeParameter env "resource" 0)
                   (getNodeParameter env "operation" 0) = false)
    by (now rewrite Hr, Ho).
  apply single_request_execute; try assumption.
  intros i s. unfold item_body, operation_catch. rewrite Hacc, Htry. reflexivity.
Qed.

Lemma message_move_run_witness :
  let env :=
    sample_env [("resource", fun _ => JStr "message");
                ("operation", fun _ => JStr "move");
                ("messageId", fun i => JStr ("m" +:+ pretty i));
                ("folderId", fun _ => JStr "archive")]
      true (fun _ _ => inr JUndefined) in
  fst (execute env [plain_item; plain_item]) = Normal [[success_record 0; success_record 1]].
Proof.
  intros env.
  rewrite (message_move_run env [plain_item; plain_item] eq_refl eq_refl eq_refl).
  reflexivity.
Defined.

(** [folder.delete], with continue-on-fail: one [DELETE] per folder, in item
    order; one record per item, success or the server's error. *)
Theorem folder_delete_run env input :
  strict_eq (getNodeParameter env "resource" 0) "folder" = true ->
  strict_eq (getNodeParameter env "operation" 0) "delete" = true ->
  continueOnFail env = true ->
  execute env input
  = (Normal [request_record env (folder_delete_call env) <$> seq 0 (length input)],
     request_run env (folder_delete_call env) input).
Proof.
  intros Hr Ho Hcof. apply strict_eq_true in Hr, Ho.
  assert (Htry : operation_try env = folder_delete_try env)
    by (unfold operation_try; now rewrite Hr, Ho).
  assert (Hacc : returns_items (getNodeParameter env "resource" 0)
                   (getNodeParameter env "operation" 0) = false)
    by (now rewrite Hr, Ho).
  apply single_request_execute; try assumption.
  intros i s. unfold item_body, operation_catch. rewrite Hacc, Htry. reflexivity.
Qed.

Lemma folder_delete_run_witness :
  let env :=
    sample_env [("resource", fun _ => JStr "folder");
                ("operation", fun _ => JStr "delete");
                ("folderId", fun i => JStr ("f" +:+ pretty i))]
      true (fun _ _ => inl (ExternalError "Folder is not empty")) in
  fst (execute env [plain_item])
  = Normal [[error_record 0 (ExternalError "Folder is not empty")]].
Proof.
  intros env.
  rewrite (folder_delete_run env [plain_item] eq_refl eq_refl eq_refl).
  reflexivity.
Defined.

(** * The chunk loop, whatever the server answers *)

(** Every chunk is between 1 and [chunkSize] bytes long: a full chunk, or
    what is left of the buffer. *)
Lemma chunk_bytes_length chunkSize dataBuffer k :
  0 < chunkSize ->
  (k < chunk_count chunkSize (buffer_length dataBuffer))%nat ->
  buffer_length (chunk_bytes chunkSize dataBuffer k)
  = Z.min chunkSize (buffer_length dataBuffer - chunkSize * Z.of_nat k).
Proof.
  intros Hpos Hk.
  assert (HL : 0 <= buffer_length dataBuffer) by (unfold buffer_length; lia).
  apply (chunk_guard chunkSize Hpos _ _ HL) in Hk.
  unfold chunk_bytes, subarray, chunk_end, chunk_start, buffer_length in *.
  rewrite length_take, length_drop. lia.
Qed.

(** The loop sends the chunks in order, each after the server accepted the
    one before, and stops at the first one the server refuses. *)
Lemma upload_chunks_trace env uploadUrl dataBuffer :
  forall m k fuel s,
    (k + m = chunk_count 4000000 (buffer_length dataBuffer))%nat ->
    (m <= fuel)%nat ->
    exists sent,
      (sent <= m)%nat /\
      let put := chunk_put 4000000 uploadUrl dataBuffer in
      let s' := call_state (put <$> seq k sent) s in
      let accepted j :=
        exists v, server env (calls s ++ (put <$> seq k j)) (put (k + j)%nat) = inr v in
      (upload_chunks env fuel uploadUrl dataBuffer 4000000 (chunk_start 4000000 k) s
       = (Normal tt, s') /\ sent = m /\
       forall j, (j < sent)%nat -> accepted j) \/
      (exists e last,
         upload_chunks env fuel uploadUrl dataBuffer 4000000 (chunk_start 4000000 k) s
         = (Throw e, s') /\
         sent = S last /\
         (forall j, (j < last)%nat -> accepted j) /\
         server env (calls s ++ (put <$> seq k last)) (put (k + last)%nat) = inl e).
Proof.
  assert (Hpos : 0 < 4000000) by lia.
  induction m as [|m IH]; intros k fuel s Hkm Hfuel.
  - exists 0%nat. split; [lia|]. left. cbn.
    rewrite (upload_chunks_done 4000000 Hpos) by lia.
    rewrite call_state_nil. split; [reflexivity|]. split; [reflexivity|]. lia.
  - destruct fuel as [|fuel]; [lia|].
    rewrite (upload_chunks_unfold 4000000) by lia.
    destruct (server env (calls s) (chunk_put 4000000 uploadUrl dataBuffer k))
      as [e|v] eqn:Hsrv.
    + exists 1%nat. split; [lia|]. right. exists e, 0%nat.
      rewrite (bind_throw _ _ _ _ _ (perform_fail _ _ _ _ Hsrv)).
      cbn. rewrite app_nil_r, Nat.add_0_r.
      split; [reflexivity|]. split; [reflexivity|]. split; [lia | exact Hsrv].
    + rewrite (bind_normal _ _ _ _ _ (perform_ok _ _ _ _ Hsrv)).
      destruct (IH (S k) fuel
                  (call_state [chunk_put 4000000 uploadUrl dataBuffer k] s))
        as (sent & Hsent & Hcases); [lia | lia |].
      exists (S sent). split; [lia|]. cbv zeta in *. cbn [seq fmap list_fmap].
      change (list_fmap _ _ ?f ?l) with (f <$> l).
      rewrite call_state_app in Hcases. cbn [app] in Hcases.
      assert (Hshift : forall n,
        (forall j, (j < n)%nat ->
           exists v0,
             server env
               (calls (call_state [chunk_put 4000000 uploadUrl dataBuffer k] s)
                ++ (chunk_put 4000000 uploadUrl dataBuffer <$> seq (S k) j))
               (chunk_put 4000000 uploadUrl dataBuffer (S k + j)) = inr v0) ->
        forall j, (j < S n)%nat ->
           exists v0,
             server env
               (calls s ++ (chunk_put 4000000 uploadUrl dataBuffer <$> seq k j))
               (chunk_put 4000000 uploadUrl dataBuffer (k + j)) = inr v0).
      { intros n Hn [|j] Hj.
        - exists v. cbn. now rewrite app_nil_r, Nat.add_0_r.
        - destruct (Hn j ltac:(lia)) as [v0 Hv0]. exists v0.
          cbn [calls call_state] in Hv0. rewrite <- app_assoc in Hv0.
          cbn [seq fmap list_fmap]. change (list_fmap _ _ ?f ?l) with (f <$> l).
          now replace (k + S j)%nat with (S k + j)%nat by lia. }
      destruct Hcases as [(Hrun & -> & Hacc) | (e & last & Hrun & -> & Hacc & Hrefused)].
      * left. split; [exact Hrun|]. split; [reflexivity|]. now apply Hshift.
      * right. exists e, (S last). split; [exact Hrun|]. split; [reflexivity|].
        split; [now apply Hshift|].
        cbn [calls call_state] in Hrefused. rewrite <- app_assoc in Hrefused.
        cbn [seq fmap list_fmap]. change (list_fmap _ _ ?f ?l) with (f <$> l).
        now replace (k + S last)%nat with (S k + last)%nat by lia.
Qed.

(** Once the upload session is granted, the item runs the chunk loop and
    then pushes its success record. *)
Lemma add_try_upload env i s x bd response :
  items s !! i = Some x ->
  valid_attachment env i x bd ->
  3000000 < buffer_length (data bd) ->
  server env (calls s)
    (session_call env i (attachment_fileName env i bd) (buffer_length (data bd)))
  = inr response ->
  is_undefined (field response "uploadUrl") = false ->
  messageAttachment_add_try env i s
  = (upload_chunks env (upload_fuel (data bd) 4000000) (field response "uploadUrl")
       (data bd) 4000000 0 ;;
     push [success_record i] ;;
     ret Continue)
      (call_state
         [session_call env i (attachment_fileName env i bd) (buffer_length (data bd))]
         s).
Proof.
  intros Hi Hvalid Hbig Hsrv Hurl.
  rewrite (add_try_valid env i s x bd Hi Hvalid).
  unfold attachment_transfer.
  apply Z.ltb_lt in Hbig. rewrite Hbig.
  unfold bind at 1. unfold bind at 1.
  rewrite (perform_ok _ _ _ _ Hsrv).
  unfold bind at 1. rewrite (prop_defined _ _ _ Hurl). rewrite Hurl.
  reflexivity.
Qed.

(** [messageAttachment.add] for a buffer of more than 3,000,000 bytes whose
    upload session is granted: every request that follows the session
    request is a [PUT] to the upload URL whose body is the next chunk of the
    buffer.  The chunks are never empty and never exceed 4,000,000 bytes;
    all but the last chunk of the buffer hold exactly 4,000,000 bytes, the
    last holds what is left, and the [Content-Length] of each [PUT] is the
    size of its body. *)
Theorem chunk_sizes env i s x bd response :
  items s !! i = Some x ->
  valid_attachment env i x bd ->
  let dataBuffer := data bd in
  let total := buffer_length dataBuffer in
  let session := session_call env i (attachment_fileName env i bd) total in
  let uploadUrl := field response "uploadUrl" in
  let count := chunk_count 4000000 total in
  3000000 < total ->
  server env (calls s) session = inr response ->
  is_undefined uploadUrl = false ->
  exists requests,
    calls (snd (messageAttachment_add_try env i s)) = calls s ++ session :: requests /\
    (length requests <= count)%nat /\
    forall k c, requests !! k = Some c ->
      exists body range,
        c = HelpersRequest uploadUrl
              (obj [("method", JStr "PUT");
                    ("headers",
                     obj [("Content-Type", JStr "application/octet-stream");
                          ("Content-Length", JNum (buffer_length body));
                          ("Content-Range", JStr range)]);
                    ("body", JBuffer body)]) /\
        body = chunk_bytes 4000000 dataBuffer k /\
        0 < buffer_length body <= 4000000 /\
        ((S k < count)%nat -> buffer_length body = 4000000) /\
        (S k = count -> buffer_length body = total - 4000000 * Z.of_nat k).
Proof.
  intros Hi Hvalid dataBuffer total session uploadUrl count Hbig Hsrv Hurl.
  assert (Hpos : 0 < 4000000) by lia.
  pose proof (add_try_upload env i s x bd response Hi Hvalid Hbig Hsrv Hurl) as Hstart.
  fold dataBuffer total session uploadUrl in Hstart.
  destruct (upload_chunks_trace env uploadUrl dataBuffer count 0%nat
              (upload_fuel dataBuffer 4000000) (call_state [session] s))
    as (sent & Hsent & Hcases);
    [reflexivity | apply (upload_fuel_enough 4000000 Hpos) |].
  cbv zeta in Hcases. rewrite call_state_app in Hcases. cbn [app] in Hcases.
  change (chunk_start 4000000 0) with 0 in Hcases.
  exists (chunk_put 4000000 uploadUrl dataBuffer <$> seq 0 sent).
  split; [|split].
  - destruct Hcases as [(Hrun & _) | (e & last & Hrun & _)].
    + rewrite Hstart, (bind_normal _ _ _ _ _ Hrun). reflexivity.
    + rewrite Hstart, (bind_throw _ _ _ _ _ Hrun). reflexivity.
  - now rewrite length_fmap, length_seq.
  - intros k c Hc. apply list_lookup_fmap_Some in Hc as (k' & -> & Hk').
    apply lookup_seq in Hk' as [-> Hk]. cbn [Nat.add].
    assert (Hcount : (k < count)%nat) by lia.
    assert (HL : 0 <= total) by (unfold total, buffer_length; lia).
    pose proof (chunk_count_spec 4000000 Hpos total HL) as [Hlo Hhi].
    fold count in Hlo, Hhi.
    pose proof (chunk_bytes_length 4000000 dataBuffer k Hpos Hcount) as Hsize.
    fold total in Hsize.
    exists (chunk_bytes 4000000 dataBuffer k). eexists.
    split; [reflexivity|]. split; [reflexivity|]. rewrite Hsize. lia.
Qed.

Lemma chunk_sizes_witness :
  let env := refusing_upload_env 1 in
  let s := initial_state [sized_item 9000000] in
  exists requests,
    calls (snd (messageAttachment_add_try env 0 s))
    = session_call env 0 (JStr "report.pdf") 9000000 :: requests /\
    (length requests <= 3)%nat /\
    forall c, requests !! 0%nat = Some c ->
      exists body range,
        c = HelpersRequest (JStr "https://upload.example/session")
              (obj [("method", JStr "PUT");
                    ("headers",
                     obj [("Content-Type", JStr "application/octet-stream");
                          ("Content-Length", JNum 4000000);
                          ("Content-Range", JStr range)]);
                    ("body", JBuffer body)]).
Proof.
  intros env s.
  assert (Htotal : buffer_length (data (sized_file 9000000)) = 9000000)
    by (apply sized_file_length; lia).
  destruct (chunk_sizes env 0 s (sized_item 9000000) (sized_file 9000000)
              session_answer) as (requests & Hcalls & Hlen & Hall).
  - reflexivity.
  - exists {[ "data" := sized_file 9000000 ]}. split; [reflexivity|]. split.
    + change (attachment_property env) with "data". apply lookup_singleton_eq.
    + reflexivity.
  - rewrite Htotal; lia.
  - reflexivity.
  - reflexivity.
  - exists requests. rewrite Htotal in Hcalls, Hlen, Hall.
    split; [exact Hcalls|]. split; [exact Hlen|].
    intros c Hc. destruct (Hall 0%nat c Hc) as (body & range & -> & _ & _ & Hfull & _).
    exists body, range. rewrite Hfull; [reflexivity|].
    change (chunk_count 4000000 9000000) with 3%nat. lia.
Defined.

(** [messageAttachment.add] for a buffer over 3,000,000 bytes whose upload
    session is granted: the calls are the session request followed by the
    [PUT]s of chunks 0, 1, ... in order without a gap, each sent only after
    the server accepted the one before.  The item succeeds, and pushes its
    success record, only when the server accepted every chunk of the
    buffer; if the server refuses a chunk, that [PUT] is the last call, no
    later chunk is sent, the server's error is thrown and no success record
    is pushed. *)
Theorem add_upload_stops_at_refused_chunk env i s x bd response :
  items s !! i = Some x ->
  valid_attachment env i x bd ->
  let dataBuffer := data bd in
  let total := buffer_length dataBuffer in
  let session := session_call env i (attachment_fileName env i bd) total in
  let uploadUrl := field response "uploadUrl" in
  let count := chunk_count 4000000 total in
  let put := chunk_put 4000000 uploadUrl dataBuffer in
  let accepted k :=
    exists v, server env (calls s ++ session :: (put <$> seq 0 k)) (put k) = inr v in
  3000000 < total ->
  server env (calls s) session = inr response ->
  is_undefined uploadUrl = false ->
  exists sent,
    (sent <= count)%nat /\
    calls (snd (messageAttachment_add_try env i s))
    = calls s ++ session :: (put <$> seq 0 sent) /\
    match fst (messageAttachment_add_try env i s) with
    | Normal _ =>
        sent = count /\
        (forall k, (k < count)%nat -> accepted k) /\
        returnData (snd (messageAttachment_add_try env i s))
        = returnData s ++ [success_record i]
    | Throw e =>
        exists last,
          sent = S last /\
          (forall k, (k < last)%nat -> accepted k) /\
          server env (calls s ++ session :: (put <$> seq 0 last)) (put last) = inl e /\
          returnData (snd (messageAttachment_add_try env i s)) = returnData s
    end.
Proof.
  intros Hi Hvalid dataBuffer total session uploadUrl count put accepted
    Hbig Hsrv Hurl.
  assert (Hpos : 0 < 4000000) by lia.
  pose proof (add_try_upload env i s x bd response Hi Hvalid Hbig Hsrv Hurl) as Hstart.
  fold dataBuffer total session uploadUrl in Hstart.
  destruct (upload_chunks_trace env uploadUrl dataBuffer count 0%nat
              (upload_fuel dataBuffer 4000000) (call_state [session] s))
    as (sent & Hsent & Hcases);
    [reflexivity | apply (upload_fuel_enough 4000000 Hpos) |].
  exists sent. split; [exact Hsent|]. cbv zeta in Hcases.
  rewrite call_state_app in Hcases. cbn [app] in Hcases.
  change (chunk_start 4000000 0) with 0 in Hcases.
  assert (Hshift : forall n,
    (forall j, (j < n)%nat ->
       exists v,
         server env
           (calls (call_state [session] s)
            ++ (chunk_put 4000000 uploadUrl dataBuffer <$> seq 0 j))
           (chunk_put 4000000 uploadUrl dataBuffer (0 + j)) = inr v) ->
    forall k, (k < n)%nat -> accepted k).
  { intros n Hn k Hk. destruct (Hn k Hk) as [v Hv]. exists v.
    cbn in Hv. now rewrite <- app_assoc in Hv. }
  destruct Hcases as [(Hrun & -> & Hacc) | (e & last & Hrun & -> & Hacc & Hrefused)].
  - rewrite Hstart, (bind_normal _ _ _ _ _ Hrun). cbn.
    split; [reflexivity|]. split; [reflexivity|]. split; [|reflexivity].
    now apply Hshift.
  - rewrite Hstart, (bind_throw _ _ _ _ _ Hrun). cbn.
    split; [reflexivity|]. exists last. split; [reflexivity|].
    split; [now apply Hshift|].
    cbn in Hrefused. rewrite <- app_assoc in Hrefused. auto.
Qed.

Lemma add_upload_stops_at_refused_chunk_witness :
  let env := refusing_upload_env 1 in
  let s := initial_state [sized_item 9000000] in
  let file := data (sized_file 9000000) in
  exists sent,
    (sent <= 3)%nat /\
    calls (snd (messageAttachment_add_try env 0 s))
    = session_call env 0 (JStr "report.pdf") (buffer_length file)
      :: (chunk_put 4000000 (JStr "https://upload.example/session") file
          <$> seq 0 sent).
Proof.
  intros env s file.
  assert (Hcount : chunk_count 4000000 (buffer_length file) = 3%nat)
    by (unfold file; rewrite sized_file_length by lia; reflexivity).
  destruct (add_upload_stops_at_refused_chunk env 0 s (sized_item 9000000)
              (sized_file 9000000) session_answer) as (sent & Hsent & Hcalls & _).
  - reflexivity.
  - exists {[ "data" := sized_file 9000000 ]}. split; [reflexivity|]. split.
    + change (attachment_property env) with "data". apply lookup_singleton_eq.
    + reflexivity.
  - rewrite sized_file_length; lia.
  - reflexivity.
  - reflexivity.
  - exists sent. fold file in Hsent. rewrite Hcount in Hsent.
    split; [exact Hsent | exact Hcalls].
Defined.

(** * The file name of an attachment *)

(** A [fileName] given in the additional fields always wins over the file
    name of the binary payload, also when it is empty: an empty (or
    otherwise falsy) [fileName] makes the item fail with "File name is not
    set" before any call, even though the payload has a usable file name.
    When it is not empty, it is the name sent, on either transfer path. *)
Theorem add_file_name_precedence env i s x b bd :
  items s !! i = Some x ->
  binary x = Some b ->
  b !! attachment_property env = Some bd ->
  let given := field (getNodeParameter env "additionalFields" i) "fileName" in
  is_undefined given = false ->
  (truthy given = false ->
   messageAttachment_add_try env i s = (Throw (file_name_error i), s)) /\
  (truthy given = true ->
   exists c rest,
     calls (snd (messageAttachment_add_try env i s)) = calls s ++ c :: rest /\
     (c = small_call env i given (data bd) \/
      c = session_call env i given (buffer_length (data bd)))).
Proof.
  intros Hi Hb Hp given Hdefined.
  assert (Hname : attachment_fileName env i bd = given)
    by (unfold attachment_fileName; cbv zeta; fold given; now rewrite Hdefined).
  split; intros Htruthy.
  - unfold messageAttachment_add_try.
    rewrite (bind_normal _ _ _ _ _ (get_item_some _ _ _ Hi)).
    fold (attachment_property env). rewrite Hb, Hp. unfold getBinaryDataBuffer.
    unfold bind at 1. unfold bind at 1.
    rewrite (get_item_some _ _ _ Hi), Hb, Hp. cbn [ret].
    fold (attachment_fileName env i bd). rewrite Hname, Htruthy. reflexivity.
  - assert (Hvalid : valid_attachment env i x bd).
    { exists b. rewrite Hname. auto. }
    rewrite (add_try_valid env i s x bd Hi Hvalid), calls_then_push, Hname.
    unfold attachment_transfer.
    destruct (3000000 <? buffer_length (data bd)).
    + exists (session_call env i given (buffer_length (data bd))).
      destruct (server env (calls s) (session_call env i given (buffer_length (data bd))))
        as [e|response] eqn:Hsrv.
      * rewrite (bind_throw _ _ _ _ _ (perform_fail _ _ _ _ Hsrv)).
        exists []. auto.
      * rewrite (bind_normal _ _ _ _ _ (perform_ok _ _ _ _ Hsrv)).
        unfold bind.
        destruct (prop response "uploadUrl" _) as [[uploadUrl|e] s1] eqn:Hprop;
          apply prop_state in Hprop as ->; [|exists []; auto].
        destruct (is_undefined uploadUrl); [exists []; auto|].
        destruct (upload_chunks_calls env uploadUrl (data bd)
                    (upload_fuel (data bd) 4000000) 0%nat
                    (call_state [session_call env i given (buffer_length (data bd))] s))
          as (puts & Hc & _).
        change (chunk_start 4000000 0) with 0 in Hc.
        exists puts. rewrite Hc. cbn. rewrite <- app_assoc. auto.
    + exists (small_call env i given (data bd)), [].
      unfold bind, perform. destruct (server env _ _); auto.
Qed.

Lemma add_file_name_precedence_witness :
  let s := initial_state [sized_item 10] in
  messageAttachment_add_try (named_upload_env (JStr EmptyString)) 0 s
  = (Throw (file_name_error 0), s) /\
  fileName (sized_file 10) = Some "report.pdf" /\
  exists c rest,
    calls (snd (messageAttachment_add_try (named_upload_env (JStr "scan.pdf")) 0 s))
    = c :: rest /\
    (c = small_call (named_upload_env (JStr "scan.pdf")) 0 (JStr "scan.pdf")
           (data (sized_file 10)) \/
     c = session_call (named_upload_env (JStr "scan.pdf")) 0 (JStr "scan.pdf")
           (buffer_length (data (sized_file 10)))).
Proof.
  intros s. split; [|split; [reflexivity|]].
  - refine (proj1 (add_file_name_precedence (named_upload_env (JStr EmptyString)) 0 s
                     (sized_item 10) {[ "data" := sized_file 10 ]} (sized_file 10)
                     eq_refl eq_refl eq_refl eq_refl) eq_refl).
  - refine (proj2 (add_file_name_precedence (named_upload_env (JStr "scan.pdf")) 0 s
                     (sized_item 10) {[ "data" := sized_file 10 ]} (sized_file 10)
                     eq_refl eq_refl eq_refl eq_refl) eq_refl).
Defined.

(** * Recipients of a draft *)

Lemma rev_app_append a b s :
  String.rev_app a b +:+ s = String.rev_app a (b +:+ s).
Proof. revert b. induction a as [|c a IH]; intros b; cbn; [reflexivity|apply IH]. Qed.

Lemma has_comma_rev_app a b :
  has_comma (String.rev_app a b) = has_comma a || has_comma b.
Proof.
  revert b. induction a as [|c a IH]; intros b; cbn; [reflexivity|].
  rewrite IH. cbn. destruct (Ascii.eqb c ","), (has_comma a), (has_comma b); reflexivity.
Qed.

(** [split(',')] cuts at every comma and nowhere else: the parts have no
    comma and joined with commas they give the string back. *)
Lemma split_comma_go_spec s : forall acc,
  has_comma acc = false ->
  split_comma_go acc s <> [] /\
  String.concat "," (split_comma_go acc s) = String.rev_app acc s /\
  Forall (fun part => has_comma part = false) (split_comma_go acc s).
Proof.
  induction s as [|c s IH]; intros acc Hacc; cbn [split_comma_go].
  - split; [discriminate|]. split; [reflexivity|].
    constructor; [|constructor]. unfold String.rev.
    now rewrite has_comma_rev_app, Hacc.
  - destruct (Ascii.eqb c ",") eqn:Hc.
    + apply Ascii.eqb_eq in Hc as ->.
      destruct (IH EmptyString eq_refl) as (Hne & Hjoin & Hfree).
      split; [discriminate|]. split.
      * destruct (split_comma_go EmptyString s) as [|p ps] eqn:Hsplit; [done|].
        change (String.concat "," (String.rev acc :: p :: ps))
          with (String.rev acc +:+ "," +:+ String.concat "," (p :: ps)).
        rewrite Hjoin. unfold String.rev. now rewrite rev_app_append.
      * constructor; [|exact Hfree]. unfold String.rev.
        now rewrite has_comma_rev_app, Hacc.
    + apply (IH (String c acc)). cbn. now rewrite Hc, Hacc.
Qed.

Lemma split_comma_spec r :
  String.concat "," (split_comma r) = r /\
  Forall (fun part => has_comma part = false) (split_comma r).
Proof. destruct (split_comma_go_spec r EmptyString eq_refl) as (_ & ? & ?). auto. Qed.

(** [draft.send], lines 313-336.  The recipients string is cut at its commas
    (the parts, joined with commas, are the string, and no part has a
    comma) and the empty parts are dropped.  With no address left (an empty
    string, or commas only) the draft is sent as it is, with no [PATCH].
    Otherwise the addresses are set, in their order, by one [PATCH] before
    the send; when that [PATCH] fails the draft is not sent and no record is
    added. *)
Theorem draft_send_recipients env i s r :
  field (getNodeParameter env "additionalFields" i) "recipients" = JStr r ->
  let parts := split_comma r in
  let addresses := filter (fun email => email <> EmptyString) parts in
    String.concat "," parts = r /\
    Forall (fun part => has_comma part = false) parts /\
    match addresses with
    | [] =>
        calls (snd (draft_send_try env i s)) = calls s ++ [send_call env i]
    | _ =>
        match server env (calls s) (recipients_call env i addresses) with
        | inr _ =>
            calls (snd (draft_send_try env i s))
            = calls s ++ [recipients_call env i addresses; send_call env i]
        | inl e =>
            draft_send_try env i s
            = (Throw e, call_state [recipients_call env i addresses] s)
        end
    end.
Proof.
  intros Hr. cbv zeta.
  destruct (split_comma_spec r) as [Hjoin Hfree].
  split; [exact Hjoin|]. split; [exact Hfree|].
  assert (Hsend : forall s',
    calls (snd ((let! responseData :=
                   microsoftApiRequest env "POST"
                     ("/messages/" +:+ toString (getNodeParameter env "messageId" i)
                      +:+ "/send") JUndefined JUndefined JUndefined in
                 push (constructExecutionMetaData (returnJsonArray success_json) i) ;;
                 ret Continue) s'))
    = calls s' ++ [send_call env i]).
  { intros s'. unfold bind, microsoftApiRequest, perform, send_call.
    destruct (server env _ _); reflexivity. }
  unfold draft_send_try. rewrite Hr. cbn [toString].
  destruct (filter (fun email => email <> EmptyString) (split_comma r))
    as [|a addresses] eqn:Haddr.
  - cbn [length Nat.eqb negb when_].
    replace (when_ (truthy (JStr r)) (ret tt)) with (ret tt)
      by now destruct (truthy (JStr r)).
    unfold bind at 1. cbn [ret]. apply Hsend.
  - assert (Htruthy : truthy (JStr r) = true).
    { cbn. destruct r; [discriminate Haddr|reflexivity]. }
    rewrite Htruthy. cbn [length Nat.eqb negb when_].
    fold (recipients_call env i (a :: addresses)).
    unfold microsoftApiRequest at 1.
    destruct (server env (calls s) (recipients_call env i (a :: addresses)))
      as [e|v] eqn:Hsrv.
    + rewrite (bind_throw _ _ s e (call_state [recipients_call env i (a :: addresses)] s));
        [reflexivity|].
      apply bind_throw, perform_fail, Hsrv.
    + rewrite (bind_normal _ _ s tt (call_state [recipients_call env i (a :: addresses)] s)).
      * rewrite Hsend. cbn. now rewrite <- app_assoc.
      * rewrite (bind_normal _ _ _ _ _ (perform_ok _ _ _ _ Hsrv)). reflexivity.
Qed.

Lemma draft_send_recipients_witness :
  let env := recipients_env ",a@x.org,,b@x.org" false in
  let s := initial_state [plain_item] in
  String.concat "," [EmptyString; "a@x.org"; EmptyString; "b@x.org"] = ",a@x.org,,b@x.org" /\
  Forall (fun part => has_comma part = false) [EmptyString; "a@x.org"; EmptyString; "b@x.org"] /\
  calls (snd (draft_send_try env 0 s))
  = [recipients_call env 0 ["a@x.org"; "b@x.org"]; send_call env 0].
Proof.
  intros env s.
  exact (draft_send_recipients env 0 s ",a@x.org,,b@x.org" eq_refl).
Defined.

(** * The early return of [get] *)

Section GetWithPrefix.

Variable env : Env.
Hypothesis Hresource :
  includes ["draft"; "message"] (getNodeParameter env "resource" 0) = true.
Hypothesis Hoperation : strict_eq (getNodeParameter env "operation" 0) "get" = true.
Hypothesis Hisolate : continueOnFail env = true.

Lemma get_operation_try : operation_try env = message_get_try env.
Proof.
  pose proof (strict_eq_true _ _ Hoperation) as Ho.
  unfold operation_try. rewrite Ho.
  unfold includes, existsb in *.
  destruct (strict_eq (getNodeParameter env "resource" 0) "draft") eqn:Hd;
    [reflexivity|].
  cbn [orb] in Hresource. rewrite orb_false_r in Hresource.
  rewrite Hresource. reflexivity.
Qed.

Lemma get_operation_catch : operation_catch env = catch_push env.
Proof.
  unfold operation_catch, returns_items.
  rewrite (strict_eq_true _ _ Hoperation). cbn.
  now rewrite !andb_false_r.
Qed.

Lemma get_calls_requests i history : item_requests env i (get_calls env i history).
Proof.
  unfold get_calls, item_requests. exists (query_after env (S i)).
  destruct (server env history _) as [e|response]; [left | right; eexists];
    reflexivity.
Qed.

(** The [try] block of an item with a prefix: it never falls through to the
    next item; it throws when the request or the download fails, and leaves
    the loop otherwise. *)
Lemma get_prefix_try i s :
  truthy (attachment_prefix env i) = true ->
  qs s = query_after env i ->
  calls (snd (message_get_try env i s)) = calls s ++ get_calls env i (calls s) /\
  qs (snd (message_get_try env i s)) = query_after env (S i) /\
  match fst (message_get_try env i s) with
  | Normal Continue => False
  | Normal (Return out) =>
      out = [returnData (snd (message_get_try env i s))] /\
      exists data,
        get_outcome env i (calls s) = inr data /\
        returnData (snd (message_get_try env i s))
        = returnData s ++ constructExecutionMetaData (returnJsonArray_items data) i
  | Throw e =>
      get_outcome env i (calls s) = inl e /\
      returnData (snd (message_get_try env i s)) = returnData s
  end.
Proof.
  intros Hprefix Hq. unfold message_get_try, get_calls, get_outcome.
  fold (attachment_prefix env i). rewrite Hprefix. rewrite !when_set_qs.
  unfold bind, get_qs, microsoftApiRequest, perform, downloadAttachments, push,
    get_returnData, ret.
  cbn [calls qs with_qs returnData items]. rewrite Hq.
  change (if truthy (field (getNodeParameter env "additionalFields" i) "filter")
          then _ else _) with (query_after env (S i)).
  fold (get_request env i (query_after env (S i))).
  destruct (server env (calls s) (get_request env i (query_after env (S i))))
    as [e|response]; cbn [fst snd calls returnData qs].
  - auto.
  - destruct (downloadAttachments_result env
                (calls s ++ [get_request env i (query_after env (S i))]) response
                (toString (attachment_prefix env i))) as [e|data] eqn:Hdl;
      cbn [fst snd calls returnData qs].
    + split; [now rewrite <- app_assoc|]. auto.
    + split; [now rewrite <- app_assoc|]. split; [reflexivity|].
      split; [reflexivity|]. exists data. auto.
Qed.

(** One item with a prefix: either its request or its download fails and
    an error record is pushed, or both succeed and the loop is left. *)
Lemma get_prefix_item i s :
  truthy (attachment_prefix env i) = true ->
  qs s = query_after env i ->
  exists s',
    calls s' = calls s ++ get_calls env i (calls s) /\
    qs s' = query_after env (S i) /\
    ((exists e, item_body env i s = (Normal Continue, s') /\
                get_outcome env i (calls s) = inl e /\
                returnData s' = returnData s ++ [error_record i e]) \/
     (exists data, item_body env i s = (Normal (Return [returnData s']), s') /\
                   get_outcome env i (calls s) = inr data /\
                   returnData s'
                   = returnData s
                     ++ constructExecutionMetaData (returnJsonArray_items data) i)).
Proof.
  intros Hprefix Hq.
  destruct (get_prefix_try i s Hprefix Hq) as (Hcalls & Hqs & Hrun).
  unfold item_body, try_catch.
  rewrite get_operation_try, get_operation_catch.
  destruct (message_get_try env i s) as [[[|out]|e] s1]; cbn [fst snd] in *.
  - contradiction.
  - destruct Hrun as (-> & data & Hout & Hdata).
    exists s1. repeat split; auto. right. exists data. auto.
  - rewrite (catch_push_continue _ _ _ _ Hisolate).
    destruct Hrun as [Hout Hdata].
    exists (push_state [error_record i e] s1).
    repeat split; auto. left. exists e. split; [reflexivity|].
    split; [exact Hout|]. cbn. now rewrite Hdata.
Qed.

Lemma get_prefix_loop n : forall lo s,
  (forall i, (lo <= i < lo + n)%nat -> truthy (attachment_prefix env i) = true) ->
  qs s = query_after env lo ->
  exists k failures block groups s',
    returnData s' = returnData s ++ failures ++ block /\
    calls s' = calls s ++ concat groups /\
    (k <= n)%nat /\
    length failures = k /\
    length groups = min (S k) n /\
    (forall j g, groups !! j = Some g ->
       g = get_calls env (lo + j) (calls s ++ concat (take j groups))) /\
    (forall j r, failures !! j = Some r ->
       exists e,
         get_outcome env (lo + j) (calls s ++ concat (take j groups)) = inl e /\
         r = error_record (lo + j) e) /\
    ((k = n /\ block = [] /\
      for_loop (item_body env) lo n s = (Normal Continue, s')) \/
     ((k < n)%nat /\
      (exists data,
         get_outcome env (lo + k) (calls s ++ concat (take k groups)) = inr data /\
         block = constructExecutionMetaData (returnJsonArray_items data) (lo + k)) /\
      for_loop (item_body env) lo n s = (Normal (Return [returnData s']), s'))).
Proof.
  induction n as [|n IH]; intros lo s Hprefix Hq.
  - exists 0%nat, [], [], [], s. cbn. rewrite !app_nil_r.
    do 5 (split; [reflexivity || lia|]).
    split; [intros j g Hj; discriminate Hj|].
    split; [intros j r Hj; discriminate Hj|]. auto.
  - destruct (get_prefix_item lo s) as (s1 & Hcalls & Hqs & Hitem);
      [apply Hprefix; lia | exact Hq |].
    destruct Hitem as [(e & Hbody & Hout & Hdata) | (data & Hbody & Hout & Hdata)].
    + destruct (IH (S lo) s1) as
        (k & failures & block & groups & s' & Hd & Hc & Hk & Hf & Hlen & Hg & He & Hrun);
        [intros; apply Hprefix; lia | exact Hqs |].
      exists (S k), (error_record lo e :: failures), block,
        (get_calls env lo (calls s) :: groups), s'.
      split; [rewrite Hd, Hdata, <- app_assoc; reflexivity|].
      split; [rewrite Hc, Hcalls, <- app_assoc; reflexivity|].
      split; [lia|]. split; [cbn; lia|].
      split; [cbn [length]; rewrite Hlen; lia|].
      split; [|split].
      * intros [|j] g Hj; cbn in Hj.
        -- injection Hj as <-. cbn. now rewrite app_nil_r, Nat.add_0_r.
        -- rewrite (Hg j g Hj), Hcalls. cbn [take concat].
           rewrite <- app_assoc. now replace (lo + S j)%nat with (S lo + j)%nat by lia.
      * intros [|j] r Hj; cbn in Hj.
        -- injection Hj as <-. exists e. cbn. now rewrite app_nil_r, Nat.add_0_r.
        -- destruct (He j r Hj) as (e' & He' & ->). exists e'.
           rewrite Hcalls, <- app_assoc in He'. cbn [take concat].
           now replace (lo + S j)%nat with (S lo + j)%nat by lia.
      * rewrite (for_loop_step _ _ _ _ _ Hbody).
        destruct Hrun as [(-> & -> & Hrun) | (Hlt & (data & Hok & ->) & Hrun)];
          [left; auto | right].
        split; [lia|]. split; [|exact Hrun]. exists data.
        rewrite Hcalls, <- app_assoc in Hok. cbn [take concat].
        now replace (lo + S k)%nat with (S lo + k)%nat by lia.
    + exists 0%nat, [], (constructExecutionMetaData (returnJsonArray_items data) lo),
        [get_calls env lo (calls s)], s1.
      split; [exact Hdata|].
      split; [cbn; now rewrite app_nil_r|].
      split; [lia|]. split; [reflexivity|].
      split; [cbn [length]; lia|].
      split; [|split].
      * intros [|j] g Hj; cbn in Hj; [|discriminate Hj].
        injection Hj as <-. cbn. now rewrite app_nil_r, Nat.add_0_r.
      * intros j r Hj. discriminate Hj.
      * right. split; [lia|]. split; [|now apply for_loop_return].
        exists data. cbn. now rewrite app_nil_r, Nat.add_0_r.
Qed.

End GetWithPrefix.

(** [get] on a draft or message, lines 168-225, with continue-on-fail and a
    prefix for the attachments on every item.  Every item that is reached
    makes its request, with the fields and filters written so far as query,
    and, when the request is answered, asks for the download of the
    attachments of the answer.  The run stops at the first item [k] whose
    request and download both succeed: for each item before [k] the request
    or the download failed, and the output holds the marker of that error,
    in item order; then come the records of the items downloaded for item
    [k], and nothing else; requests were made for the items up to [k] only.
    When every item fails ([k] is the number of items) the output holds the
    error markers alone. *)
Theorem get_with_prefix_stops_at_first_success env input :
  includes ["draft"; "message"] (getNodeParameter env "resource" 0) = true ->
  strict_eq (getNodeParameter env "operation" 0) "get" = true ->
  continueOnFail env = true ->
  (forall i, (i < length input)%nat -> truthy (attachment_prefix env i) = true) ->
  exists k failures block groups s',
    execute env input = (Normal [failures ++ block], s') /\
    (k <= length input)%nat /\
    Forall2 error_of (seq 0 k) failures /\
    Forall (origin k) block /\
    (k = length input -> block = []) /\
    calls s' = concat groups /\
    Forall2 (item_requests env) (seq 0 (min (S k) (length input))) groups /\
    (forall j g, groups !! j = Some g -> g = get_calls env j (concat (take j groups))) /\
    (forall j r, failures !! j = Some r ->
       exists e, get_outcome env j (concat (take j groups)) = inl e /\
                 r = error_record j e) /\
    ((k < length input)%nat ->
     exists data,
       get_outcome env k (concat (take k groups)) = inr data /\
       block = constructExecutionMetaData (returnJsonArray_items data) k).
Proof.
  intros Hr Ho Hcof Hprefix.
  destruct (get_prefix_loop env Hr Ho Hcof (length input) 0%nat (initial_state input))
    as (k & failures & block & groups & s' & Hd & Hc & Hk & Hf & Hlen & Hg & He & Hrun);
    [intros; apply Hprefix; lia | reflexivity |].
  exists k, failures, block, groups, s'.
  cbn [initial_state returnData calls app Nat.add] in Hd, Hc, Hg, He, Hrun.
  assert (Hacc : returns_items (getNodeParameter env "resource" 0)
                   (getNodeParameter env "operation" 0) = false).
  { unfold returns_items. rewrite (strict_eq_true _ _ Ho). cbn.
    now rewrite !andb_false_r. }
  assert (Hfailures : Forall2 error_of (seq 0 k) failures).
  { apply Forall2_same_length_lookup_2; [now rewrite length_seq|].
    intros j i r Hi Hj. apply lookup_seq in Hi as [-> _].
    destruct (He j r Hj) as (e & _ & ->). now exists e. }
  assert (Hgroups : Forall2 (item_requests env) (seq 0 (min (S k) (length input))) groups).
  { apply Forall2_same_length_lookup_2; [now rewrite length_seq|].
    intros j i g Hi Hj. apply lookup_seq in Hi as [-> _].
    rewrite (Hg j g Hj). apply get_calls_requests. }
  assert (Hblock : Forall (origin k) block).
  { destruct Hrun as [(_ & -> & _) | (_ & (data & _ & ->) & _)];
      [constructor | apply origin_construct]. }
  rewrite execute_unfold.
  destruct Hrun as [(-> & -> & ->) | (Hlt & Hdata & ->)]; rewrite ?Hacc, Hd.
  - repeat split; auto. intros Hlt. lia.
  - repeat split; auto. lia.
Qed.

Lemma get_with_prefix_stops_at_first_success_witness :
  let input := [plain_item; plain_item; plain_item] in
  exists k failures block groups s',
    execute first_success_env input = (Normal [failures ++ block], s') /\
    (k <= 3)%nat /\
    Forall2 error_of (seq 0 k) failures /\
    Forall (origin k) block /\
    (k = 3%nat -> block = []) /\
    calls s' = concat groups /\
    Forall2 (item_requests first_success_env) (seq 0 (min (S k) 3)) groups.
Proof.
  intros input.
  destruct (get_with_prefix_stops_at_first_success first_success_env input
              eq_refl eq_refl eq_refl)
    as (k & failures & block & groups & s' & H1 & H2 & H3 & H4 & H5 & H6 & H7 & _).
  - intros i _. reflexivity.
  - exists k, failures, block, groups, s'. repeat split; assumption.
Defined.

(** On that run the second item is the first to succeed: the third one is
    never requested. *)
Example third_item_never_requested :
  let input := [plain_item; plain_item; plain_item] in
  fst (execute first_success_env input)
  = Normal [[error_record 0 (ExternalError "Message not found");
             {| json := obj [("id", JStr "m1")]; binary := None; pairedItem := Some 1%nat |}]] /\
  calls (snd (execute first_success_env input))
  = [get_request first_success_env 0 ∅;
     get_request first_success_env 1 ∅;
     DownloadAttachments (obj [("id", JStr "m1")]) "attachment_"].
Proof. split; vm_compute; reflexivity. Qed.

(** * Loops of one request per item, with or without continue-on-fail *)

Section RequestLoop.

Variable env : Env.
Variable call : nat -> Call.
Variable inv : nat -> State -> Prop.
Variable N : nat.

(** Item [i] makes the request [call i]; it goes on to the next item when
    the request is answered or continue-on-fail is set, and throws the
    server's error otherwise. *)
Hypothesis Hitem : forall i s,
  (i < N)%nat -> inv i s ->
  calls (snd (item_body env i s)) = calls s ++ [call i] /\
  inv (S i) (snd (item_body env i s)) /\
  match fst (item_body env i s) with
  | Normal Continue =>
      continueOnFail env = true \/ exists v, server env (calls s) (call i) = inr v
  | Normal (Return _) => False
  | Throw e => continueOnFail env = false /\ server env (calls s) (call i) = inl e
  end.

Lemma request_loop n : forall lo s,
  (lo + n <= N)%nat -> inv lo s ->
  exists m,
    (m <= n)%nat /\
    calls (snd (for_loop (item_body env) lo n s)) = calls s ++ (call <$> seq lo m) /\
    match fst (for_loop (item_body env) lo n s) with
    | Normal Continue =>
        m = n /\
        (continueOnFail env = false ->
         forall k, (k < m)%nat ->
           exists v, server env (calls s ++ (call <$> seq lo k)) (call (lo + k)%nat)
                     = inr v)
    | Normal (Return _) => False
    | Throw e =>
        continueOnFail env = false /\
        exists last,
          m = S last /\
          (forall k, (k < last)%nat ->
             exists v, server env (calls s ++ (call <$> seq lo k)) (call (lo + k)%nat)
                       = inr v) /\
          server env (calls s ++ (call <$> seq lo last)) (call (lo + last)%nat) = inl e
    end.
Proof.
  induction n as [|n IH]; intros lo s Hn Hinv.
  - exists 0%nat. cbn. rewrite app_nil_r. repeat split; auto. intros _ k Hk. lia.
  - destruct (Hitem lo s ltac:(lia) Hinv) as (Hcalls & Hnext & Hrun).
    destruct (item_body env lo s) as [[[|out]|e] s1] eqn:Hbody; cbn [fst snd] in *.
    + rewrite (for_loop_step _ _ _ _ _ Hbody).
      destruct (IH (S lo) s1 ltac:(lia) Hnext) as (m & Hm & Hc & Hrest).
      assert (Hshift : continueOnFail env = false -> forall bound,
        (forall k, (k < bound)%nat ->
           exists v, server env (calls s1 ++ (call <$> seq (S lo) k))
                       (call (S lo + k)%nat) = inr v) ->
        forall k, (k < S bound)%nat ->
           exists v, server env (calls s ++ (call <$> seq lo k)) (call (lo + k)%nat)
                     = inr v).
      { intros Hcof bound Hb [|k] Hk.
        - cbn. rewrite app_nil_r, Nat.add_0_r.
          destruct Hrun as [Hrun | Hrun]; [congruence | exact Hrun].
        - destruct (Hb k ltac:(lia)) as [v Hv]. exists v.
          rewrite Hcalls, <- app_assoc in Hv. cbn [seq fmap list_fmap].
          change (list_fmap _ _ ?f ?l) with (f <$> l).
          now replace (lo + S k)%nat with (S lo + k)%nat by lia. }
      exists (S m). split; [lia|].
      split; [rewrite Hc, Hcalls, <- app_assoc; reflexivity|].
      destruct (fst (for_loop (item_body env) (S lo) n s1)) as [[|out]|e];
        [| contradiction |].
      * destruct Hrest as [-> Hacc]. split; [reflexivity|].
        intros Hcof. apply (Hshift Hcof n), Hacc, Hcof.
      * destruct Hrest as (Hcof & last & -> & Hacc & Hrefused).
        split; [exact Hcof|]. exists (S last). split; [reflexivity|].
        split; [now apply (Hshift Hcof)|].
        rewrite Hcalls, <- app_assoc in Hrefused. cbn [seq fmap list_fmap].
        change (list_fmap _ _ ?f ?l) with (f <$> l).
        now replace (lo + S last)%nat with (S lo + last)%nat by lia.
    + contradiction.
    + rewrite (for_loop_throw _ _ _ _ _ _ Hbody). cbn [fst snd].
      destruct Hrun as [Hcof Hrefused].
      exists 1%nat. split; [lia|]. split; [exact Hcalls|].
      split; [exact Hcof|]. exists 0%nat. split; [reflexivity|].
      split; [intros k Hk; lia|]. cbn. now rewrite app_nil_r, Nat.add_0_r.
Qed.

Lemma take_requests k m :
  (k <= m)%nat -> take k (call <$> seq 0 m) = call <$> seq 0 k.
Proof. intros Hk. rewrite <- fmap_take, take_seq. now rewrite Nat.min_l. Qed.

Lemma lookup_requests k m c :
  (call <$> seq 0 m) !! k = Some c -> c = call k /\ (k < m)%nat.
Proof.
  intros Hc. apply list_lookup_fmap_Some in Hc as (j & -> & Hj).
  apply lookup_seq in Hj as [-> Hk]. auto.
Qed.

Lemma request_execute input :
  N = length input ->
  inv 0%nat (initial_state input) ->
  exists m,
    (m <= length input)%nat /\
    calls (snd (execute env input)) = call <$> seq 0 m /\
    (continueOnFail env = true -> m = length input) /\
    stops_at_first_refusal env (calls (snd (execute env input))) (length input)
      (fst (execute env input)).
Proof.
  intros HN Hinv.
  destruct (request_loop (length input) 0%nat (initial_state input))
    as (m & Hm & Hc & Hrun); [lia | exact Hinv |].
  cbn [calls initial_state app] in Hc, Hrun.
  assert (Hexec :
    calls (snd (execute env input))
    = calls (snd (for_loop (item_body env) 0 (length input) (initial_state input))) /\
    match fst (for_loop (item_body env) 0 (length input) (initial_state input)) with
    | Normal Continue => exists out, fst (execute env input) = Normal out
    | Normal (Return _) => True
    | Throw e => fst (execute env input) = Throw e
    end).
  { rewrite execute_unfold.
    destruct (for_loop (item_body env) 0 (length input) (initial_state input))
      as [[[|out]|e] s']; cbn [fst snd]; auto.
    destruct (returns_items _ _); cbn [fst snd]; eauto. }
  destruct Hexec as [Hcalls Hresult]. rewrite Hcalls, Hc.
  exists m. split; [exact Hm|]. split; [reflexivity|].
  destruct (fst (for_loop (item_body env) 0 (length input) (initial_state input)))
    as [[|out]|e]; [| contradiction |].
  - destruct Hrun as [-> Hacc]. destruct Hresult as [out ->].
    split; [reflexivity|]. cbn. split; [now rewrite length_fmap, length_seq|].
    intros Hcof k c Hk. apply lookup_requests in Hk as [-> Hk].
    rewrite take_requests by lia. now apply Hacc.
  - destruct Hrun as (Hcof & last & -> & Hacc & Hrefused). rewrite Hresult.
    split; [congruence|]. cbn - [take seq].
    split; [exact Hcof|]. exists last, (call last).
    split; [now rewrite length_fmap, length_seq|].
    split; [rewrite list_lookup_fmap, lookup_seq_lt by lia; reflexivity|].
    split; [rewrite take_requests by lia; exact Hrefused|].
    intros k c' Hk Hc'. apply lookup_requests in Hc' as [-> _].
    rewrite take_requests by lia. now apply Hacc.
Qed.

End RequestLoop.

(** * The query of [messageAttachment.get] *)

Lemma select_only_insert q v :
  select_only q -> <["$select" := v]> q = {[ "$select" := v ]}.
Proof.
  intros Hq. apply map_eq. intros k.
  destruct (decide (k = "$select")) as [->|Hk].
  - now rewrite lookup_insert_eq, lookup_singleton_eq.
  - rewrite lookup_insert_ne, lookup_singleton_ne by congruence. now apply Hq.
Qed.

Lemma select_only_singleton v : select_only {[ "$select" := v ]}.
Proof. intros k Hk. apply lookup_singleton_ne. congruence. Qed.

(** One item: the request is the item's own, and the query is left holding
    [$select] only. *)
Lemma attachment_get_item env i s :
  strict_eq (getNodeParameter env "resource" 0) "messageAttachment" = true ->
  strict_eq (getNodeParameter env "operation" 0) "get" = true ->
  select_only (qs s) ->
  calls (snd (item_body env i s)) = calls s ++ [attachment_get_call env i] /\
  select_only (qs (snd (item_body env i s))) /\
  match fst (item_body env i s) with
  | Normal Continue =>
      continueOnFail env = true \/
      exists v, server env (calls s) (attachment_get_call env i) = inr v
  | Normal (Return _) => False
  | Throw e =>
      continueOnFail env = false /\ server env (calls s) (attachment_get_call env i) = inl e
  end.
Proof.
  intros Hr Ho Hq. apply strict_eq_true in Hr, Ho.
  assert (Htry : operation_try env = messageAttachment_get_try env)
    by (unfold operation_try; now rewrite Hr, Ho).
  assert (Hcatch : operation_catch env = catch_push env)
    by (unfold operation_catch; now rewrite Hr, Ho).
  assert (Hrun : messageAttachment_get_try env i s
    = let s1 := with_qs {[ "$select" := attachment_select env i ]}
                  (call_state [attachment_get_call env i] s) in
      match server env (calls s) (attachment_get_call env i) with
      | inl e => (Throw e, s1)
      | inr response =>
          (Normal Continue,
           push_state (constructExecutionMetaData (returnJsonArray response) i) s1)
      end).
  { unfold messageAttachment_get_try.
    unfold bind at 1. unfold set_qs at 1.
    rewrite when_set_qs. cbn [qs].
    replace (if truthy (field (getNodeParameter env "additionalFields" i) "fields")
             then <["$select" := field (getNodeParameter env "additionalFields" i) "fields"]>
                    (<["$select" := default_attachment_select]> (qs s))
             else <["$select" := default_attachment_select]> (qs s))
      with ({[ "$select" := attachment_select env i ]} : gmap string JsonValue).
    2:{ unfold attachment_select, or_else. destruct (truthy _).
        - now rewrite insert_insert_eq, (select_only_insert _ _ Hq).
        - now rewrite (select_only_insert _ _ Hq). }
    unfold bind, get_qs, microsoftApiRequest, perform, push, ret.
    cbn [qs with_qs calls]. fold (attachment_get_call env i).
    now destruct (server env (calls s) (attachment_get_call env i)). }
  unfold item_body, try_catch. rewrite Htry, Hcatch, Hrun. cbv zeta.
  destruct (server env (calls s) (attachment_get_call env i)) as [e|response].
  - unfold catch_push. destruct (continueOnFail env); cbn;
      auto using select_only_singleton.
  - cbn. eauto using select_only_singleton.
Qed.

(** [messageAttachment.get], lines 818-855.  The request of every item
    carries one query parameter, [$select], and its value is that item's
    own: the fields it names, or the default list when it names none.
    Nothing an earlier item asked for is sent again.  The requests are made
    in item order, one per item: for every item with continue-on-fail;
    without it, for the items up to the first whose request the server
    refuses, that request being the last one made and its error the one
    [execute] throws. *)
Theorem attachment_get_query_is_per_item env input :
  strict_eq (getNodeParameter env "resource" 0) "messageAttachment" = true ->
  strict_eq (getNodeParameter env "operation" 0) "get" = true ->
  exists m,
    (m <= length input)%nat /\
    calls (snd (execute env input)) = attachment_get_call env <$> seq 0 m /\
    (continueOnFail env = true -> m = length input) /\
    stops_at_first_refusal env (calls (snd (execute env input))) (length input)
      (fst (execute env input)).
Proof.
  intros Hr Ho.
  apply (request_execute env (attachment_get_call env) (fun _ s => select_only (qs s))
           (length input)).
  - intros i s _ Hq. now apply attachment_get_item.
  - reflexivity.
  - intros k _. apply lookup_empty.
Qed.

Lemma attachment_get_query_is_per_item_witness :
  calls (snd (execute select_env [plain_item; plain_item]))
  = [ApiRequest "GET" "/messages/m1/attachments/a0" JUndefined
       (JObj {[ "$select" := JStr "id,size" ]}) JUndefined;
     ApiRequest "GET" "/messages/m1/attachments/a1" JUndefined
       (JObj {[ "$select" := default_attachment_select ]}) JUndefined].
Proof.
  destruct (attachment_get_query_is_per_item select_env [plain_item; plain_item]
              eq_refl eq_refl) as (m & Hm & Hcalls & Hall & _).
  rewrite Hcalls, (Hall eq_refl). reflexivity.
Defined.

(** * Listing the contents of a folder *)

Lemma folder_listing_item env i s :
  folder_listing env ->
  truthy (getNodeParameter env "returnAll" i) = true ->
  qs s = query_after env i ->
  calls (snd (item_body env i s)) = calls s ++ [folder_listing_call env i] /\
  qs (snd (item_body env i s)) = query_after env (S i) /\
  match fst (item_body env i s) with
  | Normal Continue =>
      continueOnFail env = true \/
      exists v, server env (calls s) (folder_listing_call env i) = inr v
  | Normal (Return _) => False
  | Throw e =>
      continueOnFail env = false /\ server env (calls s) (folder_listing_call env i) = inl e
  end.
Proof.
  intros Hop Hall Hq.
  assert (Hcatch : operation_catch env = catch_push env)
    by (unfold operation_catch; destruct Hop as [[-> ->] | [-> ->]]; reflexivity).
  assert (Hrun : operation_try env i s
    = let s1 := with_qs (query_after env (S i))
                  (call_state [folder_listing_call env i] s) in
      match server env (calls s) (folder_listing_call env i) with
      | inl e => (Throw e, s1)
      | inr response =>
          (Normal Continue,
           push_state (constructExecutionMetaData (returnJsonArray response) i) s1)
      end).
  { assert (Hbody : forall endpoint,
      endpoint = folder_listing_endpoint env i ->
      (when_ (truthy (field (getNodeParameter env "additionalFields" i) "fields"))
         (set_qs "$select" (field (getNodeParameter env "additionalFields" i) "fields")) ;;
       when_ (truthy (field (getNodeParameter env "additionalFields" i) "filter"))
         (set_qs "$filter" (field (getNodeParameter env "additionalFields" i) "filter")) ;;
       let! responseData :=
         list_request env i (getNodeParameter env "returnAll" i)
           (fun qs => microsoftApiRequestAllItems env "value" "GET" endpoint (JObj qs) JUndefined)
           (fun qs => microsoftApiRequest env "GET" endpoint JUndefined (JObj qs) JUndefined) in
       push (constructExecutionMetaData (returnJsonArray responseData) i) ;;
       ret Continue) s
      = let s1 := with_qs (query_after env (S i))
                    (call_state [folder_listing_call env i] s) in
        match server env (calls s) (folder_listing_call env i) with
        | inl e => (Throw e, s1)
        | inr response =>
            (Normal Continue,
             push_state (constructExecutionMetaData (returnJsonArray response) i) s1)
        end).
    { intros endpoint ->. rewrite !when_set_qs. unfold list_request. rewrite Hall.
      unfold bind, get_qs, microsoftApiRequestAllItems, perform, push, ret.
      cbn [qs with_qs calls]. rewrite Hq.
      change (if truthy (field (getNodeParameter env "additionalFields" i) "filter")
              then _ else _) with (query_after env (S i)).
      fold (folder_listing_call env i).
      now destruct (server env (calls s) (folder_listing_call env i)). }
    destruct Hop as [[Hr Ho] | [Hr Ho]].
    - assert (Htry : operation_try env = folder_getChildren_try env)
        by (unfold operation_try; now rewrite Hr, Ho).
      rewrite Htry. unfold folder_getChildren_try. cbv zeta. apply Hbody.
      unfold folder_listing_endpoint. now rewrite Hr.
    - assert (Htry : operation_try env = folderMessage_try env (JStr "getAll"))
        by (unfold operation_try; now rewrite Hr, Ho).
      rewrite Htry. unfold folderMessage_try.
      change (strict_eq (JStr "getAll") "getAll") with true. cbv iota zeta.
      apply Hbody. unfold folder_listing_endpoint. now rewrite Hr. }
  unfold item_body, try_catch. rewrite Hcatch, Hrun. cbv zeta.
  destruct (server env (calls s) (folder_listing_call env i)) as [e|response].
  - unfold catch_push. destruct (continueOnFail env); cbn; auto.
  - cbn. eauto.
Qed.

(** [folder.getChildren] and [folderMessage.getAll] with Return All, lines
    1084-1090 and 1175-1181.  Every request is the paginated one, and it is
    made with no query argument: the shared query, that is the fields and
    filters written by the items so far, is passed where the request body
    goes.  The requests are made in item order, one per item: for every
    item with continue-on-fail; without it, for the items up to the first
    whose request the server refuses, that request being the last one made
    and its error the one [execute] throws. *)
Theorem folder_listing_query_sent_as_body env input :
  folder_listing env ->
  (forall i, (i < length input)%nat ->
             truthy (getNodeParameter env "returnAll" i) = true) ->
  exists m,
    (m <= length input)%nat /\
    calls (snd (execute env input)) = folder_listing_call env <$> seq 0 m /\
    (continueOnFail env = true -> m = length input) /\
    stops_at_first_refusal env (calls (snd (execute env input))) (length input)
      (fst (execute env input)).
Proof.
  intros Hop Hall.
  apply (request_execute env (folder_listing_call env)
           (fun i s => qs s = query_after env i) (length input)).
  - intros i s Hi Hq. apply folder_listing_item; auto.
  - reflexivity.
  - reflexivity.
Qed.

Lemma folder_listing_query_sent_as_body_witness :
  calls (snd (execute children_env [plain_item; plain_item]))
  = [ApiRequestAllItems "value" "GET" "/mailFolders/f0/childFolders"
       (JObj {[ "$filter" := JStr "isHidden eq false" ]}) JUndefined;
     ApiRequestAllItems "value" "GET" "/mailFolders/f1/childFolders"
       (JObj {[ "$filter" := JStr "isHidden eq false" ]}) JUndefined].
Proof.
  destruct (folder_listing_query_sent_as_body children_env [plain_item; plain_item])
    as (m & Hm & Hcalls & Hall & _).
  - left. split; reflexivity.
  - intros i _. reflexivity.
  - rewrite Hcalls, (Hall eq_refl). vm_compute. reflexivity.
Defined.

(** * The query of [folder.get] *)

(** The shared query holds the latest fields and the latest filter, and
    nothing else. *)
Lemma query_after_lookup env n :
  query_after env n !! "$select" = latest env "fields" n /\
  query_after env n !! "$filter" = latest env "filter" n /\
  forall k, k <> "$select" -> k <> "$filter" -> query_after env n !! k = None.
Proof.
  induction n as [|n IH].
  { cbn. split; [apply lookup_empty|]. split; [apply lookup_empty|].
    intros k _ _. apply lookup_empty. }
  destruct IH as (Hselect & Hfilter & Hother).
  cbn [query_after latest]. unfold item_query.
  destruct (truthy (field (getNodeParameter env "additionalFields" n) "fields"));
    destruct (truthy (field (getNodeParameter env "additionalFields" n) "filter")).
  all: split; [|split]; [..|intros k H1 H2].
  all: rewrite ?lookup_insert_eq, ?lookup_insert_ne by congruence; auto.
  all: rewrite ?lookup_insert_eq, ?lookup_insert_ne by congruence; auto.
Qed.

Lemma folder_get_item env i s :
  getNodeParameter env "resource" 0 = JStr "folder" ->
  getNodeParameter env "operation" 0 = JStr "get" ->
  qs s = query_after env i ->
  calls (snd (item_body env i s)) = calls s ++ [folder_get_call env i] /\
  qs (snd (item_body env i s)) = query_after env (S i) /\
  match fst (item_body env i s) with
  | Normal Continue =>
      continueOnFail env = true \/
      exists v, server env (calls s) (folder_get_call env i) = inr v
  | Normal (Return _) => False
  | Throw e =>
      continueOnFail env = false /\ server env (calls s) (folder_get_call env i) = inl e
  end.
Proof.
  intros Hr Ho Hq.
  assert (Htry : operation_try env = folder_get_try env)
    by (unfold operation_try; now rewrite Hr, Ho).
  assert (Hcatch : operation_catch env = catch_push env)
    by (unfold operation_catch; now rewrite Hr, Ho).
  assert (Hrun : folder_get_try env i s
    = let s1 := with_qs (query_after env (S i))
                  (call_state [folder_get_call env i] s) in
      match server env (calls s) (folder_get_call env i) with
      | inl e => (Throw e, s1)
      | inr response =>
          (Normal Continue,
           push_state (constructExecutionMetaData (returnJsonArray response) i) s1)
      end).
  { unfold folder_get_try. rewrite !when_set_qs.
    unfold bind, get_qs, microsoftApiRequest, perform, push, ret.
    cbn [qs with_qs calls]. rewrite Hq.
    change (if truthy (field (getNodeParameter env "additionalFields" i) "filter")
            then _ else _) with (query_after env (S i)).
    fold (folder_get_call env i).
    now destruct (server env (calls s) (folder_get_call env i)). }
  unfold item_body, try_catch. rewrite Htry, Hcatch, Hrun. cbv zeta.
  destruct (server env (calls s) (folder_get_call env i)) as [e|response].
  - unfold catch_push. destruct (continueOnFail env); cbn; auto.
  - cbn. eauto.
Qed.

(** [folder.get], lines 982-1019.  One request is made per item, in item
    order: for every item with continue-on-fail; without it, for the items
    up to the first whose request the server refuses, that request being
    the last one made and its error the one [execute] throws.  The request
    of item [i] carries as [$select] the fields, and as [$filter] the
    filter, of the last item up to [i] that gives them: an item that gives
    none inherits those of the nearest earlier item that did, and sends none
    when there is no such item.  No other query parameter is sent. *)
Theorem folder_get_query_inherited env input :
  getNodeParameter env "resource" 0 = JStr "folder" ->
  getNodeParameter env "operation" 0 = JStr "get" ->
  exists m,
    (m <= length input)%nat /\
    (continueOnFail env = true -> m = length input) /\
    length (calls (snd (execute env input))) = m /\
    stops_at_first_refusal env (calls (snd (execute env input))) (length input)
      (fst (execute env input)) /\
    forall i c,
      calls (snd (execute env input)) !! i = Some c ->
      exists q,
        c = ApiRequest "GET"
              ("/mailFolders/" +:+ toString (getNodeParameter env "folderId" i))
              (JObj ∅) (JObj q) JUndefined /\
        q !! "$select" = latest env "fields" (S i) /\
        q !! "$filter" = latest env "filter" (S i) /\
        forall k, k <> "$select" -> k <> "$filter" -> q !! k = None.
Proof.
  intros Hr Ho.
  destruct (request_execute env (folder_get_call env)
              (fun i s => qs s = query_after env i) (length input))
    with (input := input) as (m & Hm & Hcalls & Hcof & Hstops).
  { intros i s _ Hq. now apply folder_get_item. }
  { reflexivity. }
  { reflexivity. }
  exists m. split; [exact Hm|]. split; [exact Hcof|].
  split; [now rewrite Hcalls, length_fmap, length_seq|].
  split; [exact Hstops|].
  rewrite Hcalls.
  intros i c Hi. rewrite list_lookup_fmap in Hi.
  destruct (seq 0 m !! i) as [j|] eqn:Hj; [|discriminate Hi].
  apply lookup_seq in Hj as [-> _]. cbn in Hi. injection Hi as <-.
  exists (query_after env (S i)). split; [reflexivity|].
  apply query_after_lookup.
Qed.

Lemma folder_get_query_inherited_witness :
  exists q,
    calls (snd (execute inherit_env [plain_item; plain_item; plain_item])) !! 2%nat
    = Some (ApiRequest "GET" "/mailFolders/f2" (JObj ∅) (JObj q) JUndefined) /\
    q !! "$select" = Some (JStr "displayName") /\
    q !! "$filter" = Some (JStr "isHidden eq false").
Proof.
  destruct (folder_get_query_inherited inherit_env [plain_item; plain_item; plain_item]
              eq_refl eq_refl) as (m & _ & _ & _ & _ & Hcall).
  destruct (Hcall 2%nat (folder_get_call inherit_env 2) eq_refl)
    as (q & Hc & Hselect & Hfilter & _).
  exists q. injection Hc as <-. split; [reflexivity|]. split; reflexivity.
Defined.

(** * Downloading an attachment *)

(** [messageAttachment.download], lines 759-807, for an item whose two
    requests are answered.  The details are asked for first, with the fixed
    selection [id,name,contentType], then the content.  The item is replaced
    by one with the same JSON whose binary map holds, under the requested
    property name, the bytes of the content, with the [name] of the details
    as file name and their [contentType], when there is one, as MIME type;
    the binary fields the item had under other names are kept. *)
Theorem download_entry env i s x details response bytes :
  items s !! i = Some x ->
  server env (calls s) (details_call env i) = inr (JObj details) ->
  server env (calls s ++ [details_call env i]) (content_call env i) = inr response ->
  field response "body" = JBuffer bytes ->
  binaryStore_error env bytes = None ->
  let name := download_property env i in
  let contentType := default JUndefined (details !! "contentType") in
  let attachmentName := default JUndefined (details !! "name") in
  let filePath :=
    if is_undefined attachmentName then None else Some (toString attachmentName) in
  let payload :=
    {| data := bytes;
       mimeType := if truthy contentType then Some (toString contentType)
                   else guessMimeType env bytes filePath;
       fileName := filePath |} in
  exists y new,
    messageAttachment_download_try env i s
    = (Normal Continue,
       with_new_item i y (call_state [details_call env i; content_call env i] s)) /\
    json y = json x /\
    binary y = Some new /\
    new !! name = Some payload /\
    forall k, k <> name -> new !! k = default ∅ (binary x) !! k.
Proof.
  intros Hi Hdetails Hcontent Hbody Hstore name contentType attachmentName filePath payload.
  exists (enriched_item x name payload), (<[name := payload]> (default ∅ (binary x))).
  split; [|split; [reflexivity|split; [reflexivity|split]]].
  - unfold messageAttachment_download_try, microsoftApiRequest. cbv zeta.
    fold (details_call env i). fold (content_call env i).
    rewrite (bind_normal _ _ _ _ _ (perform_ok _ _ _ _ Hdetails)).
    unfold bind at 1. cbn [prop ret field]. fold contentType.
    unfold bind at 1. cbn [prop ret field]. fold attachmentName. fold filePath.
    assert (Hsecond : server env (calls (call_state [details_call env i] s))
                        (content_call env i) = inr response) by exact Hcontent.
    rewrite (bind_normal _ _ _ _ _ (perform_ok _ _ _ _ Hsecond)).
    rewrite call_state_app. cbn [app].
    set (s2 := call_state [details_call env i; content_call env i] s).
    change (store_download env i response filePath
              (if truthy contentType then Some (toString contentType) else None) s2
            = (Normal Continue, with_new_item i (enriched_item x name payload) s2)).
    rewrite (store_download_run env i response _ _ s2 x Hi). cbv zeta.
    assert (Hobj : exists o, response = JObj o)
      by (destruct response; try discriminate Hbody; eauto).
    destruct Hobj as [o ->].
    cbn [prop ret]. rewrite Hbody. cbn [Buffer_from ret]. rewrite Hstore.
    unfold prepared_payload, payload. fold name.
    destruct (truthy contentType); reflexivity.
  - apply lookup_insert_eq.
  - intros k Hk. now apply lookup_insert_ne.
Qed.

Lemma download_entry_witness :
  exists y new payload,
    items (snd (messageAttachment_download_try download_env 0
                  (initial_state [photo_item]))) = [y] /\
    json y = json photo_item /\
    binary y = Some new /\
    new !! "data" = Some payload /\
    fileName payload = Some "offer.pdf" /\
    mimeType payload = Some "application/pdf" /\
    data payload = list_byte_of_string "%PDF-1.7" /\
    new !! "photo" = default ∅ (binary photo_item) !! "photo".
Proof.
  destruct (download_entry download_env 0 (initial_state [photo_item]) photo_item
              (list_to_map [("id", JStr "a1"); ("name", JStr "offer.pdf");
                            ("contentType", JStr "application/pdf")])
              (obj [("body", JBuffer (list_byte_of_string "%PDF-1.7"))])
              (list_byte_of_string "%PDF-1.7")
              eq_refl eq_refl eq_refl eq_refl eq_refl)
    as (y & new & Hrun & Hjson & Hbinary & Hnew & Hkept).
  exists y, new. eexists.
  split; [rewrite Hrun; reflexivity|].
  split; [exact Hjson|]. split; [exact Hbinary|].
  split; [exact Hnew|]. split; [reflexivity|]. split; [reflexivity|].
  split; [reflexivity|]. apply Hkept. discriminate.
Defined.

(** * Replying to a message *)

Lemma posts_accepted_nil env id history : posts_accepted env id history [].
Proof. intros k a Hk. discriminate Hk. Qed.

Lemma posts_accepted_cons env id history a uploads v :
  server env history (reply_attachment_call id a) = inr v ->
  posts_accepted env id (history ++ [reply_attachment_call id a]) uploads ->
  posts_accepted env id history (a :: uploads).
Proof.
  intros Hv Hrest [|k] a' Hk; cbn in Hk.
  - injection Hk as <-. exists v. cbn. now rewrite app_nil_r.
  - destruct (Hrest k a' Hk) as [v' Hv']. exists v'.
    rewrite <- app_assoc in Hv'. exact Hv'.
Qed.

(** The loop of lines 390-398: the attachments are posted in order, each
    after the one before was accepted, until one is refused; nothing else
    changes. *)
Lemma reply_upload_loop env id data : forall s,
  exists uploads rest,
    data = uploads ++ rest /\
    let run := for_of data (fun attachment =>
                 microsoftApiRequest env "POST"
                   ("/messages/" +:+ toString id +:+ "/attachments")
                   attachment (JObj ∅) JUndefined ;;
                 ret tt) s in
    snd run = call_state (reply_attachment_call id <$> uploads) s /\
    match fst run with
    | Normal _ => rest = [] /\ posts_accepted env id (calls s) uploads
    | Throw e =>
        exists before a,
          uploads = before ++ [a] /\
          posts_accepted env id (calls s) before /\
          server env (calls s ++ (reply_attachment_call id <$> before))
            (reply_attachment_call id a) = inl e
    end.
Proof.
  set (post := fun attachment : JsonValue => _).
  assert (Hpost : forall a s,
    post a s = match server env (calls s) (reply_attachment_call id a) with
               | inl e => (Throw e, call_state [reply_attachment_call id a] s)
               | inr _ => (Normal tt, call_state [reply_attachment_call id a] s)
               end).
  { intros a s. unfold post, bind, microsoftApiRequest, perform, ret.
    fold (reply_attachment_call id a).
    now destruct (server env (calls s) (reply_attachment_call id a)). }
  clearbody post.
  induction data as [|a data IH]; intros s.
  - exists [], []. cbn. rewrite call_state_nil.
    auto using posts_accepted_nil.
  - cbn [for_of]. unfold bind. rewrite Hpost.
    destruct (server env (calls s) (reply_attachment_call id a)) as [e|v] eqn:Hsrv.
    + exists [a], data. cbn. split; [reflexivity|]. split; [reflexivity|].
      exists [], a. cbn. rewrite app_nil_r. auto using posts_accepted_nil.
    + destruct (IH (call_state [reply_attachment_call id a] s))
        as (uploads & rest & -> & Hstate & Hrun).
      exists (a :: uploads), rest. split; [reflexivity|]. cbv zeta in *.
      rewrite Hstate, call_state_app. split; [reflexivity|].
      cbn [calls call_state] in Hrun.
      destruct (fst _) as [u|e].
      * destruct Hrun as [-> Hacc]. split; [reflexivity|].
        now apply (posts_accepted_cons _ _ _ _ _ v).
      * destruct Hrun as (before & a' & -> & Hacc & Hrefused).
        exists (a :: before), a'. split; [reflexivity|].
        split; [now apply (posts_accepted_cons _ _ _ _ _ v)|].
        cbn [fmap list_fmap]. change (list_fmap _ _ ?f ?l) with (f <$> l).
        now rewrite <- app_assoc in Hrefused.
Qed.

(** [message.reply], lines 356-408, once the reply has been created.  The
    attachments are posted to the created reply one by one, in their order,
    each after the server accepted the one before, and the reply is sent
    only after all of them were accepted: when the conversion of the
    attachments fails nothing is posted; when the server refuses a post,
    that post is the last call; in both cases no send request is made, the
    posts already made stay, the error is thrown and no record is added.
    The item completes only when every post, and the send request if one is
    asked for, was accepted; the record added is then the created reply. *)
Theorem reply_sent_after_uploads env i s created :
  server env (calls s) (reply_call env i) = inr (JObj created) ->
  let id := default JUndefined (created !! "id") in
  let run := message_reply_try env i s in
  let history := calls s ++ [reply_call env i] in
  exists (uploads : list JsonValue) (sent : bool),
    calls (snd run)
    = calls s ++ reply_call env i :: (reply_attachment_call id <$> uploads)
              ++ (if sent then [reply_send_call id] else []) /\
    (forall data : list JsonValue, reply_attachments env i (items s) = inr data ->
                  exists rest, data = uploads ++ rest) /\
    (sent = true ->
     truthy (getNodeParameter env "send" i) = true /\
     reply_attachments env i (items s) = inr uploads /\
     posts_accepted env id history uploads) /\
    match fst run with
    | Normal _ =>
        reply_attachments env i (items s) = inr uploads /\
        posts_accepted env id history uploads /\
        sent = truthy (getNodeParameter env "send" i) /\
        (sent = true ->
         exists v,
           server env (history ++ (reply_attachment_call id <$> uploads))
             (reply_send_call id) = inr v) /\
        returnData (snd run)
        = returnData s ++ constructExecutionMetaData (returnJsonArray (JObj created)) i
    | Throw e =>
        returnData (snd run) = returnData s /\
        ((sent = false /\ uploads = [] /\
          reply_attachments env i (items s) = inl e) \/
         (sent = false /\
          exists before a,
            uploads = before ++ [a] /\
            posts_accepted env id history before /\
            server env (history ++ (reply_attachment_call id <$> before))
              (reply_attachment_call id a) = inl e) \/
         (sent = true /\
          server env (history ++ (reply_attachment_call id <$> uploads))
            (reply_send_call id) = inl e))
    end.
Proof.
  intros Hcreate id run history.
  set (s1 := call_state [reply_call env i] s).
  (* the creation *)
  assert (Hrun : run =
    ((when_ (truthy (field (getNodeParameter env "additionalFields" i) "attachments"))
        (let! items := get_items in
         let! data := lift_result
                        (binaryToAttachments env
                           (field (field (getNodeParameter env "additionalFields" i)
                                     "attachments") "attachments") items i) in
         for_of data (fun attachment =>
           let! id := prop (JObj created) "id" in
           microsoftApiRequest env "POST"
             ("/messages/" +:+ toString id +:+ "/attachments")
             attachment (JObj ∅) JUndefined ;;
           ret tt)) ;;
      when_ (truthy (getNodeParameter env "send" i))
        (let! id := prop (JObj created) "id" in
         microsoftApiRequest env "POST" ("/messages/" +:+ toString id +:+ "/send")
           JUndefined JUndefined JUndefined ;;
         ret tt) ;;
      push (constructExecutionMetaData (returnJsonArray (JObj created)) i) ;;
      ret Continue) s1)).
  { unfold run, message_reply_try, reply_call in *. cbv zeta.
    destruct (strict_eq (getNodeParameter env "replyType" i) "replyAll");
      unfold microsoftApiRequest at 1;
      now rewrite (bind_normal _ _ _ _ _ (perform_ok _ _ _ _ Hcreate)). }
  set (send := truthy (getNodeParameter env "send" i)) in *.
  (* the attachments *)
  assert (Hattach : exists uploads r,
    when_ (truthy (field (getNodeParameter env "additionalFields" i) "attachments"))
      (let! items := get_items in
       let! data := lift_result
                      (binaryToAttachments env
                         (field (field (getNodeParameter env "additionalFields" i)
                                   "attachments") "attachments") items i) in
       for_of data (fun attachment =>
         let! id := prop (JObj created) "id" in
         microsoftApiRequest env "POST"
           ("/messages/" +:+ toString id +:+ "/attachments")
           attachment (JObj ∅) JUndefined ;;
         ret tt)) s1
    = (r, call_state (reply_attachment_call id <$> uploads) s1) /\
    (forall data : list JsonValue, reply_attachments env i (items s) = inr data ->
                  exists rest, data = uploads ++ rest) /\
    match r with
    | Normal _ =>
        reply_attachments env i (items s) = inr uploads /\
        posts_accepted env id history uploads
    | Throw e =>
        (uploads = [] /\ reply_attachments env i (items s) = inl e) \/
        exists before a,
          uploads = before ++ [a] /\
          posts_accepted env id history before /\
          server env (history ++ (reply_attachment_call id <$> before))
            (reply_attachment_call id a) = inl e
    end).
  { unfold reply_attachments.
    destruct (truthy (field (getNodeParameter env "additionalFields" i) "attachments")).
    - cbn [when_]. unfold bind at 1. unfold get_items at 1. cbn [items s1 call_state].
      destruct (binaryToAttachments env _ (items s) i) as [e|data].
      + exists [], (Throw e). cbn. rewrite call_state_nil.
        split; [reflexivity|]. split; [discriminate | left; auto].
      + unfold bind at 1. cbn [lift_result ret].
        destruct (reply_upload_loop env id data s1)
          as (uploads & rest & -> & Hstate & Hloop).
        cbv zeta in Hstate, Hloop.
        match type of Hstate with
        | snd (?m s1) = _ =>
            match goal with
            | |- context [?m' s1 = _] =>
                change (m' s1) with (m s1); destruct (m s1) as [r s2]
            end
        end.
        cbn [fst snd] in *. subst s2.
        exists uploads, r. split; [reflexivity|].
        split; [intros data [= <-]; eauto|].
        destruct r as [u|e].
        * destruct Hloop as [-> Hacc]. now rewrite app_nil_r.
        * right. exact Hloop.
    - exists [], (Normal tt). cbn. rewrite call_state_nil.
      split; [reflexivity|].
      split; [intros data [= <-]; now exists []|].
      split; [reflexivity | apply posts_accepted_nil]. }
  destruct Hattach as (uploads & r & Hattach & Hprefix & Hall).
  set (s2 := call_state (reply_attachment_call id <$> uploads) s1) in *.
  assert (Hcalls : calls s2
                   = calls s ++ reply_call env i :: (reply_attachment_call id <$> uploads))
    by (unfold s2, s1; cbn; now rewrite <- List.app_assoc).
  assert (Hhistory : calls s2 = history ++ (reply_attachment_call id <$> uploads))
    by reflexivity.
  clearbody run. unfold bind at 1 in Hrun. rewrite Hattach in Hrun.
  destruct r as [[]|e].
  2:{ subst run. exists uploads, false. cbn [fst snd]. rewrite app_nil_r.
      split; [exact Hcalls|]. split; [exact Hprefix|].
      split; [discriminate|]. split; [reflexivity|].
      destruct Hall as [[-> Hconv] | Hrefused]; [left; auto | right; left; auto]. }
  destruct Hall as [Hconv Hacc].
  (* the send *)
  destruct send eqn:Hsend; cbn [when_] in Hrun.
  - unfold bind at 1 in Hrun. unfold bind at 1 in Hrun. cbn [prop ret] in Hrun.
    unfold microsoftApiRequest in Hrun.
    change (field (JObj created) "id") with id in Hrun.
    fold (reply_send_call id) in Hrun.
    exists uploads, true.
    unfold bind, perform, push, ret in Hrun.
    destruct (server env (calls s2) (reply_send_call id)) as [e|v] eqn:Hsrv;
      subst run; rewrite Hhistory in Hsrv;
      cbn [fst snd calls returnData]; rewrite Hcalls, <- List.app_assoc;
      (split; [reflexivity|]); (split; [exact Hprefix|]); (split; [auto|]).
    + split; [reflexivity|]. right. right. auto.
    + repeat split; eauto.
  - unfold bind, push, ret in Hrun. subst run. cbn [fst snd calls returnData].
    exists uploads, false. rewrite app_nil_r.
    split; [exact Hcalls|]. split; [exact Hprefix|]. split; [discriminate|].
    repeat split; auto. discriminate.
Qed.

Lemma reply_sent_after_uploads_witness :
  let env := reply_env 2 in
  let s := initial_state [plain_item] in
  exists (uploads : list JsonValue) (sent : bool),
    calls (snd (message_reply_try env 0 s))
    = reply_call env 0 :: (reply_attachment_call (JStr "r1") <$> uploads)
      ++ (if sent then [reply_send_call (JStr "r1")] else []) /\
    (sent = true ->
     reply_attachments env 0 [plain_item]
     = inr uploads) /\
    fst (message_reply_try env 0 s) = Throw (ExternalError "Attachment too large").
Proof.
  intros env s.
  destruct (reply_sent_after_uploads env 0 s {[ "id" := JStr "r1" ]} eq_refl)
    as (uploads & sent & Hcalls & _ & Hsent & _).
  exists uploads, sent. split; [exact Hcalls|].
  split; [intros H; apply (Hsent H) | reflexivity].
Defined.

(** On that run the second attachment is refused: the first one stays
    posted and the reply is not sent. *)
Example refused_attachment_leaves_draft :
  calls (snd (message_reply_try (reply_env 2) 0 (initial_state [plain_item])))
  = [reply_call (reply_env 2) 0;
     reply_attachment_call (JStr "r1") (obj [("name", JStr "a.txt")]);
     reply_attachment_call (JStr "r1") (obj [("name", JStr "b.txt")])].
Proof. reflexivity. Qed.

(** * Sending a message *)

(** [message.send], lines 581-619.  The message is built from the
    additional fields with the subject and the recipients of the item's own
    parameters put over them, a body content that is never empty (a single
    space stands in for an empty one) and without [saveToSentItems]; every
    other additional field is passed on as it is.  [saveToSentItems] travels
    beside the message and is [true] unless the additional fields set it.
    One request is made, after the attachments were converted; when their
    conversion fails no request is made. *)
Theorem send_mail_request env i s :
  let given := asObject (getNodeParameter env "additionalFields" i) in
  exists fields flag,
    fields !! "subject" = Some (getNodeParameter env "subject" i) /\
    fields !! "toRecipients" = Some (getNodeParameter env "toRecipients" i) /\
    (exists content,
       fields !! "bodyContent" = Some content /\ truthy content = true /\
       (truthy (getNodeParameter env "bodyContent" i) = true ->
        content = getNodeParameter env "bodyContent" i)) /\
    fields !! "saveToSentItems" = None /\
    (forall k, k ∉ send_reserved -> fields !! k = given !! k) /\
    flag = (if is_undefined (default JUndefined (given !! "saveToSentItems"))
            then JBool true
            else default JUndefined (given !! "saveToSentItems")) /\
    match mail_attachments env i (items s) with
    | inl e => message_send_try env i s = (Throw e, s)
    | inr None =>
        calls (snd (message_send_try env i s))
        = calls s ++ [send_mail_call (createMessage env fields) flag]
    | inr (Some converted) =>
        calls (snd (message_send_try env i s))
        = calls s ++ [send_mail_call
                        (<["attachments" := JArr converted]> (createMessage env fields))
                        flag]
    end.
Proof.
  intros given.
  set (subject := getNodeParameter env "subject" i).
  set (toRecipients := getNodeParameter env "toRecipients" i).
  set (bodyContent := getNodeParameter env "bodyContent" i).
  set (fields := delete "saveToSentItems"
                   (<["toRecipients" := toRecipients]>
                      (<["bodyContent" := or_else bodyContent (JStr " ")]>
                         (<["subject" := subject]> given)))).
  exists fields.
  eexists.
  split; [unfold fields; now rewrite lookup_delete_ne, lookup_insert_ne,
            lookup_insert_ne, lookup_insert_eq by discriminate|].
  split; [unfold fields; now rewrite lookup_delete_ne, lookup_insert_eq by discriminate|].
  split.
  { exists (or_else bodyContent (JStr " ")).
    split; [unfold fields; now rewrite lookup_delete_ne, lookup_insert_ne,
              lookup_insert_eq by discriminate|].
    unfold or_else. destruct (truthy bodyContent) eqn:Hb; auto. split; [reflexivity|discriminate]. }
  split; [apply lookup_delete_eq|].
  split.
  { intros k Hk. unfold send_reserved in Hk.
    rewrite !not_elem_of_cons in Hk. destruct Hk as (? & ? & ? & ? & _).
    unfold fields. now rewrite lookup_delete_ne, !lookup_insert_ne by congruence. }
  split; [reflexivity|].
  assert (Hflag : forall k, k <> "subject" -> k <> "bodyContent" -> k <> "toRecipients" ->
            field (JObj (<["toRecipients" := toRecipients]>
                           (<["bodyContent" := or_else bodyContent (JStr " ")]>
                              (<["subject" := subject]> given)))) k
            = default JUndefined (given !! k)).
  { intros k ? ? ?. cbn [field]. now rewrite !lookup_insert_ne by congruence. }
  assert (Hatt : field (JObj fields) "attachments"
                 = field (getNodeParameter env "additionalFields" i) "attachments").
  { cbn [field]. unfold fields.
    rewrite lookup_delete_ne, !lookup_insert_ne by discriminate.
    unfold given, asObject, field.
    destruct (getNodeParameter env "additionalFields" i); try reflexivity. }
  unfold message_send_try, mail_attachments. cbv zeta.
  fold given. fold subject. fold toRecipients. fold bodyContent. fold fields.
  rewrite (Hflag "saveToSentItems") by discriminate.
  rewrite Hatt.
  destruct (truthy (field (getNodeParameter env "additionalFields" i) "attachments")).
  - destruct (binaryToAttachments env _ (items s) i) as [e|converted] eqn:Hconv.
    + unfold bind, get_items. rewrite Hconv. reflexivity.
    + unfold bind, get_items. rewrite Hconv.
      unfold lift_result, ret, microsoftApiRequest, perform, push, send_mail_call.
      match goal with
      | |- context [server env ?h ?c] => now destruct (server env h c)
      end.
  - unfold bind, lift_result, ret, microsoftApiRequest, perform, push, send_mail_call.
    match goal with
    | |- context [server env ?h ?c] => now destruct (server env h c)
    end.
Qed.

(** An empty body content is sent as one space, the subject of the
    additional fields is overridden, and the copy flag leaves the message. *)
Example empty_body_is_one_space :
  calls (snd (message_send_try mail_env 0 (initial_state [plain_item])))
  = [send_mail_call
       (list_to_map [("subject", JStr "Offer"); ("bodyContent", JStr " ");
                     ("toRecipients", JStr "a@x.org"); ("importance", JStr "high")])
       (JBool false)].
Proof. vm_compute. reflexivity. Qed.

(** * Operations that only read the input *)

Lemma reads_only_ret {A} (a : A) : reads_only (ret a).
Proof. intros s. reflexivity. Qed.

Lemma reads_only_throw {A} e : reads_only (@throw A e).
Proof. intros s. reflexivity. Qed.

Lemma reads_only_bind {A B} (m : M A) (f : A -> M B) :
  reads_only m -> (forall a, reads_only (f a)) -> reads_only (bind m f).
Proof.
  intros Hm Hf s. unfold bind. specialize (Hm s).
  destruct (m s) as [[a|e] s']; cbn in *; [|assumption].
  rewrite <- Hm. apply Hf.
Qed.

Lemma reads_only_try_catch {A} (m : M A) h :
  reads_only m -> (forall e, reads_only (h e)) -> reads_only (try_catch m h).
Proof.
  intros Hm Hh s. unfold try_catch. specialize (Hm s).
  destruct (m s) as [[a|e] s']; cbn in *; [assumption|].
  rewrite <- Hm. apply Hh.
Qed.

Lemma reads_only_perform env c : reads_only (perform env c).
Proof. intros s. unfold perform. now destruct (server env (calls s) c). Qed.

Lemma reads_only_downloadAttachments env messages prefix :
  reads_only (downloadAttachments env messages prefix).
Proof.
  intros s. unfold downloadAttachments.
  now destruct (downloadAttachments_result env (calls s) messages prefix).
Qed.

Lemma reads_only_get_items : reads_only get_items.
Proof. intros s. reflexivity. Qed.

Lemma reads_only_get_qs : reads_only get_qs.
Proof. intros s. reflexivity. Qed.

Lemma reads_only_get_returnData : reads_only get_returnData.
Proof. intros s. reflexivity. Qed.

Lemma reads_only_get_item i : reads_only (get_item i).
Proof. intros s. unfold get_item. now destruct (items s !! i). Qed.

Lemma reads_only_set_qs k v : reads_only (set_qs k v).
Proof. intros s. reflexivity. Qed.

Lemma reads_only_push b : reads_only (push b).
Proof. intros s. reflexivity. Qed.

Lemma reads_only_lift_result {A} (r : Error + A) : reads_only (lift_result r).
Proof. intros s. now destruct r. Qed.

Lemma reads_only_prop v k : reads_only (prop v k).
Proof. intros s. now destruct v. Qed.

Lemma reads_only_when_ c m : reads_only m -> reads_only (when_ c m).
Proof. intros Hm. destruct c; [assumption | apply reads_only_ret]. Qed.

Lemma reads_only_for_of {A} (l : list A) f :
  (forall x, reads_only (f x)) -> reads_only (for_of l f).
Proof.
  intros Hf. induction l as [|x l IH]; cbn; [apply reads_only_ret|].
  apply reads_only_bind; [apply Hf | intros _; exact IH].
Qed.

Lemma reads_only_upload_chunks env fuel url buf c o :
  reads_only (upload_chunks env fuel url buf c o).
Proof.
  revert o. induction fuel as [|fuel IH]; intros o; cbn [upload_chunks];
    [apply reads_only_ret|].
  destruct (o <? buffer_length buf); [|apply reads_only_ret].
  apply reads_only_bind; [apply reads_only_perform | intros _; apply IH].
Qed.

Create HintDb reads_only discriminated.
#[local] Hint Resolve reads_only_ret reads_only_throw reads_only_perform
  reads_only_downloadAttachments reads_only_get_items reads_only_get_qs
  reads_only_get_returnData reads_only_get_item reads_only_set_qs
  reads_only_push reads_only_lift_result reads_only_prop
  reads_only_upload_chunks : reads_only.

Ltac reads_only_step :=
  match goal with
  | |- reads_only (bind _ _) => apply reads_only_bind; [ | intros ? ]
  | |- reads_only (when_ _ _) => apply reads_only_when_
  | |- reads_only (for_of _ _) => apply reads_only_for_of; intros ?
  | |- reads_only (if ?c then _ else _) => destruct c
  | |- reads_only (match ?x with _ => _ end) => destruct x
  | |- reads_only _ => solve [ auto with reads_only ]
  end.

Ltac reads_only_solve :=
  unfold microsoftApiRequest, microsoftApiRequestAllItems, helpers_request,
    list_request, getBinaryDataBuffer;
  cbv zeta;
  repeat reads_only_step.

Section ReadsOnly.

Variables (env : Env) (i : nat).

Lemma message_delete_reads_only : reads_only (message_delete_try env i).
Proof. unfold message_delete_try. reads_only_solve. Qed.

Lemma message_get_reads_only : reads_only (message_get_try env i).
Proof. unfold message_get_try. reads_only_solve. Qed.

Lemma message_update_reads_only : reads_only (message_update_try env i).
Proof. unfold message_update_try. reads_only_solve. Qed.

Lemma draft_create_reads_only : reads_only (draft_create_try env i).
Proof. unfold draft_create_try. reads_only_solve. Qed.

Lemma draft_send_reads_only : reads_only (draft_send_try env i).
Proof. unfold draft_send_try. reads_only_solve. Qed.

Lemma message_reply_reads_only : reads_only (message_reply_try env i).
Proof. unfold message_reply_try. reads_only_solve. Qed.

Lemma message_getAll_reads_only : reads_only (message_getAll_try env i).
Proof. unfold message_getAll_try. reads_only_solve. Qed.

Lemma message_move_reads_only : reads_only (message_move_try env i).
Proof. unfold message_move_try. reads_only_solve. Qed.

Lemma message_send_reads_only : reads_only (message_send_try env i).
Proof. unfold message_send_try. reads_only_solve. Qed.

Lemma messageAttachment_add_reads_only : reads_only (messageAttachment_add_try env i).
Proof. unfold messageAttachment_add_try. reads_only_solve. Qed.

Lemma messageAttachment_get_reads_only : reads_only (messageAttachment_get_try env i).
Proof. unfold messageAttachment_get_try. reads_only_solve. Qed.

Lemma messageAttachment_getAll_reads_only :
  reads_only (messageAttachment_getAll_try env i).
Proof. unfold messageAttachment_getAll_try. reads_only_solve. Qed.

Lemma folder_create_reads_only : reads_only (folder_create_try env i).
Proof. unfold folder_create_try. reads_only_solve. Qed.

Lemma folder_delete_reads_only : reads_only (folder_delete_try env i).
Proof. unfold folder_delete_try. reads_only_solve. Qed.

Lemma folder_get_reads_only : reads_only (folder_get_try env i).
Proof. unfold folder_get_try. reads_only_solve. Qed.

Lemma folder_getAll_reads_only : reads_only (folder_getAll_try env i).
Proof. unfold folder_getAll_try. reads_only_solve. Qed.

Lemma folder_getChildren_reads_only : reads_only (folder_getChildren_try env i).
Proof. unfold folder_getChildren_try. reads_only_solve. Qed.

Lemma folder_update_reads_only : reads_only (folder_update_try env i).
Proof. unfold folder_update_try. reads_only_solve. Qed.

Lemma folderMessage_reads_only operation :
  reads_only (folderMessage_try env operation i).
Proof. unfold folderMessage_try. reads_only_solve. Qed.

End ReadsOnly.

Lemma operation_try_reads_only env i :
  returns_items (getNodeParameter env "resource" 0)
    (getNodeParameter env "operation" 0) = false ->
  reads_only (operation_try env i).
Proof.
  unfold operation_try, returns_items, includes, existsb.
  by_operation.
  all: intros Hacc; try discriminate Hacc.
  all: first
    [ apply message_delete_reads_only | apply message_get_reads_only
    | apply message_update_reads_only | apply draft_create_reads_only
    | apply draft_send_reads_only | apply message_reply_reads_only
    | apply message_getAll_reads_only
    | apply message_move_reads_only | apply message_send_reads_only
    | apply messageAttachment_add_reads_only
    | apply messageAttachment_get_reads_only
    | apply messageAttachment_getAll_reads_only
    | apply folder_create_reads_only | apply folder_delete_reads_only
    | apply folder_get_reads_only | apply folder_getAll_reads_only
    | apply folder_getChildren_reads_only | apply folder_update_reads_only
    | apply folderMessage_reads_only
    | apply reads_only_ret ].
Qed.

Lemma item_body_reads_only env i :
  returns_items (getNodeParameter env "resource" 0)
    (getNodeParameter env "operation" 0) = false ->
  reads_only (item_body env i).
Proof.
  intros Hacc. unfold item_body, operation_catch. rewrite Hacc.
  apply reads_only_try_catch; [now apply operation_try_reads_only|].
  intros e. unfold catch_push. reads_only_solve.
Qed.

Lemma for_loop_reads_only body n : forall lo,
  (forall i, reads_only (body i)) -> reads_only (for_loop body lo n).
Proof.
  induction n as [|n IH]; intros lo Hbody; cbn [for_loop]; [apply reads_only_ret|].
  apply reads_only_bind; [apply Hbody|].
  intros [|out]; [now apply IH | apply reads_only_ret].
Qed.

(** The operations other than [message.getMime] and
    [messageAttachment.download] never change the input items: whatever the
    server answers, whether the run ends normally or with an error, the
    items are the ones that were handed in.  (The two other operations
    replace items with enriched copies, lines 444-464 and 789-807.) *)
Theorem accumulating_operations_keep_input env input :
  returns_items (getNodeParameter env "resource" 0)
    (getNodeParameter env "operation" 0) = false ->
  items (snd (execute env input)) = input.
Proof.
  intros Hacc. rewrite execute_unfold.
  pose proof (for_loop_reads_only (item_body env) (length input) 0%nat
                (fun i => item_body_reads_only env i Hacc) (initial_state input)) as H.
  destruct (for_loop (item_body env) 0 (length input) (initial_state input))
    as [[[|out]|e] s']; cbn [fst snd] in *; [rewrite Hacc|..]; exact H.
Qed.

Lemma accumulating_operations_keep_input_witness :
  items (snd (execute folders_env [plain_item; plain_item])) = [plain_item; plain_item].
Proof.
  apply (accumulating_operations_keep_input folders_env [plain_item; plain_item]).
  reflexivity.
Defined.

(** * The options loader *)

Lemma getCategories_loop_spec categories : forall returnData,
  getCategories_loop categories returnData
  = if forallb (fun c => negb (is_nullish c)) categories
    then inr (returnData ++ (category_option <$> categories))
    else inl (TypeError "Cannot read properties of undefined").
Proof.
  induction categories as [|c categories IH]; intros returnData.
  - cbn. now rewrite app_nil_r.
  - cbn [getCategories_loop forallb fmap list_fmap].
    destruct c; cbn [is_nullish negb andb]; try reflexivity;
      rewrite IH; destruct (forallb _ categories); try reflexivity;
      now rewrite <- app_assoc.
Qed.

(** [getCategories], lines 114-129: when the server lists the categories,
    the drop-down holds one option per category, in the server's order, named
    by the display name of the category and valued by its id; a category
    that is [null] or [undefined] makes the whole load fail. *)
Theorem getCategories_options env categories :
  server env [] categories_call = inr (JArr categories) ->
  (forallb (fun c => negb (is_nullish c)) categories = true ->
   getCategories env = inr (category_option <$> categories)) /\
  (forallb (fun c => negb (is_nullish c)) categories = false ->
   exists e, getCategories env = inl e).
Proof.
  intros Hsrv. unfold getCategories. rewrite Hsrv, getCategories_loop_spec.
  split; intros ->; [reflexivity | eauto].
Qed.

Lemma getCategories_options_witness :
  getCategories categories_env
  = inr [{| option_name := JStr "Red"; option_value := JStr "c1" |};
         {| option_name := JStr "Blue"; option_value := JStr "c2" |}].
Proof.
  apply (getCategories_options categories_env
           [obj [("id", JStr "c1"); ("displayName", JStr "Red")];
            obj [("id", JStr "c2"); ("displayName", JStr "Blue")]] eq_refl).
  reflexivity.
Defined.
